(** * StoryController: the story split workflow and the story tasks report

    A shallow embedding of [api/controllers/StoryController.js] (actions
    [split] and [tasks]) and the properties of its specification.

    - Entities (stories, tasks, phases, ledger rows) are JavaScript objects:
      finite maps from field names to values.
    - The callback chains are written in a state-and-error monad over the
      persistent store; every call to a collaborator is recorded, in order.
    - Numbers stored in entities are integers.  The percentages of the
      phases are exact rationals extended with [Infinity], [-Infinity] and
      [NaN], without the rounding of doubles; the totals are integer sums,
      which are the sums of the code within 2^53; the progress of the tasks
      is computed in IEEE 754 doubles.  The sign of zero is not modelled. *)

From Stdlib Require Import ZArith QArith Qround Lia String Ascii SpecFloat.
From stdpp Require Import base option gmap strings list fin_maps.

Local Open Scope Z_scope.

(** ** JavaScript values *)

Inductive JsVal : Type :=
  | VUndef
  | VNull
  | VBool (b : bool)
  | VNum (n : Z)
  | VStr (s : string)
  | VDate (ms : Z).

(** An object is a finite map from property names to values. *)
Abbreviation JsObj := (gmap string JsVal).

(** [o.k]: reading a missing property gives [undefined]. *)
Definition prop (o : JsObj) (k : string) : JsVal := default VUndef (o !! k).

(** [o.k = v] *)
Definition assign (k : string) (v : JsVal) (o : JsObj) : JsObj := <[k := v]> o.

(** ** Coercions and operators *)

Definition is_ws (c : ascii) : bool :=
  let n := N_of_ascii c in
  ((n =? 32) || (n =? 9) || (n =? 10) || (n =? 11) || (n =? 12) || (n =? 13))%N.

Definition digit_of (c : ascii) : option Z :=
  let n := Z.of_N (N_of_ascii c) in
  if (48 <=? n) && (n <=? 57) then Some (n - 48) else None.

Fixpoint ltrim (s : string) : string :=
  match s with
  | String c s' => if is_ws c then ltrim s' else s
  | EmptyString => EmptyString
  end.

Fixpoint all_ws (s : string) : bool :=
  match s with
  | String c s' => is_ws c && all_ws s'
  | EmptyString => true
  end.

Fixpoint digits (acc : Z) (s : string) : option Z :=
  match s with
  | EmptyString => Some acc
  | String c s' =>
      match digit_of c with
      | Some d => digits (acc * 10 + d) s'
      | None => if all_ws s then Some acc else None
      end
  end.

Definition unsigned_literal (s : string) : option Z :=
  match s with
  | String c _ => match digit_of c with Some _ => digits 0 s | None => None end
  | EmptyString => None
  end.

(** ToNumber on a string, for the integer literals the number domain can
    hold: surrounding white space is dropped, the empty string is [0], an
    optionally signed run of decimal digits is its value, and anything else
    is [NaN] ([None]). *)
Definition StringToNumber (s : string) : option Z :=
  match ltrim s with
  | EmptyString => Some 0
  | String c r =>
      if (N_of_ascii c =? 45)%N then Z.opp <$> unsigned_literal r
      else if (N_of_ascii c =? 43)%N then unsigned_literal r
      else unsigned_literal (String c r)
  end.

(** ToNumber; [None] is [NaN].  A date converts to its time value. *)
Definition ToNumber (v : JsVal) : option Z :=
  match v with
  | VUndef => None
  | VNull => Some 0
  | VBool b => Some (if b then 1 else 0)
  | VNum n => Some n
  | VStr s => StringToNumber s
  | VDate ms => Some ms
  end.

(** ToBoolean: the test of [if (v)] and of [v ? a : b]. *)
Definition truthy (v : JsVal) : bool :=
  match v with
  | VUndef | VNull => false
  | VBool b => b
  | VNum n => negb (n =? 0)
  | VStr s => negb (String.eqb s "")
  | VDate _ => true
  end.

(** [a < b]: two strings are compared as strings (byte by byte), every
    other pair as numbers, and a comparison with [NaN] is false. *)
Definition js_lt (a b : JsVal) : bool :=
  match a, b with
  | VStr s, VStr t => String.ltb s t
  | _, _ =>
      match ToNumber a, ToNumber b with
      | Some x, Some y => x <? y
      | _, _ => false
      end
  end.

(** [a > b] *)
Definition js_gt (a b : JsVal) : bool := js_lt b a.

(** [a === b].  Dates are objects, and the controller only ever compares
    properties of two different objects, so two dates are never identical. *)
Definition strict_eq (a b : JsVal) : bool :=
  match a, b with
  | VUndef, VUndef => true
  | VNull, VNull => true
  | VBool x, VBool y => Bool.eqb x y
  | VNum x, VNum y => x =? y
  | VStr s, VStr t => String.eqb s t
  | _, _ => false
  end.

(** [a == n] for a number [n].  A date is first converted to its string
    form, which is never a numeral. *)
Definition loose_eq_num (a : JsVal) (n : Z) : bool :=
  match a with
  | VUndef | VNull | VDate _ => false
  | VBool _ | VNum _ | VStr _ =>
      match ToNumber a with
      | Some x => x =? n
      | None => false
      end
  end.

(** ** Numbers of the report *)

Inductive JsNumber : Type :=
  | Finite (q : Q)
  | PosInf
  | NegInf
  | NaN.

Definition of_Z (z : Z) : JsNumber := Finite (inject_Z z).

Definition Qsign_nonneg (q : Q) : bool := (0 <=? Qnum q)%Z.

(** [x / y] *)
Definition js_div (x y : JsNumber) : JsNumber :=
  match x, y with
  | NaN, _ | _, NaN => NaN
  | Finite a, Finite b =>
      if (Qnum b =? 0)%Z then
        (if (Qnum a =? 0)%Z then NaN
         else if (0 <? Qnum a)%Z then PosInf else NegInf)
      else Finite (Qred (a / b))
  | Finite _, (PosInf | NegInf) => Finite 0
  | (PosInf | NegInf), (PosInf | NegInf) => NaN
  | PosInf, Finite b => if Qsign_nonneg b then PosInf else NegInf
  | NegInf, Finite b => if Qsign_nonneg b then NegInf else PosInf
  end.

(** [x * y] *)
Definition js_mul (x y : JsNumber) : JsNumber :=
  match x, y with
  | NaN, _ | _, NaN => NaN
  | Finite a, Finite b => Finite (Qred (a * b))
  | Finite a, PosInf | PosInf, Finite a =>
      if (Qnum a =? 0)%Z then NaN
      else if (0 <? Qnum a)%Z then PosInf else NegInf
  | Finite a, NegInf | NegInf, Finite a =>
      if (Qnum a =? 0)%Z then NaN
      else if (0 <? Qnum a)%Z then NegInf else PosInf
  | PosInf, PosInf | NegInf, NegInf => PosInf
  | PosInf, NegInf | NegInf, PosInf => NegInf
  end.

(** [Math.round(x)]: the nearest integer, halves going up. *)
Definition js_round (x : JsNumber) : JsNumber :=
  match x with
  | Finite q => of_Z (Qfloor (q + (1 # 2)))
  | _ => x
  end.

Definition is_finite (x : JsNumber) : Prop :=
  match x with Finite _ => True | _ => False end.

(** [lo <= x <= hi] for a finite [x]; false for [NaN] and the infinities. *)
Definition between (lo hi : Z) (x : JsNumber) : Prop :=
  match x with
  | Finite q => (inject_Z lo <= q /\ q <= inject_Z hi)%Q
  | _ => False
  end.

(** *** Doubles

    The progress of a report is computed in binary64, the format of a
    JavaScript number, with the operations of the standard library's
    reference implementation of IEEE 754 ([SpecFloat], precision 53, round
    to nearest even). *)

(** The number an integer denotes: the nearest double. *)
Definition double_of_Z (z : Z) : spec_float := binary_normalize 53 1024 z 0 false.

(** [x / y], [x * y] and [x + y] on doubles. *)
Definition double_div (x y : spec_float) : spec_float := SFdiv 53 1024 x y.

Definition double_mul (x y : spec_float) : spec_float := SFmul 53 1024 x y.

Definition double_add (x y : spec_float) : spec_float := SFadd 53 1024 x y.

(** The exact value of a double. *)
Definition number_of_double (x : spec_float) : JsNumber :=
  match x with
  | S754_zero _ => Finite 0
  | S754_infinity false => PosInf
  | S754_infinity true => NegInf
  | S754_nan => NaN
  | S754_finite s m e =>
      Finite (if 0 <=? e then inject_Z (cond_Zopp s (Z.pos m) * 2 ^ e)
              else Qmake (cond_Zopp s (Z.pos m)) (Pos.pow 2 (Z.to_pos (- e))))
  end.

(** ** The persistent store and the collaborators *)

(** The sum of a list of integers. *)
Definition Zsum (l : list Z) : Z := fold_right Z.add 0 l.

(** A criteria object: equality constraints on named fields and, in the
    split's task query, an [or] list of alternatives. *)
Record Where : Type := mkWhere {
  w_eq : JsObj;
  w_or : option (list JsObj)
}.

(** A row of the PhaseDuration ledger. *)
Record LedgerRow : Type := mkRow {
  pd_phaseId : Z;
  pd_storyId : Z;
  pd_duration : Z
}.

Definition row_obj (r : LedgerRow) : JsObj :=
  {[ "phaseId" := VNum (pd_phaseId r);
     "storyId" := VNum (pd_storyId r);
     "duration" := VNum (pd_duration r) ]}.

Record World : Type := mkWorld {
  db_stories : gmap Z JsObj;
  db_tasks : gmap Z JsObj;
  db_phases : list JsObj;
  db_users : list JsObj;
  db_types : list JsObj;
  db_ledger : list LedgerRow;
  db_roles : gmap Z JsVal;
  next_id : Z;
  clock : Z
}.

Definition set_stories (f : gmap Z JsObj -> gmap Z JsObj) (w : World) : World :=
  mkWorld (f (db_stories w)) (db_tasks w) (db_phases w) (db_users w)
          (db_types w) (db_ledger w) (db_roles w) (next_id w) (clock w).

Definition set_tasks (f : gmap Z JsObj -> gmap Z JsObj) (w : World) : World :=
  mkWorld (db_stories w) (f (db_tasks w)) (db_phases w) (db_users w)
          (db_types w) (db_ledger w) (db_roles w) (next_id w) (clock w).

Definition set_next_id (n : Z) (w : World) : World :=
  mkWorld (db_stories w) (db_tasks w) (db_phases w) (db_users w)
          (db_types w) (db_ledger w) (db_roles w) n (clock w).

(** Every call the controller makes to a collaborator, with its arguments. *)
Inductive Call : Type :=
  | GetStory (id : Z)
  | GetPhases (wh : Where)
  | GetTasks (wh : Where)
  | GetTask (id : JsVal)
  | GetUsers (wh : Where)
  | GetTypes (wh : Where)
  | HasStoryAccess (storyId : Z)
  | PhaseDurationSum (wh : Where)
  | StoryCreate (values : JsObj)
  | StoryUpdate (id : JsVal) (patch : JsObj)
  | TaskSave (task : JsObj)
  | StoryPublishCreate (story : JsObj)
  | StoryPublishUpdate (id : JsVal) (story : JsObj)
  | TaskPublishDestroy (id : JsVal)
  | TaskPublishCreate (task : JsObj).

(** What the controller's final callback sees: a failed call (answered with
    [ResponseService.makeError]) or an uncaught [TypeError] (no answer). *)
Inductive Error : Type :=
  | IoError (c : Call)
  | TypeError.

Inductive Result (A : Type) : Type :=
  | Ok (a : A)
  | Err (e : Error).
Arguments Ok {A} a.
Arguments Err {A} e.

(** The outcome of running a piece of the controller from a store: its
    result, the store it leaves, and the calls it made, oldest first. *)
Record Run (A : Type) : Type := mkRun {
  res : Result A;
  world : World;
  calls : list Call
}.
Arguments mkRun {A} res world calls.
Arguments res {A} r.
Arguments world {A} r.
Arguments calls {A} r.

Definition M (A : Type) : Type := World -> Run A.

#[export] Instance M_ret : MRet M := fun A a w => mkRun (Ok a) w [].

#[export] Instance M_bind : MBind M := fun A B f m w =>
  let r := m w in
  match res r with
  | Ok a => let r' := f a (world r) in
            mkRun (res r') (world r') (calls r ++ calls r')
  | Err e => mkRun (Err e) (world r) (calls r)
  end.

Definition throw {A} (e : Error) : M A := fun w => mkRun (Err e) w [].

(** [new Date()] *)
Definition now : M JsVal := fun w => mkRun (Ok (VDate (clock w))) w [].

(** Modelled from the spec: [async.parallel] (section 4.1, runParallel; the
    library is not part of the sources).  Both jobs are issued, neither is
    cancelled when the other fails, and the continuation gets the first error
    in registration order, or both results.  The jobs run one after the
    other in registration order, which is one of the interleavings the event
    loop allows.  An uncaught [TypeError] ends the request. *)
Definition async_parallel {A B} (j1 : M A) (j2 : M B) : M (A * B) := fun w =>
  let r1 := j1 w in
  match res r1 with
  | Err TypeError => mkRun (Err TypeError) (world r1) (calls r1)
  | _ =>
      let r2 := j2 (world r1) in
      mkRun (match res r1, res r2 with
             | Ok a, Ok b => Ok (a, b)
             | Err e, _ => Err e
             | Ok _, Err e => Err e
             end)
            (world r2) (calls r1 ++ calls r2)
  end.

(** Modelled from the spec: [async.map], one job per element, joined like
    [async_parallel]. *)
Fixpoint async_map {A B} (f : A -> M B) (l : list A) : M (list B) :=
  match l with
  | [] => mret []
  | x :: xs => '(y, ys) ← async_parallel (f x) (async_map f xs); mret (y :: ys)
  end.

(** The parts of the data layer that are not in the controller: how a
    criteria object selects entities, and which calls fail. *)
Class DataLayer : Type := {
  matches : Where -> JsObj -> bool;
  fault : Call -> bool
}.

Section Collaborators.
Context `{DataLayer}.

(** A fallible call: recorded, then either failed or performed. *)
Definition call {A} (c : Call) (k : World -> Result A * World) : M A := fun w =>
  if fault c then mkRun (Err (IoError c)) w [c]
  else mkRun (k w).1 (k w).2 [c].

(** A notification: recorded, fire-and-forget. *)
Definition notify (c : Call) : M unit := fun w => mkRun (Ok tt) w [c].

(** Modelled from the spec: [DataService.getStory] (section 6, DataAccess);
    a missing story is a failure. *)
Definition getStory (id : Z) : M JsObj :=
  call (GetStory id) (fun w =>
    (match db_stories w !! id with
     | Some s => Ok s
     | None => Err (IoError (GetStory id))
     end, w)).

(** Modelled from the spec: [DataService.getPhases]. *)
Definition getPhases (wh : Where) : M (list JsObj) :=
  call (GetPhases wh) (fun w => (Ok (List.filter (matches wh) (db_phases w)), w)).

Definition stored_tasks (w : World) : list JsObj := (map_to_list (db_tasks w)).*2.

(** Modelled from the spec: [DataService.getTasks]. *)
Definition getTasks (wh : Where) : M (list JsObj) :=
  call (GetTasks wh) (fun w => (Ok (List.filter (matches wh) (stored_tasks w)), w)).

(** Modelled from the spec: [DataService.getTask]; a missing task is a
    failure. *)
Definition getTask (id : JsVal) : M JsObj :=
  call (GetTask id) (fun w =>
    (match id with
     | VNum k => match db_tasks w !! k with
                 | Some t => Ok t
                 | None => Err (IoError (GetTask id))
                 end
     | _ => Err (IoError (GetTask id))
     end, w)).

(** Modelled from the spec: [DataService.getUsers] and [getTypes]. *)
Definition getUsers (wh : Where) : M (list JsObj) :=
  call (GetUsers wh) (fun w => (Ok (List.filter (matches wh) (db_users w)), w)).

Definition getTypes (wh : Where) : M (list JsObj) :=
  call (GetTypes wh) (fun w => (Ok (List.filter (matches wh) (db_types w)), w)).

(** Modelled from the spec: [AuthService.hasStoryAccess] (section 6,
    AccessControl): the role of the requesting user in the story. *)
Definition hasStoryAccess (storyId : Z) : M JsVal :=
  call (HasStoryAccess storyId) (fun w =>
    (match db_roles w !! storyId with
     | Some r => Ok r
     | None => Err (IoError (HasStoryAccess storyId))
     end, w)).

(** Modelled from the spec: [Story.create] (section 6, Persistence): the
    entity is stored under a new identity and returned. *)
Definition Story_create (values : JsObj) : M JsObj :=
  call (StoryCreate values) (fun w =>
    let s := <["id" := VNum (next_id w)]> values in
    (Ok s, set_next_id (next_id w + 1) (set_stories <[next_id w := s]> w))).

(** Modelled from the spec: [Story.update] with the criteria [{id: id}]:
    the patch is written over the story of that identity; the updated
    stories are returned (none when no story has it). *)
Definition Story_update (id : JsVal) (patch : JsObj) : M (list JsObj) :=
  call (StoryUpdate id patch) (fun w =>
    match id with
    | VNum k => match db_stories w !! k with
                | Some s => (Ok [patch ∪ s], set_stories <[k := patch ∪ s]> w)
                | None => (Ok [], w)
                end
    | _ => (Ok [], w)
    end).

(** Modelled from the spec: [task.save()]: the object is written to the
    store under its identity. *)
Definition Task_save (task : JsObj) : M unit :=
  call (TaskSave task) (fun w =>
    match prop task "id" with
    | VNum k => (Ok tt, set_tasks <[k := task]> w)
    | _ => (Err (IoError (TaskSave task)), w)
    end).

Definition ledger_rows (wh : Where) (w : World) : list LedgerRow :=
  List.filter (fun r => matches wh (row_obj r)) (db_ledger w).

Definition sum_durations (rows : list LedgerRow) : Z :=
  Zsum (pd_duration <$> rows).

(** The sum of a selection of rows: null ([None]) for an empty one. *)
Definition sum_or_null (rows : list LedgerRow) : option Z :=
  match rows with
  | [] => None
  | _ => Some (sum_durations rows)
  end.

(** Modelled from the spec: [PhaseDuration.find({sum: "duration"}).where(..)]
    (section 4.4): the [duration] of the single result row is the sum over
    the matching ledger rows, and null when there is none. *)
Definition PhaseDuration_sum (wh : Where) : M (option Z) :=
  call (PhaseDurationSum wh) (fun w => (Ok (sum_or_null (ledger_rows wh w)), w)).

End Collaborators.

(** ** The [split] action *)

Module Split.

(** The accumulator [data] of the action.  [storyOld] and [storyNew] start
    as [false] ([None]). *)
Record Data : Type := mkData {
  storyOld : option JsObj;
  storyNew : option JsObj;
  tasks : list JsObj;
  taskCnt : Z
}.

(** [v.k] for a value that is an object or [false]. *)
Definition field (v : option JsObj) (k : string) : JsVal := prop (default ∅ v) k.

(** The story handed to [Story.create]: the fetched [story] after the
    [delete]s and the two assignments of the [newStory] job. *)
Definition cloneStory (story : JsObj) (sprintId storyId : Z) : JsObj :=
  assign "parentId" (VNum storyId)
    (assign "sprintId" (VNum sprintId)
      (delete "timeEnd"
        (delete "timeStart"
          (delete "updatedAt"
            (delete "createdAt"
              (delete "id" story)))))).

(** [phaseIds] of [changeTasks] *)
Definition phaseIds (phases : list JsObj) : list JsObj :=
  (fun phase => {[ "phaseId" := prop phase "id" ]}) <$> phases.

(** The search for the first phase in [changeTasks]; [phase0] is
    [phases[0]]. *)
Definition firstPhase (phase0 : JsObj) (phases : list JsObj) : JsObj :=
  fold_left
    (fun first phase =>
       if js_lt (prop phase "order") (prop first "order") then phase else first)
    phases phase0.

(** The start time computed for the new story in [finalizeStorySplit]. *)
Definition newStoryTimeStart (tasks : list JsObj) : JsVal :=
  fold_left
    (fun timeStart task =>
       if js_gt (prop task "timeStart") timeStart
       then prop task "timeStart" else timeStart)
    tasks VNull.

Section Action.
Context `{DataLayer}.
Variables storyId sprintId projectId : Z.

(** The iterator of [moveTasks]. *)
Definition moveTask (storyNew : option JsObj) (first : JsObj)
    (task : JsObj) : M JsObj :=
  let taskId := prop task "id" in
  let timeStart := prop task "timeStart" in
  let phaseId := prop task "phaseId" in
  let backlog := loose_eq_num (field storyNew "sprintId") 0 in
  let timeStart := if backlog then VNull else timeStart in
  let phaseId := if backlog then prop first "id" else phaseId in
  task ← getTask taskId;
  let task := assign "timeStart" timeStart
                (assign "phaseId" phaseId
                  (assign "storyId" (field storyNew "id") task)) in
  Task_save task;;
  notify (TaskPublishDestroy (prop task "id"));;
  notify (TaskPublishCreate task);;
  mret task.

Definition moveTasks (storyNew : option JsObj) (first : JsObj)
    (tasks : list JsObj) : M (list JsObj) :=
  async_map (moveTask storyNew first) tasks.

Definition updateOldStory : M JsObj :=
  date ← now;
  stories ← Story_update (VNum storyId)
              {[ "isDone" := VBool true; "timeEnd" := date ]};
  match stories with
  | story :: _ => notify (StoryPublishUpdate (VNum storyId) story);; mret story
  | [] => throw TypeError
  end.

Definition updateNewStory (data : Data) : M JsObj :=
  let timeStart := newStoryTimeStart (tasks data) in
  stories ← Story_update (field (storyNew data) "id")
              {[ "isDone" := VBool false; "timeStart" := timeStart;
                 "timeEnd" := VNull ]};
  match stories with
  | story :: _ => notify (StoryPublishUpdate (prop story "id") story);; mret story
  | [] => throw TypeError
  end.

Definition finalizeStorySplit (data : Data) : M Data :=
  '(old, new) ← async_parallel updateOldStory (updateNewStory data);
  mret (mkData (Some old) (Some new) (tasks data) (taskCnt data)).

Definition tasksWhere (phases : list JsObj) : Where :=
  mkWhere {[ "storyId" := VNum storyId ]} (Some (phaseIds phases)).

Definition changeTasks (data : Data) (phase0 : JsObj)
    (phases : list JsObj) : M Data :=
  let first := firstPhase phase0 phases in
  fetched ← getTasks (tasksWhere phases);
  moved ← moveTasks (storyNew data) first fetched;
  finalizeStorySplit
    (mkData (storyOld data) (storyNew data) moved (Z.of_nat (length moved))).

Definition createNewStory (story : JsObj) : M JsObj :=
  created ← Story_create (cloneStory story sprintId storyId);
  notify (StoryPublishCreate created);;
  mret created.

Definition phasesWhere : Where :=
  mkWhere {[ "isDone" := VNum 0; "projectId" := VNum projectId ]} None.

Definition splitStory (data : Data) (story : JsObj) : M Data :=
  '(newStory, phases) ← async_parallel (createNewStory story)
                                        (getPhases phasesWhere);
  let data := mkData (storyOld data) (Some newStory) (tasks data) (taskCnt data) in
  match phases with
  | phase0 :: _ => changeTasks data phase0 phases
  | [] => finalizeStorySplit data
  end.

(** The action.  [Ok data] is [response.send(data)]. *)
Definition split : M Data :=
  let data := mkData None None [] 0 in
  story ← getStory storyId;
  splitStory data story.

End Action.

End Split.

(** ** The [tasks] action *)

Module Tasks.

(** A phase after [fetchPhaseDuration]: the phase and its [duration]. *)
Record DurPhase : Type := mkDurPhase {
  dp_phase : JsObj;
  dp_duration : Z
}.

(** A phase after [makeView]. *)
Record PhaseView : Type := mkPhaseView {
  phase : JsObj;
  duration : Z;
  durationPercentage : JsNumber;
  durationPercentageTotal : JsNumber
}.

(** A task after [makeView], with its relations resolved ([None] when
    [_.find] finds nothing).  The time-zone display values come from the
    moment library and are left out. *)
Record TaskView : Type := mkTaskView {
  task : JsObj;
  taskType : option JsObj;
  taskUser : option JsObj;
  taskPhase : option PhaseView
}.

(** The [data] object rendered by the view. *)
Record Report : Type := mkReport {
  role : JsVal;
  story : JsObj;
  tasks : list TaskView;
  users : list JsObj;
  types : list JsObj;
  phases : list PhaseView;
  totalTime : Z;
  totalTimeNoFirst : Z;
  cntTaskTotal : Z;
  cntTaskDone : Z;
  progressTask : JsNumber
}.

(** [result[0].duration ? result[0].duration : 0] *)
Definition durationOrZero (r : option Z) : Z :=
  match r with
  | Some d => if negb (d =? 0) then d else 0
  | None => 0
  end.

(** [list.reduce(function(memo, i) { return memo + i; })] on a list the
    caller has checked to be non-empty.  Durations are integers and are
    added exactly; the additions of the code are additions of doubles, which
    are exact as long as the sums stay within 2^53 ([safe_durations]). *)
Definition reduceSum (l : list Z) : Z :=
  match l with
  | [] => 0
  | d :: ds => fold_left Z.add ds d
  end.

Definition isFirst (p : DurPhase) : bool :=
  strict_eq (prop (dp_phase p) "order") (VNum 0).

Definition computeTotalTime (phases : list DurPhase) : Z :=
  match phases with
  | [] => 0
  | _ => reduceSum (dp_duration <$> phases)
  end.

Definition computeTotalTimeNoFirst (phases : list DurPhase) : Z :=
  match phases with
  | [] => 0
  | _ =>
      let temp := dp_duration <$> List.filter (fun p => negb (isFirst p)) phases in
      match temp with
      | [] => 0
      | _ => reduceSum temp
      end
  end.

(** [part / total * 100] of a phase, as an exact rational; the double of
    the code is the nearest to it up to two roundings, with the same zero
    cases, infinities and bounds. *)
Definition percentage (part total : Z) : JsNumber :=
  js_mul (js_div (of_Z part) (of_Z total)) (of_Z 100).

Definition viewPhase (totalTime totalTimeNoFirst : Z) (p : DurPhase) : PhaseView :=
  mkPhaseView (dp_phase p) (dp_duration p)
    (if (0 <? dp_duration p) && negb (isFirst p)
     then percentage (dp_duration p) totalTimeNoFirst else of_Z 0)
    (if 0 <? dp_duration p
     then percentage (dp_duration p) totalTime else of_Z 0).

Definition viewTask (types users : list JsObj) (phases : list PhaseView)
    (t : JsObj) : TaskView :=
  mkTaskView t
    (List.find (fun type => strict_eq (prop type "id") (prop t "typeId")) types)
    (List.find (fun user => strict_eq (prop user "id") (prop t "userId")) users)
    (List.find (fun p => strict_eq (prop (phase p) "id") (prop t "phaseId")) phases).

Definition countDone (tasks : list JsObj) : Z :=
  fold_left (fun memo task => if truthy (prop task "isDone") then memo + 1 else memo)
            tasks 0.

(** [Math.round(cntTaskDone / cntTaskTotal * 100)] under the guard
    [cntTaskDone > 0], the quotient and the product in doubles. *)
Definition computeProgress (cntTaskDone cntTaskTotal : Z) : JsNumber :=
  if 0 <? cntTaskDone
  then js_round (number_of_double
                   (double_mul (double_div (double_of_Z cntTaskDone)
                                           (double_of_Z cntTaskTotal))
                               (double_of_Z 100)))
  else of_Z 0.

Definition makeView (role : JsVal) (story : JsObj) (tasks users types : list JsObj)
    (phases : list DurPhase) : Report :=
  let totalTime := computeTotalTime phases in
  let totalTimeNoFirst := computeTotalTimeNoFirst phases in
  let phases := viewPhase totalTime totalTimeNoFirst <$> phases in
  let cntTaskTotal := Z.of_nat (length tasks) in
  let cntTaskDone := countDone tasks in
  mkReport role story (viewTask types users phases <$> tasks) users types phases
           totalTime totalTimeNoFirst cntTaskTotal cntTaskDone
           (computeProgress cntTaskDone cntTaskTotal).

(** The criteria of the task query of the action. *)
Definition tasksWhere (storyId : Z) : Where :=
  mkWhere {[ "storyid" := VNum storyId ]} None.

Definition noWhere : Where := mkWhere ∅ None.

Definition phasesWhere (story : JsObj) : Where :=
  mkWhere {[ "projectId" := prop story "projectId" ]} None.

Definition durationWhere (story phase : JsObj) : Where :=
  mkWhere {[ "phaseId" := prop phase "id"; "storyId" := prop story "id" ]} None.

Section Action.
Context `{DataLayer}.
Variable storyId : Z.

(** The iterator of [fetchPhaseDuration]. *)
Definition phaseDuration (story phase : JsObj) : M DurPhase :=
  result ← PhaseDuration_sum (durationWhere story phase);
  mret (mkDurPhase phase (durationOrZero result)).

Definition fetchPhaseDuration (story : JsObj) (phases : list JsObj)
    : M (list DurPhase) :=
  async_map (phaseDuration story) phases.

(** The action.  [Ok report] is [response.view(data)]. *)
Definition tasks_action : M Report :=
  '(role, (story, (tasks, (users, types)))) ←
    async_parallel (hasStoryAccess storyId)
      (async_parallel (getStory storyId)
        (async_parallel (getTasks (tasksWhere storyId))
          (async_parallel (getUsers noWhere) (getTypes noWhere))));
  phases ← getPhases (phasesWhere story);
  phases ← fetchPhaseDuration story phases;
  mret (makeView role story tasks users types phases).

End Action.

End Tasks.

(** Modelled from the spec: the criteria semantics of DataAccess (section 6):
    an entity is selected when each named field of the criteria equals the
    entity's field of that name and, when [or] is present, one alternative
    holds in the same way. *)
Definition fields_hold (c o : JsObj) : bool :=
  forallb (fun kv => strict_eq (prop o kv.1) kv.2) (map_to_list c).

Definition field_match (wh : Where) (o : JsObj) : bool :=
  fields_hold (w_eq wh) o &&
  match w_or wh with
  | Some alts => existsb (fun c => fields_hold c o) alts
  | None => true
  end.

Definition plain_layer : DataLayer := {| matches := field_match; fault := fun _ => false |}.

Module Demo.
Definition story7 : JsObj :=
  {[ "id" := VNum 7; "title" := VStr "Checkout"; "projectId" := VNum 1;
     "sprintId" := VNum 3; "isDone" := VBool false; "timeStart" := VDate 1000 ]}.
Definition phaseA : JsObj :=
  {[ "id" := VNum 10; "projectId" := VNum 1; "order" := VNum 2; "isDone" := VNum 0 ]}.
Definition phaseB : JsObj :=
  {[ "id" := VNum 11; "projectId" := VNum 1; "order" := VNum 1; "isDone" := VNum 0 ]}.
Definition task1 : JsObj :=
  {[ "id" := VNum 1; "storyId" := VNum 7; "phaseId" := VNum 10;
     "timeStart" := VDate 5000; "isDone" := VBool false ]}.
Definition task2 : JsObj :=
  {[ "id" := VNum 2; "storyId" := VNum 7; "phaseId" := VNum 11;
     "timeStart" := VNull; "isDone" := VBool true ]}.
Definition w0 : World :=
  mkWorld {[ 7 := story7 ]} {[ 1 := task1; 2 := task2 ]} [phaseA; phaseB]
          [] [] [] {[ 7 := VStr "admin" ]} 100 9000.

(** A task started at the epoch, 1970-01-01T00:00:00.000Z. *)
Definition taskEpoch : JsObj :=
  {[ "id" := VNum 3; "storyId" := VNum 7; "phaseId" := VNum 10;
     "timeStart" := VDate 0; "isDone" := VBool false ]}.
Definition wEpoch : World :=
  mkWorld {[ 7 := story7 ]} {[ 3 := taskEpoch ]} [phaseA; phaseB]
          [] [] [] {[ 7 := VStr "admin" ]} 100 9000.

(** A ledger with a negative entry. *)
Definition wLedger : World :=
  mkWorld {[ 7 := story7 ]} {[ 1 := task1; 2 := task2 ]} [phaseA; phaseB]
          [] [] [mkRow 10 7 5; mkRow 11 7 (-5)] {[ 7 := VStr "admin" ]} 100 9000.

(** The example of the specification: durations 100, 50 and 0. *)
Definition phase0 : JsObj :=
  {[ "id" := VNum 12; "projectId" := VNum 1; "order" := VNum 0; "isDone" := VNum 0 ]}.
Definition wExample : World :=
  mkWorld {[ 7 := story7 ]} {[ 1 := task1; 2 := task2 ]} [phase0; phaseB; phaseA]
          [] [] [mkRow 12 7 60; mkRow 12 7 40; mkRow 11 7 50; mkRow 11 8 5]
          {[ 7 := VStr "admin" ]} 100 9000.

(** The report of story 7 over [wExample]. *)
Definition report : Tasks.Report :=
  Tasks.makeView (VStr "admin") story7 [] [] []
    [ Tasks.mkDurPhase phase0 100; Tasks.mkDurPhase phaseB 50;
      Tasks.mkDurPhase phaseA 0 ].
End Demo.

(** ** Vocabulary of the properties *)

(** *** Program logic *)

(** [hoare I P m Q]: started from a store satisfying the invariant [I], the
    computation [m] makes only calls satisfying [P], leaves a store
    satisfying [I], and a successful result satisfies [Q]. *)
Definition hoare {A} (I : World -> Prop) (P : Call -> Prop) (m : M A)
    (Q : A -> Prop) : Prop :=
  forall w, I w ->
    Forall P (calls (m w)) /\ I (world (m w)) /\
    forall a, res (m w) = Ok a -> Q a.

(** Updates of stories and their announcements: the only calls of the
    finalize stage. *)
Definition story_call (c : Call) : Prop :=
  match c with
  | StoryUpdate _ _ | StoryPublishUpdate _ _ => True
  | _ => False
  end.

(** Calls that fetch, save or announce a task. *)
Definition task_call (c : Call) : Prop :=
  match c with
  | GetTasks _ | GetTask _ | TaskSave _
  | TaskPublishDestroy _ | TaskPublishCreate _ => True
  | _ => False
  end.

(** [Q] holds of every task handed to [task.save()]. *)
Definition saves (Q : JsObj -> Prop) (c : Call) : Prop :=
  match c with
  | TaskSave t => Q t
  | _ => True
  end.

(** [Q] holds of every story handed to [Story.create]. *)
Definition creates (Q : JsObj -> Prop) (c : Call) : Prop :=
  match c with
  | StoryCreate v => Q v
  | _ => True
  end.

(** *** The first stage of the split *)

Section StageA.
Context `{DataLayer}.
Variables storyId sprintId projectId : Z.

(** The story returned by [Story.create]. *)
Definition createdStory (w : World) (story : JsObj) : JsObj :=
  <["id" := VNum (next_id w)]> (Split.cloneStory story sprintId storyId).

(** The store after [Story.create]. *)
Definition createdWorld (w : World) (story : JsObj) : World :=
  set_next_id (next_id w + 1)
    (set_stories <[next_id w := createdStory w story]> w).

(** The phases returned by the open-phase query. *)
Definition openPhases (w : World) : list JsObj :=
  List.filter (matches (Split.phasesWhere projectId)) (db_phases w).

(** What follows the first parallel stage when both jobs succeed. *)
Definition afterStageA (w : World) (story : JsObj) : M Split.Data :=
  let data := Split.mkData None (Some (createdStory w story)) [] 0 in
  match openPhases w with
  | phase0 :: _ => Split.changeTasks storyId data phase0 (openPhases w)
  | [] => Split.finalizeStorySplit storyId data
  end.

(** The calls of the first stage when both jobs succeed. *)
Definition stageACalls (w : World) (story : JsObj) : list Call :=
  [ GetStory storyId;
    StoryCreate (Split.cloneStory story sprintId storyId);
    StoryPublishCreate (createdStory w story);
    GetPhases (Split.phasesWhere projectId) ].

End StageA.

(** The patch of the source story in [finalizeStorySplit]. *)
Definition oldStoryPatch (w : World) : JsObj :=
  {[ "isDone" := VBool true; "timeEnd" := VDate (clock w) ]}.

(** The patch of the new story in [finalizeStorySplit]. *)
Definition newStoryPatch (tasks : list JsObj) : JsObj :=
  {[ "isDone" := VBool false; "timeStart" := Split.newStoryTimeStart tasks;
     "timeEnd" := VNull ]}.

(** *** Moved tasks *)

(** The [order] of a phase is a number. *)
Definition numeric_order (p : JsObj) : Prop := exists n, prop p "order" = VNum n.

(** [first] is one of [phases] and no phase has a smaller [order]. *)
Definition has_min_order (first : JsObj) (phases : list JsObj) : Prop :=
  first ∈ phases /\
  exists m, prop first "order" = VNum m /\
    forall p, p ∈ phases -> exists n, prop p "order" = VNum n /\ m <= n.

(** A task as [moveTasks] leaves it on a move into the backlog whose first
    phase is [first]. *)
Definition backlog_task (first task : JsObj) : Prop :=
  prop task "timeStart" = VNull /\ prop task "phaseId" = prop first "id".

(** Every stored task carries its own identity. *)
Definition tasks_wf (w : World) : Prop :=
  forall k t, db_tasks w !! k = Some t -> prop t "id" = VNum k.

(** The three assignments of [moveTasks] when the task keeps its phase and
    start time. *)
Definition moved (newId : JsVal) (t : JsObj) : JsObj :=
  assign "timeStart" (prop t "timeStart")
    (assign "phaseId" (prop t "phaseId") (assign "storyId" newId t)).

(** [o] is [t] with [storyId] set to [newId]: every other field reads as in
    [t], the phase and the start time among them. *)
Definition only_story_changed (newId : JsVal) (t o : JsObj) : Prop :=
  prop o "storyId" = newId /\
  prop o "phaseId" = prop t "phaseId" /\
  prop o "timeStart" = prop t "timeStart" /\
  forall f, f <> "storyId" -> prop o f = prop t f.

(** The object the iterator of [moveTasks] saves for the fetched task [t]
    when the task read back is [t]. *)
Definition movedTask (storyNew : option JsObj) (first t : JsObj) : JsObj :=
  let backlog := loose_eq_num (Split.field storyNew "sprintId") 0 in
  assign "timeStart" (if backlog then VNull else prop t "timeStart")
    (assign "phaseId" (if backlog then prop first "id" else prop t "phaseId")
      (assign "storyId" (Split.field storyNew "id") t)).

(** The tasks the split fetches for reassignment. *)
Definition fetchedTasks `{DataLayer} (storyId projectId : Z) (w : World) : list JsObj :=
  match openPhases projectId w with
  | [] => []
  | _ => List.filter (matches (Split.tasksWhere storyId (openPhases projectId w)))
                     (stored_tasks w)
  end.

(** A task of the store [tasks0], possibly moved to [storyNew] already. *)
Definition from_store (tasks0 : gmap Z JsObj) (storyNew : option JsObj)
    (k : Z) (o : JsObj) : Prop :=
  exists t, tasks0 !! k = Some t /\
            (o = t \/ o = moved (Split.field storyNew "id") t).

Definition moved_from_store (tasks0 : gmap Z JsObj) (storyNew : option JsObj)
    (o : JsObj) : Prop :=
  exists k t, tasks0 !! k = Some t /\ o = moved (Split.field storyNew "id") t.

Definition store_inv (tasks0 : gmap Z JsObj) (storyNew : option JsObj)
    (w : World) : Prop :=
  forall k o, db_tasks w !! k = Some o -> from_store tasks0 storyNew k o.

(** A start is either null or a date after the epoch. *)
Definition plain_start (t : JsObj) : Prop :=
  prop t "timeStart" = VNull \/ exists ms, prop t "timeStart" = VDate ms /\ 0 < ms.

(** *** The report *)

(** The ledger sum of a phase for a story. *)
Definition ledger_duration `{DataLayer} (w : World) (story phase : JsObj) : Z :=
  sum_durations (ledger_rows (Tasks.durationWhere story phase) w).

(** [rep] is what [makeView] builds from fetched data in which every phase
    carries its ledger sum. *)
Definition built_from `{DataLayer} (w : World) (rep : Tasks.Report) : Prop :=
  exists role story tasks users types phases,
    rep = Tasks.makeView role story tasks users types phases /\
    Forall (fun p => Tasks.dp_duration p = ledger_duration w story (Tasks.dp_phase p))
           phases.

(** The phases that count for [totalTimeNoFirst]. *)
Definition nonFirst (p : Tasks.PhaseView) : bool :=
  negb (strict_eq (prop (Tasks.phase p) "order") (VNum 0)).

(** The completion flag of a task, as [makeView] tests it. *)
Definition isDone (t : JsObj) : bool := truthy (prop t "isDone").

(** *** Further vocabulary *)

(** A data layer in which exactly the calls selected by [bad] fail. *)
Definition faulty_layer (bad : Call -> bool) : DataLayer :=
  {| matches := field_match; fault := bad |}.

(** The phase query of the split fails. *)
Definition phases_fail (c : Call) : bool :=
  match c with GetPhases _ => true | _ => false end.

(** Fetching task 1 fails. *)
Definition task1_fails (c : Call) : bool :=
  match c with GetTask (VNum 1) => true | _ => false end.

(** [S] holds of the calls of [m], whatever the store. *)
Definition emits {A} (S : list Call -> Prop) (m : M A) : Prop :=
  forall w, S (calls (m w)).

(** The four kinds of announcement. *)
Definition announcement (c : Call) : Prop :=
  match c with
  | StoryPublishCreate _ | StoryPublishUpdate _ _
  | TaskPublishDestroy _ | TaskPublishCreate _ => True
  | _ => False
  end.

(** A list of calls in which every announcement directly follows the write
    it announces: a saved task is announced by a destroy of its id and then
    a create of the saved object, a created story by a create, and an
    updated story by an update whose payload has the fields of the patch. *)
Inductive announced : list Call -> Prop :=
  | announced_nil : announced []
  | announced_other (c : Call) (l : list Call) :
      ~ announcement c -> announced l -> announced (c :: l)
  | announced_task (t : JsObj) (l : list Call) :
      announced l ->
      announced (TaskSave t :: TaskPublishDestroy (prop t "id")
                   :: TaskPublishCreate t :: l)
  | announced_create (v s : JsObj) (l : list Call) :
      announced l ->
      announced (StoryCreate v :: StoryPublishCreate s :: l)
  | announced_update (id id' : JsVal) (patch s : JsObj) (l : list Call) :
      patch ⊆ s -> announced l ->
      announced (StoryUpdate id patch :: StoryPublishUpdate id' s :: l).

(** The tables and the clock of a store are those of another. *)
Definition tables_kept (w w' : World) : Prop :=
  db_phases w' = db_phases w /\ db_users w' = db_users w /\
  db_types w' = db_types w /\ db_ledger w' = db_ledger w /\
  db_roles w' = db_roles w /\ clock w' = clock w.

(** [o] reads as [t] on every field but [storyId], [phaseId] and
    [timeStart]. *)
Definition same_except_move (t o : JsObj) : Prop :=
  forall f, f <> "storyId" -> f <> "phaseId" -> f <> "timeStart" ->
            prop o f = prop t f.

(** Calls that only read. *)
Definition query_call (c : Call) : Prop :=
  match c with
  | GetStory _ | GetPhases _ | GetTasks _ | GetTask _ | GetUsers _
  | GetTypes _ | HasStoryAccess _ | PhaseDurationSum _ => True
  | _ => False
  end.

(** What a split leaves of the store [w] in [w']: the tables, the clock,
    every story but the source story and the new one, and the next identity
    up to the one it may have taken. *)
Definition split_frame (storyId : Z) (w w' : World) : Prop :=
  tables_kept w w' /\
  (forall k, k <> storyId -> k <> next_id w ->
             db_stories w' !! k = db_stories w !! k) /\
  next_id w <= next_id w' <= next_id w + 1.

(** A task saved by a move: a task of the store [tasks0], under its own
    identity, changed at most in [storyId], [phaseId] and [timeStart]. *)
Definition moved_within (tasks0 : gmap Z JsObj) (o : JsObj) : Prop :=
  exists k t, tasks0 !! k = Some t /\ prop o "id" = VNum k /\ same_except_move t o.

(** The task store of [w] has the tasks of [tasks0], each changed at most
    in [storyId], [phaseId] and [timeStart]. *)
Definition task_inv (tasks0 : gmap Z JsObj) (w : World) : Prop :=
  forall k,
    match db_tasks w !! k, tasks0 !! k with
    | Some o, Some t => same_except_move t o
    | None, None => True
    | _, _ => False
    end.

(** What a report shows of the store [w0]: the role and the story of the
    given id, the tasks, users and types the criteria select, and the
    phases of the story's project, each list in the order of its query. *)
Definition fetched_for `{DataLayer} (storyId : Z) (w0 : World)
    (rep : Tasks.Report) : Prop :=
  db_roles w0 !! storyId = Some (Tasks.role rep) /\
  db_stories w0 !! storyId = Some (Tasks.story rep) /\
  Tasks.task <$> Tasks.tasks rep
    = List.filter (matches (Tasks.tasksWhere storyId)) (stored_tasks w0) /\
  Tasks.users rep = List.filter (matches Tasks.noWhere) (db_users w0) /\
  Tasks.types rep = List.filter (matches Tasks.noWhere) (db_types w0) /\
  Tasks.phase <$> Tasks.phases rep
    = List.filter (matches (Tasks.phasesWhere (Tasks.story rep))) (db_phases w0).

(** [first] is the earliest phase of [phases] of minimum [order]: no phase
    has a smaller order and every phase before it has a greater one. *)
Definition earliest_min_order (first : JsObj) (phases : list JsObj) : Prop :=
  exists (i : nat) (m : Z),
    phases !! i = Some first /\ prop first "order" = VNum m /\
    (forall j p n, phases !! j = Some p -> prop p "order" = VNum n -> m <= n) /\
    (forall j p n, (j < i)%nat -> phases !! j = Some p ->
                   prop p "order" = VNum n -> m < n).

(** [Story.create] fails. *)
Definition create_fails (c : Call) : bool :=
  match c with StoryCreate _ => true | _ => false end.

(** The five fetches of the first stage of the [tasks] action. *)
Definition reportFetches (storyId : Z) : list Call :=
  [ HasStoryAccess storyId; GetStory storyId; GetTasks (Tasks.tasksWhere storyId);
    GetUsers Tasks.noWhere; GetTypes Tasks.noWhere ].

(** The phases of a story's project with their ledger sums. *)
Definition ledgerPhases `{DataLayer} (w : World) (story : JsObj) : list Tasks.DurPhase :=
  (fun phase => Tasks.mkDurPhase phase (ledger_duration w story phase))
    <$> List.filter (matches (Tasks.phasesWhere story)) (db_phases w).

(** [found] is what [_.find] gives for the test [f] over [l]: the first
    element passing the test, or nothing when no element passes. *)
Definition found_in {A} (f : A -> bool) (l : list A) (found : option A) : Prop :=
  match found with
  | Some x => exists i, l !! i = Some x /\ f x = true /\
                        forall j y, (j < i)%nat -> l !! j = Some y -> f y = false
  | None => forall y, y ∈ l -> f y = false
  end.

(** A store whose tasks have their story in the field [storyid]. *)
Definition taskLower : JsObj :=
  {[ "id" := VNum 5; "storyid" := VNum 7; "phaseId" := VNum 11;
     "typeId" := VNum 1; "userId" := VNum 9; "isDone" := VBool true ]}.

Definition wLower : World :=
  mkWorld {[ 7 := Demo.story7 ]} {[ 5 := taskLower ]} [Demo.phaseA; Demo.phaseB]
          [ {[ "id" := VNum 9; "username" := VStr "ann" ]} ]
          [ {[ "id" := VNum 1; "title" := VStr "bug" ]} ]
          [mkRow 11 7 30] {[ 7 := VStr "admin" ]} 100 9000.

(** Run from [w], [m] leaves the store as it is and makes exactly the calls
    [l]; it answers with a value satisfying [P] or with the failure of one
    of its calls. *)
Definition reads {A} (l : list Call) (m : M A) (w : World) (P : A -> Prop) : Prop :=
  world (m w) = w /\ calls (m w) = l /\
  match res (m w) with
  | Ok a => P a
  | Err (IoError c) => c ∈ l
  | Err TypeError => False
  end.

(** *** Totals and progress *)

(** The absolute values of the durations add up to at most 2^53: every
    duration and every partial sum is then an integer that a double holds
    exactly, and the additions of the code are exact. *)
Definition safe_durations (l : list Z) : Prop := Zsum (Z.abs <$> l) <= 2 ^ 53.

(** The exact percentage [done / total * 100] rounded to the nearest
    integer, halves going up. *)
Definition exactProgress (done total : Z) : Z := (200 * done + total) / (2 * total).

(** The exact percentage is a half: [2 * total] divides [200 * done + total]. *)
Definition exactHalf (done total : Z) : bool :=
  (200 * done + total) mod (2 * total) =? 0.

(** The integers from 1 to [n]. *)
Definition upto (n : nat) : list Z := (fun i => Z.of_nat (Datatypes.S i)) <$> seq 0 n.

(** What is checked of the progress of [done] tasks out of [total]: it is
    an integer [n] from 1 to 100, equal to the rounded exact percentage or,
    where the exact percentage is a half, one below it; it is 100 when all
    tasks are done, and where it is 100 at least 199 of 200 tasks are. *)
Definition progress_ok (done total : Z) : bool :=
  match Tasks.computeProgress done total with
  | Finite (Qmake n 1) =>
      (1 <=? n) && (n <=? 100) &&
      ((n =? exactProgress done total) ||
       ((n + 1 =? exactProgress done total) && exactHalf done total)) &&
      implb (done =? total) (n =? 100) &&
      implb (n =? 100) (199 * total <=? 200 * done)
  | _ => false
  end.

(** [progress_ok] for every [1 <= done <= total <= n]. *)
Definition progress_table (n : nat) : bool :=
  forallb (fun total => forallb (fun done => progress_ok done total)
                                (upto (Z.to_nat total)))
          (upto n).

(** Task lists for the progress: 1 of 3 done, and 23 of 40. *)
Definition doneTask : JsObj := {[ "id" := VNum 1; "isDone" := VBool true ]}.

Definition openTask : JsObj := {[ "id" := VNum 2; "isDone" := VBool false ]}.

Definition tasks1of3 : list JsObj := [doneTask; openTask; openTask].

Definition tasks23of40 : list JsObj := replicate 23 doneTask ++ replicate 17 openTask.

(** The report of story 7 over [wLower]: one task, done. *)
Definition reportLower : Tasks.Report :=
  Tasks.makeView (VStr "admin") Demo.story7 [taskLower] (db_users wLower)
    (db_types wLower)
    [Tasks.mkDurPhase Demo.phaseA 0; Tasks.mkDurPhase Demo.phaseB 30].

(** * Properties *)

(** ** Values and numbers *)

Example round_half_up : js_round (Finite (5 # 2)) = of_Z 3.
Proof. reflexivity. Qed.

Example to_number_examples :
  ToNumber (VStr " 42 ") = Some 42 /\ ToNumber (VStr "-7") = Some (-7) /\
  ToNumber (VStr "") = Some 0 /\ ToNumber (VStr "4x") = None /\
  ToNumber VUndef = None.
Proof. repeat split. Qed.

(** ** The rules of the program logic *)

Section Logic.
Context `{DataLayer}.
Context (I : World -> Prop) (P : Call -> Prop).

Lemma hoare_ret {A} (a : A) (Q : A -> Prop) : Q a -> hoare I P (mret a) Q.
Proof.
  intros HQ w Hw. cbn. split_and!; [constructor | done |].
  intros a' [= <-]. done.
Qed.

Lemma hoare_throw {A} (e : Error) (Q : A -> Prop) : hoare I P (throw e) Q.
Proof. intros w Hw. cbn. split_and!; [constructor | done | done]. Qed.

Lemma hoare_bind {A B} (m : M A) (f : A -> M B) (Q : A -> Prop) (R : B -> Prop) :
  hoare I P m Q -> (forall a, Q a -> hoare I P (f a) R) ->
  hoare I P (m ≫= f) R.
Proof.
  intros Hm Hf w Hw. destruct (Hm w Hw) as (Hc & Hi & Hq).
  unfold mbind, M_bind. destruct (res (m w)) as [a|e] eqn:E; cbn.
  - destruct (Hf a (Hq a eq_refl) (world (m w)) Hi) as (Hc' & Hi' & Hq').
    split_and!; [by apply Forall_app | done | done].
  - split_and!; [done | done | done].
Qed.

Lemma hoare_conseq {A} (m : M A) (Q Q' : A -> Prop) :
  hoare I P m Q -> (forall a, Q a -> Q' a) -> hoare I P m Q'.
Proof.
  intros Hm HQ w Hw. destruct (Hm w Hw) as (Hc & Hi & Hq).
  split_and!; [done | done |]. intros a Ha. apply HQ, Hq, Ha.
Qed.

Lemma hoare_parallel {A B} (j1 : M A) (j2 : M B) (Q1 : A -> Prop) (Q2 : B -> Prop) :
  hoare I P j1 Q1 -> hoare I P j2 Q2 ->
  hoare I P (async_parallel j1 j2) (fun ab => Q1 ab.1 /\ Q2 ab.2).
Proof.
  intros H1 H2 w Hw. destruct (H1 w Hw) as (Hc & Hi & Hq).
  unfold async_parallel.
  destruct (H2 (world (j1 w)) Hi) as (Hc' & Hi' & Hq').
  destruct (res (j1 w)) as [a|[c|]] eqn:E1; cbn.
  - split_and!; [by apply Forall_app | done |].
    destruct (res (j2 (world (j1 w)))) as [b|e] eqn:E2; [|done].
    intros ab [= <-]. cbn. split; [by apply Hq | by apply Hq'].
  - split_and!; [by apply Forall_app | done | done].
  - split_and!; [done | done | done].
Qed.

Lemma hoare_parallel_any {A B} (j1 : M A) (j2 : M B) :
  hoare I P j1 (fun _ => True) -> hoare I P j2 (fun _ => True) ->
  hoare I P (async_parallel j1 j2) (fun _ => True).
Proof.
  intros H1 H2. eapply hoare_conseq; [by apply hoare_parallel | done].
Qed.

Lemma hoare_map {A B} (f : A -> M B) (l : list A) (R : A -> B -> Prop) :
  (forall x, x ∈ l -> hoare I P (f x) (R x)) ->
  hoare I P (async_map f l) (Forall2 R l).
Proof.
  induction l as [|x xs IH]; intros Hf; cbn [async_map].
  - apply hoare_ret. constructor.
  - eapply hoare_bind.
    + apply hoare_parallel.
      * apply Hf. left.
      * apply IH. intros y Hy. apply Hf. by right.
    + intros [y ys] [Hy Hys]. apply hoare_ret. by constructor.
Qed.

Lemma hoare_call {A} (c : Call) (k : World -> Result A * World) (Q : A -> Prop) :
  P c ->
  (forall w, I w -> I (k w).2 /\ forall a, (k w).1 = Ok a -> Q a) ->
  hoare I P (call c k) Q.
Proof.
  intros Hc Hk w Hw. unfold call. destruct (fault c); cbn.
  - split_and!; [by apply Forall_singleton | done | done].
  - destruct (Hk w Hw) as [Hi Hq]. split_and!; [by apply Forall_singleton | done | done].
Qed.

Lemma hoare_notify (c : Call) : P c -> hoare I P (notify c) (fun _ => True).
Proof. intros Hc w Hw. cbn. split_and!; [by apply Forall_singleton | done | done]. Qed.

Lemma hoare_now (Q : JsVal -> Prop) :
  (forall w, I w -> Q (VDate (clock w))) -> hoare I P now Q.
Proof.
  intros HQ w Hw. cbn. split_and!; [constructor | done |].
  intros a [= <-]. by apply HQ.
Qed.

End Logic.

(** ** Objects *)

Lemma prop_assign_eq (o : JsObj) (k : string) (v : JsVal) : prop (assign k v o) k = v.
Proof. unfold prop, assign. by rewrite lookup_insert_eq. Qed.

Lemma prop_assign_ne (o : JsObj) (k k' : string) (v : JsVal) :
  k <> k' -> prop (assign k v o) k' = prop o k'.
Proof. intros Hne. unfold prop, assign. by rewrite lookup_insert_ne. Qed.

Lemma assign_prop_same (o : JsObj) (k k' : string) :
  prop (assign k (prop o k) o) k' = prop o k'.
Proof.
  destruct (decide (k = k')) as [<-|Hne].
  - apply prop_assign_eq.
  - by apply prop_assign_ne.
Qed.

(** ** The first phase *)

Lemma firstPhase_fold (phase0 : JsObj) (phases : list JsObj) (m0 : Z) :
  prop phase0 "order" = VNum m0 ->
  Forall numeric_order phases ->
  let first := Split.firstPhase phase0 phases in
  (first = phase0 \/ first ∈ phases) /\
  exists m, prop first "order" = VNum m /\ m <= m0 /\
    forall p, p ∈ phases -> exists n, prop p "order" = VNum n /\ m <= n.
Proof.
  intros H0 Hnum. revert phase0 m0 H0.
  induction Hnum as [|p ps [n Hn] _ IH]; intros phase0 m0 H0; cbn.
  - split; [by left|]. exists m0. split_and!; [done | lia |].
    intros p Hp. by apply elem_of_nil in Hp.
  - unfold Split.firstPhase in *. cbn [fold_left].
    rewrite Hn, H0. cbn [js_lt ToNumber].
    destruct (n <? m0) eqn:E.
    + apply Z.ltb_lt in E.
      destruct (IH p n Hn) as [Hin (m & Hm & Hle & Hall)].
      split.
      { right. destruct Hin as [->|Hin]; [left | by right]. }
      exists m. split_and!; [done | lia |].
      intros q [->|Hq]%elem_of_cons; [by exists n | by apply Hall].
    + apply Z.ltb_ge in E.
      destruct (IH phase0 m0 H0) as [Hin (m & Hm & Hle & Hall)].
      split.
      { destruct Hin as [->|Hin]; [by left | right; by right]. }
      exists m. split_and!; [done | lia |].
      intros q [->|Hq]%elem_of_cons; [exists n; split; [done | lia] | by apply Hall].
Qed.

Lemma firstPhase_min (phase0 : JsObj) (rest : list JsObj) :
  Forall numeric_order (phase0 :: rest) ->
  has_min_order (Split.firstPhase phase0 (phase0 :: rest)) (phase0 :: rest).
Proof.
  intros Hnum. pose proof Hnum as Hnum'.
  inversion Hnum' as [|? ? [m0 H0] _]; subst.
  destruct (firstPhase_fold phase0 (phase0 :: rest) m0 H0 Hnum)
    as [Hin (m & Hm & _ & Hall)].
  split.
  - destruct Hin as [->|Hin]; [left | done].
  - by exists m.
Qed.

(** ** Running the first stage of the split *)

Section SplitRun.
Context `{DataLayer}.
Variables storyId sprintId projectId : Z.

Lemma split_run (w : World) :
  Split.split storyId sprintId projectId w =
  if fault (GetStory storyId) then
    mkRun (Err (IoError (GetStory storyId))) w [GetStory storyId]
  else match db_stories w !! storyId with
  | None => mkRun (Err (IoError (GetStory storyId))) w [GetStory storyId]
  | Some story =>
      let clone := Split.cloneStory story sprintId storyId in
      if fault (StoryCreate clone) then
        mkRun (Err (IoError (StoryCreate clone))) w
              [GetStory storyId; StoryCreate clone;
               GetPhases (Split.phasesWhere projectId)]
      else if fault (GetPhases (Split.phasesWhere projectId)) then
        mkRun (Err (IoError (GetPhases (Split.phasesWhere projectId))))
              (createdWorld storyId sprintId w story)
              (stageACalls storyId sprintId projectId w story)
      else
        let r := afterStageA storyId sprintId projectId w story
                   (createdWorld storyId sprintId w story) in
        mkRun (res r) (world r)
              (stageACalls storyId sprintId projectId w story ++ calls r)
  end.
Proof.
  unfold Split.split, getStory, mbind, M_bind, call.
  destruct (fault (GetStory storyId)) eqn:F1; [done|]. cbn.
  destruct (db_stories w !! storyId) as [story|] eqn:Es; [|done]. cbn.
  unfold Split.splitStory, Split.createNewStory, Story_create, getPhases,
    async_parallel, mbind, M_bind, call, notify. cbn.
  destruct (fault (StoryCreate _)) eqn:F2; cbn.
  - by destruct (fault (GetPhases _)).
  - destruct (fault (GetPhases _)) eqn:F3; cbn; [done|].
    unfold afterStageA, openPhases, createdWorld, createdStory. cbn.
    by destruct (List.filter _ _).
Qed.

End SplitRun.

(** ** Stages of the split under the program logic *)

Section SplitStages.
Context `{DataLayer}.
Variables storyId : Z.
Context (I : World -> Prop) (P : Call -> Prop).
Hypothesis I_stories : forall f w, I w -> I (set_stories f w).
Hypothesis P_story : forall c, story_call c -> P c.

Lemma hoare_Story_update (id : JsVal) (patch : JsObj) :
  hoare I P (Story_update id patch) (fun _ => True).
Proof.
  apply hoare_call; [by apply P_story|].
  intros w Hw. destruct id; cbn; try done.
  destruct (db_stories w !! n); cbn; [|done]. split; [by apply I_stories | done].
Qed.

Lemma hoare_updateOldStory :
  hoare I P (Split.updateOldStory storyId) (fun _ => True).
Proof.
  unfold Split.updateOldStory.
  eapply hoare_bind; [by apply (hoare_now I P (fun _ => True))|]. intros date _.
  eapply hoare_bind; [apply hoare_Story_update|]. intros [|story ?] _.
  - apply hoare_throw.
  - eapply hoare_bind; [by apply hoare_notify, P_story|].
    intros _ _. by apply hoare_ret.
Qed.

Lemma hoare_updateNewStory (data : Split.Data) :
  hoare I P (Split.updateNewStory data) (fun _ => True).
Proof.
  unfold Split.updateNewStory.
  eapply hoare_bind; [apply hoare_Story_update|]. intros [|story ?] _.
  - apply hoare_throw.
  - eapply hoare_bind; [by apply hoare_notify, P_story|].
    intros _ _. by apply hoare_ret.
Qed.

(** The finalize stage touches stories only and hands the task list on. *)
Lemma hoare_finalize (data : Split.Data) :
  hoare I P (Split.finalizeStorySplit storyId data)
    (fun d => Split.tasks d = Split.tasks data /\
              Split.taskCnt d = Split.taskCnt data).
Proof.
  unfold Split.finalizeStorySplit.
  eapply hoare_bind.
  - apply hoare_parallel; [apply hoare_updateOldStory | apply hoare_updateNewStory].
  - intros [old new] _. by apply hoare_ret.
Qed.

(** The reassignment stage, from a rule for the iterator. *)
Lemma hoare_changeTasks (data : Split.Data) (phase0 : JsObj) (phases : list JsObj)
    (F : list JsObj -> Prop) (R : JsObj -> JsObj -> Prop) :
  P (GetTasks (Split.tasksWhere storyId phases)) ->
  (forall w, I w ->
     F (List.filter (matches (Split.tasksWhere storyId phases)) (stored_tasks w))) ->
  (forall fetched t, F fetched -> t ∈ fetched ->
     hoare I P (Split.moveTask (Split.storyNew data)
                  (Split.firstPhase phase0 phases) t) (R t)) ->
  hoare I P (Split.changeTasks storyId data phase0 phases)
    (fun d => exists fetched, F fetched /\ Forall2 R fetched (Split.tasks d) /\
              Split.taskCnt d = Z.of_nat (length (Split.tasks d))).
Proof.
  intros Pget HF Hmove. unfold Split.changeTasks.
  eapply (hoare_bind _ _ _ _ F).
  - apply hoare_call; [done|]. intros w Hw. cbn. split; [done|].
    intros a [= <-]. by apply HF.
  - intros fetched Hf.
    eapply hoare_bind.
    + unfold Split.moveTasks. apply hoare_map. intros t Ht. by eapply Hmove.
    + intros moved Hmoved. cbn beta.
      eapply hoare_conseq; [apply hoare_finalize|].
      cbn. intros d [-> ->]. by exists fetched.
Qed.

End SplitStages.

Lemma created_sprintId (storyId sprintId : Z) (w : World) (story : JsObj) :
  Split.field (Some (createdStory storyId sprintId w story)) "sprintId" = VNum sprintId.
Proof.
  unfold Split.field, createdStory, Split.cloneStory, prop, assign. cbn.
  by rewrite lookup_insert_ne, lookup_insert_ne, lookup_insert_eq.
Qed.

Lemma created_id (storyId sprintId : Z) (w : World) (story : JsObj) :
  Split.field (Some (createdStory storyId sprintId w story)) "id" = VNum (next_id w).
Proof. unfold Split.field, createdStory, prop. cbn. by rewrite lookup_insert_eq. Qed.

(** ** Moves into the backlog *)

Section Backlog.
Context `{DataLayer}.

Lemma hoare_moveTask_backlog (storyNew : option JsObj) (first task : JsObj) :
  loose_eq_num (Split.field storyNew "sprintId") 0 = true ->
  hoare (fun _ => True) (saves (backlog_task first))
    (Split.moveTask storyNew first task) (backlog_task first).
Proof.
  intros Hb. unfold Split.moveTask. rewrite Hb.
  eapply hoare_bind.
  { apply (hoare_call _ _ _ _ (fun _ => True)); [done | done]. }
  intros fetched _.
  assert (backlog_task first
            (assign "timeStart" VNull
               (assign "phaseId" (prop first "id")
                  (assign "storyId" (Split.field storyNew "id") fetched)))) as Hq.
  { split; [apply prop_assign_eq|].
    rewrite prop_assign_ne by done. apply prop_assign_eq. }
  eapply hoare_bind.
  { apply (hoare_call _ _ _ _ (fun _ => True)); [done | done]. }
  intros _ _.
  eapply hoare_bind; [by apply hoare_notify|]. intros _ _.
  eapply hoare_bind; [by apply hoare_notify|]. intros _ _.
  by apply hoare_ret.
Qed.

End Backlog.

Lemma story_call_saves (Q : JsObj -> Prop) (c : Call) : story_call c -> saves Q c.
Proof. by destruct c. Qed.

Lemma hoare_afterStageA_backlog `{DataLayer} (storyId projectId : Z) (w : World)
    (story : JsObj) :
  let open := openPhases projectId w in
  let Q := fun task => exists first, has_min_order first open /\ backlog_task first task in
  Forall numeric_order open ->
  hoare (fun _ => True) (saves Q) (afterStageA storyId 0 projectId w story)
    (fun d => Forall Q (Split.tasks d)).
Proof.
  intros open Q Hnum. unfold afterStageA. fold open.
  destruct open as [|phase0 rest] eqn:Eo.
  - eapply hoare_conseq.
    + apply hoare_finalize; [done | apply story_call_saves].
    + cbn. intros d [-> _]. constructor.
  - pose proof (firstPhase_min phase0 rest Hnum) as Hmin.
    set (first := Split.firstPhase phase0 (phase0 :: rest)) in *.
    assert (forall t, backlog_task first t -> Q t) as HQ by (intros t Ht; by exists first).
    eapply hoare_conseq.
    + apply (hoare_changeTasks storyId (fun _ => True) (saves Q)
               (fun _ _ _ => Logic.I) (story_call_saves Q)
               _ phase0 (phase0 :: rest) (fun _ => True) (fun _ t => Q t));
        [done | done |].
      intros fetched t _ _. cbn [Split.storyNew]. fold first.
      intros w' Hw'.
      assert (loose_eq_num
                (Split.field (Some (createdStory storyId 0 w story)) "sprintId") 0 = true)
        as Hb by (by rewrite created_sprintId).
      destruct (hoare_moveTask_backlog _ first t Hb w' Hw') as (Hc & _ & Hr).
      split_and!; [|done|].
      * eapply Forall_impl; [apply Hc|]. intros [] Hs; try done. by apply HQ.
      * intros a Ha. by apply HQ, Hr.
    + cbn. intros d (fetched & _ & HF & _).
      clear -HF. induction HF; by constructor.
Qed.

(** C1. Splitting into the project backlog ([sprintId = 0]): every task
    handed to [task.save()], and every task of the answer, has [timeStart]
    null and as [phaseId] the id of a fetched open phase of minimum [order],
    whatever its phase and start time were. *)
Theorem C1_backlog_move `{DataLayer} (storyId projectId : Z) (w : World) :
  let r := Split.split storyId 0 projectId w in
  let open := openPhases projectId w in
  Forall numeric_order open ->
  (forall task, TaskSave task ∈ calls r ->
     exists first, has_min_order first open /\ backlog_task first task) /\
  (forall data task, res r = Ok data -> task ∈ Split.tasks data ->
     exists first, has_min_order first open /\ backlog_task first task).
Proof.
  intros r open Hnum.
  set (Q := fun task => exists first, has_min_order first open /\ backlog_task first task).
  assert (Forall (saves Q) (calls r) /\
          forall data, res r = Ok data -> Forall Q (Split.tasks data)) as [Hc Hr].
  { subst r. rewrite split_run.
    destruct (fault (GetStory storyId)); [split; [by repeat constructor | done]|].
    destruct (db_stories w !! storyId) as [story|];
      [|split; [by repeat constructor | done]].
    cbn zeta.
    destruct (fault (StoryCreate _)); [split; [by repeat constructor | done]|].
    destruct (fault (GetPhases _)); [split; [by repeat constructor | done]|].
    cbn [res calls].
    destruct (hoare_afterStageA_backlog storyId projectId w story Hnum
                (createdWorld storyId 0 w story) Logic.I) as (Hc & _ & Hr).
    split; [|done].
    apply Forall_app. split; [by repeat constructor | done]. }
  split.
  - intros task Ht. rewrite Forall_forall in Hc. apply (Hc _ Ht).
  - intros data task Hd Ht. specialize (Hr data Hd).
    rewrite Forall_forall in Hr. by apply Hr.
Qed.

Lemma demo_open_phases : @openPhases plain_layer 1 Demo.w0 = [Demo.phaseA; Demo.phaseB].
Proof. vm_compute. reflexivity. Qed.

Lemma demo_numeric_orders : Forall numeric_order (@openPhases plain_layer 1 Demo.w0).
Proof.
  rewrite demo_open_phases.
  repeat constructor; [by exists 2 | by exists 1].
Qed.

Lemma C1_backlog_move_witness :
  exists task,
    TaskSave task ∈ calls (@Split.split plain_layer 7 0 1 Demo.w0) /\
    prop task "id" = VNum 1 /\
    exists first,
      has_min_order first (@openPhases plain_layer 1 Demo.w0) /\
      backlog_task first task.
Proof.
  destruct (@C1_backlog_move plain_layer 7 1 Demo.w0 demo_numeric_orders) as [Hc _].
  exists (assign "timeStart" VNull
            (assign "phaseId" (VNum 11) (assign "storyId" (VNum 100) Demo.task1))).
  assert (TaskSave
            (assign "timeStart" VNull
               (assign "phaseId" (VNum 11) (assign "storyId" (VNum 100) Demo.task1)))
          ∈ calls (@Split.split plain_layer 7 0 1 Demo.w0)) as Hin.
  { apply (list_elem_of_lookup_2 _ 10). vm_compute. reflexivity. }
  split; [exact Hin|]. split; [vm_compute; reflexivity|].
  exact (Hc _ Hin).
Defined.

(** ** Moves into a sprint *)

Lemma moved_prop (newId : JsVal) (t : JsObj) (f : string) :
  f <> "storyId" -> prop (moved newId t) f = prop t f.
Proof.
  intros Hf. unfold moved.
  destruct (decide ("timeStart" = f)) as [<-|Ht]; [apply prop_assign_eq|].
  rewrite prop_assign_ne by done.
  destruct (decide ("phaseId" = f)) as [<-|Hp]; [apply prop_assign_eq|].
  rewrite prop_assign_ne by done. by rewrite prop_assign_ne.
Qed.

Lemma moved_only_story_changed (newId : JsVal) (t : JsObj) :
  only_story_changed newId t (moved newId t).
Proof.
  split_and!.
  - unfold moved. rewrite !prop_assign_ne by done. apply prop_assign_eq.
  - by apply moved_prop.
  - by apply moved_prop.
  - intros f Hf. by apply moved_prop.
Qed.

(** Moving a task twice is moving it once. *)
Lemma moved_again (newId : JsVal) (t o : JsObj) :
  o = t \/ o = moved newId t ->
  assign "timeStart" (prop t "timeStart")
    (assign "phaseId" (prop t "phaseId") (assign "storyId" newId o)) = moved newId t.
Proof.
  intros [->| ->]; [done|].
  unfold moved, assign. apply map_eq. intros i.
  rewrite !lookup_insert. by repeat case_decide.
Qed.

Section Sprint.
Context `{DataLayer}.
Variables (tasks0 : gmap Z JsObj) (storyNew : option JsObj).
Hypothesis wf0 : forall k t, tasks0 !! k = Some t -> prop t "id" = VNum k.
Hypothesis sprint : loose_eq_num (Split.field storyNew "sprintId") 0 = false.

Let newId : JsVal := Split.field storyNew "id".

Lemma hoare_moveTask_sprint (first task : JsObj) (k : Z) :
  from_store tasks0 storyNew k task ->
  hoare (store_inv tasks0 storyNew) (saves (moved_from_store tasks0 storyNew))
    (Split.moveTask storyNew first task) (moved_from_store tasks0 storyNew).
Proof.
  intros (t & Ht & Hrel). unfold Split.moveTask. rewrite sprint.
  assert (forall f, f <> "storyId" -> prop task f = prop t f) as Hsame.
  { intros f Hf. destruct Hrel as [->| ->]; [done | by apply moved_prop]. }
  rewrite !Hsame by done. rewrite (wf0 k t Ht).
  eapply (hoare_bind _ _ _ _ (from_store tasks0 storyNew k)).
  { apply hoare_call; [done|]. intros w Hw. cbn. split; [done|].
    destruct (db_tasks w !! k) as [o|] eqn:Eo; [|done].
    intros a [= <-]. by apply Hw. }
  intros o (t' & Ht' & Hrel'). assert (t' = t) as -> by congruence.
  fold newId. rewrite (moved_again newId t o Hrel').
  assert (moved_from_store tasks0 storyNew (moved newId t)) as Hm by (by exists k, t).
  eapply hoare_bind.
  { apply (hoare_call _ _ _ _ (fun _ => True)); [done|].
    intros w Hw. rewrite moved_prop by done. rewrite (wf0 k t Ht). cbn.
    split; [|done]. intros k' o'. cbn.
    destruct (decide (k = k')) as [<-|Hne].
    - rewrite lookup_insert_eq. intros [= <-]. exists t. split; [done | by right].
    - rewrite lookup_insert_ne by done. apply Hw. }
  intros _ _.
  eapply hoare_bind; [by apply hoare_notify|]. intros _ _.
  eapply hoare_bind; [by apply hoare_notify|]. intros _ _.
  by apply hoare_ret.
Qed.

End Sprint.

Lemma stored_tasks_elem (w : World) (t : JsObj) :
  t ∈ stored_tasks w -> exists k, db_tasks w !! k = Some t.
Proof.
  unfold stored_tasks. intros ([k t'] & -> & Hkt)%list_elem_of_fmap.
  exists k. by apply elem_of_map_to_list.
Qed.

Lemma filter_elem {A} (f : A -> bool) (l : list A) (x : A) :
  x ∈ List.filter f l -> x ∈ l.
Proof. rewrite !list_elem_of_In. intros Hx. by apply filter_In in Hx as [? _]. Qed.

Lemma hoare_afterStageA_sprint `{DataLayer} (storyId sprintId projectId : Z)
    (w : World) (story : JsObj) :
  let storyNew := Some (createdStory storyId sprintId w story) in
  sprintId <> 0 -> tasks_wf w ->
  hoare (store_inv (db_tasks w) storyNew)
    (saves (moved_from_store (db_tasks w) storyNew))
    (afterStageA storyId sprintId projectId w story)
    (fun d => Forall (moved_from_store (db_tasks w) storyNew) (Split.tasks d)).
Proof.
  intros storyNew Hs Hwf. unfold afterStageA. fold storyNew.
  assert (loose_eq_num (Split.field storyNew "sprintId") 0 = false) as Hb.
  { unfold storyNew. rewrite created_sprintId. cbn. by apply Z.eqb_neq. }
  destruct (openPhases projectId w) as [|phase0 rest].
  - eapply hoare_conseq.
    + apply hoare_finalize; [by intros f w' Hw' | apply story_call_saves].
    + cbn. intros d [-> _]. constructor.
  - eapply hoare_conseq.
    + apply (hoare_changeTasks storyId _ _
               (fun f w' (Hw' : store_inv (db_tasks w) storyNew w') => Hw')
               (story_call_saves _)
               _ phase0 (phase0 :: rest)
               (Forall (fun t => exists k, from_store (db_tasks w) storyNew k t))
               (fun _ o => moved_from_store (db_tasks w) storyNew o)); [done | |].
      * intros w' Hw'. apply Forall_forall. intros t Ht%filter_elem.
        apply stored_tasks_elem in Ht as [k Hk]. exists k. by apply Hw'.
      * intros fetched t Hf Ht. cbn [Split.storyNew].
        rewrite Forall_forall in Hf. destruct (Hf t Ht) as [k Hk].
        by apply (hoare_moveTask_sprint (db_tasks w) storyNew Hwf Hb _ t k).
    + cbn. intros d (fetched & _ & HF & _).
      clear -HF. induction HF; by constructor.
Qed.

(** C2. Splitting into a sprint ([sprintId <> 0]): every task handed to
    [task.save()], and every task of the answer, is a stored task with
    [storyId] set to the identity of the new story; its [phaseId], its
    [timeStart] and every other field read as before.  The task store
    afterwards holds each task as it was or changed in that way only. *)
Theorem C2_sprint_move `{DataLayer} (storyId sprintId projectId : Z) (w : World) :
  sprintId <> 0 -> tasks_wf w ->
  let r := Split.split storyId sprintId projectId w in
  let newId := VNum (next_id w) in
  (forall o, TaskSave o ∈ calls r ->
     exists k t, db_tasks w !! k = Some t /\ prop o "id" = VNum k /\
                 only_story_changed newId t o) /\
  (forall data o, res r = Ok data -> o ∈ Split.tasks data ->
     exists k t, db_tasks w !! k = Some t /\ prop o "id" = VNum k /\
                 only_story_changed newId t o) /\
  (forall k o, db_tasks (world r) !! k = Some o ->
     exists t, db_tasks w !! k = Some t /\
               (o = t \/ only_story_changed newId t o)).
Proof.
  intros Hs Hwf r newId.
  set (Q := fun o => exists k t, db_tasks w !! k = Some t /\ prop o "id" = VNum k /\
                                 only_story_changed newId t o).
  set (S := fun w' : World => forall k o, db_tasks w' !! k = Some o ->
              exists t, db_tasks w !! k = Some t /\
                        (o = t \/ only_story_changed newId t o)).
  assert (S w) as Sw by (intros k o Ho; exists o; split; [done | by left]).
  assert (Forall (saves Q) (calls r) /\
          (forall data, res r = Ok data -> Forall Q (Split.tasks data)) /\
          S (world r)) as (Hc & Hr & Hw).
  { subst r. rewrite split_run.
    destruct (fault (GetStory storyId)); [split_and!; [by repeat constructor | done | done]|].
    destruct (db_stories w !! storyId) as [story|];
      [|split_and!; [by repeat constructor | done | done]].
    cbn zeta.
    destruct (fault (StoryCreate _)); [split_and!; [by repeat constructor | done | done]|].
    destruct (fault (GetPhases _)); [split_and!; [by repeat constructor | done | done]|].
    cbn [res calls world].
    set (storyNew := Some (createdStory storyId sprintId w story)).
    assert (forall o, moved_from_store (db_tasks w) storyNew o -> Q o) as HQ.
    { intros o (k & t & Ht & ->). unfold storyNew. rewrite created_id. fold newId.
      exists k, t. split_and!; [done | | apply moved_only_story_changed].
      rewrite moved_prop by done. by apply Hwf. }
    destruct (hoare_afterStageA_sprint storyId sprintId projectId w story Hs Hwf
                (createdWorld storyId sprintId w story))
      as (Hc & Hi & Hr).
    { intros k o Ho. exists o. split; [exact Ho | by left]. }
    fold storyNew in Hc, Hi, Hr. split_and!.
    - apply Forall_app. split; [by repeat constructor|].
      eapply Forall_impl; [apply Hc|]. intros [] Hsv; try done. by apply HQ.
    - intros data Hd. eapply Forall_impl; [by apply Hr|]. apply HQ.
    - intros k o Ho. destruct (Hi k o Ho) as (t & Ht & [->| ->]).
      + exists t. split; [done | by left].
      + exists t. split; [done|]. right. unfold storyNew. rewrite created_id.
        apply moved_only_story_changed. }
  split_and!.
  - intros o Ho. rewrite Forall_forall in Hc. apply (Hc _ Ho).
  - intros data o Hd Ho. specialize (Hr data Hd).
    rewrite Forall_forall in Hr. by apply Hr.
  - exact Hw.
Qed.

Lemma demo_tasks_wf : tasks_wf Demo.w0.
Proof.
  intros k t. unfold Demo.w0. cbn.
  intros [[<- <-]|[_ [<- <-]%lookup_singleton_Some]]%lookup_insert_Some;
    vm_compute; reflexivity.
Qed.

Lemma C2_sprint_move_witness :
  exists o,
    TaskSave o ∈ calls (@Split.split plain_layer 7 4 1 Demo.w0) /\
    exists k t, db_tasks Demo.w0 !! k = Some t /\ prop o "id" = VNum k /\
                only_story_changed (VNum 100) t o.
Proof.
  assert (4 <> 0) as Hs by lia.
  destruct (@C2_sprint_move plain_layer 7 4 1 Demo.w0 Hs demo_tasks_wf) as [Hc _].
  exists (assign "storyId" (VNum 100) Demo.task1).
  assert (TaskSave (assign "storyId" (VNum 100) Demo.task1)
          ∈ calls (@Split.split plain_layer 7 4 1 Demo.w0)) as Hin.
  { apply (list_elem_of_lookup_2 _ 10). vm_compute. reflexivity. }
  split; [exact Hin | exact (Hc _ Hin)].
Defined.

(** ** The clone and the stages after it *)

Section AnyCalls.
Context `{DataLayer}.
Context (P : Call -> Prop).
Hypothesis P_task : forall c, task_call c -> P c.
Hypothesis P_story : forall c, story_call c -> P c.

Lemma hoare_moveTask_any (storyNew : option JsObj) (first task : JsObj) :
  hoare (fun _ => True) P (Split.moveTask storyNew first task) (fun _ => True).
Proof.
  unfold Split.moveTask.
  eapply hoare_bind.
  { apply (hoare_call _ _ _ _ (fun _ => True)); [by apply P_task | done]. }
  intros fetched _.
  eapply hoare_bind.
  { apply (hoare_call _ _ _ _ (fun _ => True)); [by apply P_task | done]. }
  intros _ _.
  eapply hoare_bind; [by apply hoare_notify, P_task|]. intros _ _.
  eapply hoare_bind; [by apply hoare_notify, P_task|]. intros _ _.
  by apply hoare_ret.
Qed.

Lemma hoare_afterStageA_any (storyId sprintId projectId : Z) (w : World)
    (story : JsObj) :
  hoare (fun _ => True) P (afterStageA storyId sprintId projectId w story)
    (fun _ => True).
Proof.
  unfold afterStageA. destruct (openPhases projectId w) as [|phase0 rest].
  - eapply hoare_conseq; [by apply hoare_finalize | done].
  - eapply hoare_conseq.
    + apply (hoare_changeTasks storyId _ _ (fun _ _ _ => Logic.I) P_story
               _ phase0 (phase0 :: rest) (fun _ => True) (fun _ _ => True));
        [by apply P_task | done |].
      intros fetched t _ _. apply hoare_moveTask_any.
    + done.
Qed.

End AnyCalls.

Lemma task_call_creates (Q : JsObj -> Prop) (c : Call) : task_call c -> creates Q c.
Proof. by destruct c. Qed.

Lemma story_call_creates (Q : JsObj -> Prop) (c : Call) : story_call c -> creates Q c.
Proof. by destruct c. Qed.

Lemma cloneStory_lookup (story : JsObj) (sprintId storyId : Z) (k : string) :
  Split.cloneStory story sprintId storyId !! k =
    if decide (k = "parentId") then Some (VNum storyId)
    else if decide (k = "sprintId") then Some (VNum sprintId)
    else if decide (k ∈ ["timeEnd"; "timeStart"; "updatedAt"; "createdAt"; "id"])
         then None
    else story !! k.
Proof.
  unfold Split.cloneStory, assign.
  destruct (decide (k = "parentId")) as [->|Hp]; [by rewrite lookup_insert_eq|].
  rewrite lookup_insert_ne by done.
  destruct (decide (k = "sprintId")) as [->|Hs]; [by rewrite lookup_insert_eq|].
  rewrite lookup_insert_ne by done.
  destruct (decide (k ∈ _)) as [Hk|Hk].
  - rewrite !elem_of_cons in Hk.
    destruct Hk as [->|[->|[->|[->|[->|Hk]]]]]; [..|by apply elem_of_nil in Hk];
      rewrite !lookup_delete; repeat (destruct (decide _); try done).
  - rewrite !not_elem_of_cons in Hk. destruct Hk as (?&?&?&?&?&_).
    by rewrite !lookup_delete_ne.
Qed.

(** C7. The story handed to [Story.create] by a split is the fetched source
    story without [id], [createdAt], [updatedAt], [timeStart] and [timeEnd],
    with [sprintId] the destination sprint and [parentId] the source story
    id; every other field is the source story's. *)
Theorem C7_clone `{DataLayer} (storyId sprintId projectId : Z) (w : World)
    (story : JsObj) :
  db_stories w !! storyId = Some story ->
  fault (GetStory storyId) = false ->
  let r := Split.split storyId sprintId projectId w in
  let clone := Split.cloneStory story sprintId storyId in
  (forall v, StoryCreate v ∈ calls r <-> v = clone) /\
  clone !! "id" = None /\ clone !! "createdAt" = None /\
  clone !! "updatedAt" = None /\ clone !! "timeStart" = None /\
  clone !! "timeEnd" = None /\
  clone !! "sprintId" = Some (VNum sprintId) /\
  clone !! "parentId" = Some (VNum storyId) /\
  forall k, k ∉ ["id"; "createdAt"; "updatedAt"; "timeStart"; "timeEnd";
                 "sprintId"; "parentId"] ->
            clone !! k = story !! k.
Proof.
  intros Hs Hf r clone. split.
  - assert (Forall (creates (fun v => v = clone)) (calls r) /\
            calls r !! 1%nat = Some (StoryCreate clone)) as [Hc H1].
    { subst r. rewrite split_run, Hf, Hs. cbn zeta. fold clone.
      destruct (fault (StoryCreate clone)); [split; [by repeat constructor | done]|].
      destruct (fault (GetPhases _)); [split; [by repeat constructor | done]|].
      cbn [calls]. split; [|done].
      apply Forall_app. split; [by repeat constructor|].
      apply (hoare_afterStageA_any (creates (fun v => v = clone))
               (task_call_creates _) (story_call_creates _)
               storyId sprintId projectId w story
               (createdWorld storyId sprintId w story) Logic.I). }
    intros v. split.
    + intros Hv. rewrite Forall_forall in Hc. apply (Hc _ Hv).
    + intros ->. by eapply list_elem_of_lookup_2.
  - subst clone. rewrite !cloneStory_lookup.
    split_and!; try reflexivity.
    intros k Hk. rewrite cloneStory_lookup.
    rewrite !not_elem_of_cons in Hk. destruct Hk as (?&?&?&?&?&?&?&_).
    destruct (decide (k = "parentId")); [done|].
    destruct (decide (k = "sprintId")); [done|].
    destruct (decide (k ∈ _)) as [Hin|]; [|done].
    rewrite !elem_of_cons in Hin.
    destruct Hin as [->|[->|[->|[->|[->|Hin]]]]]; [done..|by apply elem_of_nil in Hin].
Qed.

Lemma demo_story : db_stories Demo.w0 !! 7 = Some Demo.story7.
Proof. vm_compute. reflexivity. Qed.

Lemma C7_clone_witness :
  let clone := Split.cloneStory Demo.story7 4 7 in
  (forall v, StoryCreate v ∈ calls (@Split.split plain_layer 7 4 1 Demo.w0) <-> v = clone) /\
  clone !! "id" = None /\ clone !! "title" = Some (VStr "Checkout") /\
  clone !! "sprintId" = Some (VNum 4) /\ clone !! "parentId" = Some (VNum 7).
Proof.
  destruct (@C7_clone plain_layer 7 4 1 Demo.w0 Demo.story7 demo_story eq_refl)
    as (Hc & Hid & _ & _ & _ & _ & Hsp & Hpa & Hrest).
  split_and!; [exact Hc | exact Hid | | exact Hsp | exact Hpa].
  vm_compute. reflexivity.
Defined.

(** ** The finalize stage, step by step *)

Section FinalizeRun.
Context `{DataLayer}.

Lemma Story_update_run (id : JsVal) (patch : JsObj) (w : World) :
  Story_update id patch w =
  if fault (StoryUpdate id patch) then
    mkRun (Err (IoError (StoryUpdate id patch))) w [StoryUpdate id patch]
  else match id with
  | VNum k =>
      match db_stories w !! k with
      | Some s => mkRun (Ok [patch ∪ s]) (set_stories <[k := patch ∪ s]> w)
                        [StoryUpdate id patch]
      | None => mkRun (Ok []) w [StoryUpdate id patch]
      end
  | _ => mkRun (Ok []) w [StoryUpdate id patch]
  end.
Proof.
  unfold Story_update, call. destruct (fault _); [done|].
  destruct id; try done. by destruct (db_stories w !! n).
Qed.

Lemma updateOldStory_run (storyId : Z) (w : World) :
  Split.updateOldStory storyId w =
  let c := StoryUpdate (VNum storyId) (oldStoryPatch w) in
  if fault c then mkRun (Err (IoError c)) w [c]
  else match db_stories w !! storyId with
  | Some s =>
      let s' := oldStoryPatch w ∪ s in
      mkRun (Ok s') (set_stories <[storyId := s']> w)
            [c; StoryPublishUpdate (VNum storyId) s']
  | None => mkRun (Err TypeError) w [c]
  end.
Proof.
  unfold Split.updateOldStory, now, mbind, M_bind. cbn [res world calls].
  rewrite Story_update_run. fold (oldStoryPatch w). cbn zeta.
  destruct (fault _); [done|].
  by destruct (db_stories w !! storyId).
Qed.

(** The second job of the finalize stage leaves every story but the new
    one as it is. *)
Lemma updateNewStory_other (data : Split.Data) (w : World) (k : Z) :
  Split.field (Split.storyNew data) "id" <> VNum k ->
  db_stories (world (Split.updateNewStory data w)) !! k = db_stories w !! k.
Proof.
  intros Hne. unfold Split.updateNewStory, mbind, M_bind.
  rewrite Story_update_run.
  destruct (fault _); [done|].
  destruct (Split.field (Split.storyNew data) "id") as [| | |n| |] eqn:Eid; try done.
  destruct (db_stories w !! n) eqn:En; [|done].
  cbn. rewrite lookup_insert_ne; [done|]. congruence.
Qed.

Lemma finalize_first_call (storyId : Z) (data : Split.Data) (w : World) :
  calls (Split.finalizeStorySplit storyId data w) !! 0%nat =
    Some (StoryUpdate (VNum storyId) (oldStoryPatch w)).
Proof.
  unfold Split.finalizeStorySplit, mbind, M_bind, async_parallel.
  rewrite updateOldStory_run. cbn zeta.
  destruct (fault _); cbn.
  - by destruct (res (Split.updateNewStory data w)).
  - destruct (db_stories w !! storyId); cbn; [|done].
    by destruct (res (Split.updateNewStory data _)).
Qed.

Lemma finalize_old_story (storyId : Z) (data : Split.Data) (w : World) (s : JsObj) :
  fault (StoryUpdate (VNum storyId) (oldStoryPatch w)) = false ->
  db_stories w !! storyId = Some s ->
  Split.field (Split.storyNew data) "id" <> VNum storyId ->
  db_stories (world (Split.finalizeStorySplit storyId data w)) !! storyId =
    Some (oldStoryPatch w ∪ s) /\
  forall d, res (Split.finalizeStorySplit storyId data w) = Ok d ->
            Split.storyOld d = Some (oldStoryPatch w ∪ s).
Proof.
  intros Hf Hs Hne.
  unfold Split.finalizeStorySplit, mbind, M_bind, async_parallel.
  rewrite updateOldStory_run. cbn zeta. rewrite Hf, Hs. cbn [res world calls].
  set (w' := set_stories _ w).
  pose proof (updateNewStory_other data w' storyId Hne) as Hw.
  destruct (res (Split.updateNewStory data w')) as [new|e]; cbn.
  - split; [|by intros d [= <-]].
    rewrite Hw. subst w'. cbn. by rewrite lookup_insert_eq.
  - split; [|done]. rewrite Hw. subst w'. cbn. by rewrite lookup_insert_eq.
Qed.

Lemma updateNewStory_run (data : Split.Data) (w : World) :
  Split.updateNewStory data w =
  let id := Split.field (Split.storyNew data) "id" in
  let c := StoryUpdate id (newStoryPatch (Split.tasks data)) in
  if fault c then mkRun (Err (IoError c)) w [c]
  else match id with
  | VNum k =>
      match db_stories w !! k with
      | Some s =>
          let s' := newStoryPatch (Split.tasks data) ∪ s in
          mkRun (Ok s') (set_stories <[k := s']> w)
                [c; StoryPublishUpdate (prop s' "id") s']
      | None => mkRun (Err TypeError) w [c]
      end
  | _ => mkRun (Err TypeError) w [c]
  end.
Proof.
  unfold Split.updateNewStory, mbind, M_bind.
  rewrite Story_update_run. fold (newStoryPatch (Split.tasks data)). cbn zeta.
  destruct (fault _); [done|].
  destruct (Split.field (Split.storyNew data) "id"); try done.
  by destruct (db_stories w !! n).
Qed.

(** When neither update fails the finalize stage answers, with both stories
    patched and the task list as it was. *)
Lemma finalize_success (storyId newId : Z) (data : Split.Data) (w : World)
    (s n : JsObj) :
  fault (StoryUpdate (VNum storyId) (oldStoryPatch w)) = false ->
  fault (StoryUpdate (VNum newId) (newStoryPatch (Split.tasks data))) = false ->
  Split.field (Split.storyNew data) "id" = VNum newId ->
  newId <> storyId ->
  db_stories w !! storyId = Some s ->
  db_stories w !! newId = Some n ->
  res (Split.finalizeStorySplit storyId data w) =
    Ok (Split.mkData (Some (oldStoryPatch w ∪ s))
          (Some (newStoryPatch (Split.tasks data) ∪ n))
          (Split.tasks data) (Split.taskCnt data)) /\
  db_stories (world (Split.finalizeStorySplit storyId data w)) !! newId =
    Some (newStoryPatch (Split.tasks data) ∪ n).
Proof.
  intros F1 F2 Hid Hne Hs Hn.
  unfold Split.finalizeStorySplit, mbind, M_bind, async_parallel.
  rewrite updateOldStory_run. cbn zeta. rewrite F1, Hs. cbn [res world calls].
  rewrite updateNewStory_run. cbn zeta. rewrite Hid, F2. cbn [db_stories set_stories].
  rewrite lookup_insert_ne by done. rewrite Hn. cbn.
  split; [done|]. by rewrite lookup_insert_eq.
Qed.

End FinalizeRun.

Lemma story_call_not_task (c : Call) : story_call c -> ~ task_call c.
Proof. destruct c; cbn; tauto. Qed.

Lemma oldStoryPatch_fields (w : World) (s : JsObj) :
  prop (oldStoryPatch w ∪ s) "isDone" = VBool true /\
  prop (oldStoryPatch w ∪ s) "timeEnd" = VDate (clock w) /\
  forall f, f <> "isDone" -> f <> "timeEnd" -> prop (oldStoryPatch w ∪ s) f = prop s f.
Proof.
  unfold prop, oldStoryPatch. split_and!.
  - rewrite (lookup_union_Some_l _ _ _ (VBool true)); [done|].
    apply lookup_insert_eq.
  - rewrite (lookup_union_Some_l _ _ _ (VDate (clock w))); [done|].
    rewrite lookup_insert_ne by done. apply lookup_singleton_eq.
  - intros f H1 H2. rewrite lookup_union_r; [done|].
    rewrite lookup_insert_ne by done. by rewrite lookup_singleton_ne.
Qed.

(** C9. A split whose open-phase query returns nothing makes no call on
    tasks, answers with no moved task and a count of 0, and still asks for
    the source story to be updated to [isDone = true] with [timeEnd] the
    current time; unless that update fails, the stored source story is so
    updated, and when the update of the new story does not fail either, the
    action does answer. *)
Theorem C9_no_open_phases `{DataLayer} (storyId sprintId projectId : Z)
    (w : World) (story : JsObj) :
  db_stories w !! storyId = Some story ->
  fault (GetStory storyId) = false ->
  fault (StoryCreate (Split.cloneStory story sprintId storyId)) = false ->
  fault (GetPhases (Split.phasesWhere projectId)) = false ->
  openPhases projectId w = [] ->
  let r := Split.split storyId sprintId projectId w in
  Forall (fun c => ~ task_call c) (calls r) /\
  StoryUpdate (VNum storyId) (oldStoryPatch w) ∈ calls r /\
  (forall data, res r = Ok data ->
     Split.tasks data = [] /\ Split.taskCnt data = 0) /\
  (db_stories w !! next_id w = None ->
   fault (StoryUpdate (VNum storyId) (oldStoryPatch w)) = false ->
   (exists s, db_stories (world r) !! storyId = Some s /\
              prop s "isDone" = VBool true /\
              prop s "timeEnd" = VDate (clock w) /\
              forall data, res r = Ok data -> Split.storyOld data = Some s) /\
   (fault (StoryUpdate (VNum (next_id w)) (newStoryPatch [])) = false ->
    exists data, res r = Ok data /\
                 Split.tasks data = [] /\ Split.taskCnt data = 0)).
Proof.
  intros Hs F1 F2 F3 Hopen r. subst r.
  rewrite split_run, F1, Hs. cbn zeta. rewrite F2, F3.
  unfold afterStageA. rewrite Hopen. cbn [res world calls].
  set (data := Split.mkData None _ [] 0).
  set (w1 := createdWorld storyId sprintId w story).
  destruct (hoare_finalize storyId (fun _ => True) (fun c => ~ task_call c)
              (fun _ _ _ => Logic.I) story_call_not_task data w1 Logic.I)
    as (Hc & _ & Hr).
  change (oldStoryPatch w) with (oldStoryPatch w1).
  split_and!.
  - apply Forall_app. split; [|done]. repeat constructor; by intros [].
  - apply elem_of_app. right.
    apply (list_elem_of_lookup_2 _ 0%nat). apply finalize_first_call.
  - intros d Hd. by apply Hr.
  - intros Hfresh F4.
    assert (next_id w <> storyId) as Hne by congruence.
    assert (db_stories w1 !! storyId = Some story) as Hs1.
    { unfold w1, createdWorld. cbn. by rewrite lookup_insert_ne. }
    assert (Split.field (Split.storyNew data) "id" = VNum (next_id w)) as Hid.
    { unfold data. cbn [Split.storyNew]. apply created_id. }
    split.
    + destruct (finalize_old_story storyId data w1 story) as [Hw Hd];
        [exact F4 | exact Hs1 | rewrite Hid; congruence |].
      destruct (oldStoryPatch_fields w story) as (Hdone & Hend & _).
      exists (oldStoryPatch w ∪ story). by split_and!.
    + intros F5.
      destruct (finalize_success storyId (next_id w) data w1 story
                  (createdStory storyId sprintId w story)) as [Hres _];
        [exact F4 | exact F5 | exact Hid | exact Hne | exact Hs1 | |].
      * unfold w1, createdWorld. cbn. by rewrite lookup_insert_eq.
      * eexists. split; [exact Hres | done].
Qed.

Lemma demo_no_phases : @openPhases plain_layer 2 Demo.w0 = [].
Proof. vm_compute. reflexivity. Qed.

Lemma demo_fresh : db_stories Demo.w0 !! next_id Demo.w0 = None.
Proof. vm_compute. reflexivity. Qed.

Lemma C9_no_open_phases_witness :
  let r := @Split.split plain_layer 7 4 2 Demo.w0 in
  Forall (fun c => ~ task_call c) (calls r) /\
  StoryUpdate (VNum 7) (oldStoryPatch Demo.w0) ∈ calls r /\
  (exists s, db_stories (world r) !! 7 = Some s /\
             prop s "isDone" = VBool true /\ prop s "timeEnd" = VDate 9000) /\
  exists data, res r = Ok data /\ Split.tasks data = [] /\ Split.taskCnt data = 0.
Proof.
  destruct (@C9_no_open_phases plain_layer 7 4 2 Demo.w0 Demo.story7
              demo_story eq_refl eq_refl eq_refl demo_no_phases)
    as (Hc & Hu & _ & Hs).
  destruct (Hs demo_fresh eq_refl) as [(s & Hs1 & Hs2 & Hs3 & _) Hd].
  split_and!; [exact Hc | exact Hu | | exact (Hd eq_refl)].
  exists s. split_and!; [exact Hs1 | exact Hs2 | exact Hs3].
Defined.

(** ** The start time of the new story *)

Lemma newStoryTimeStart_app (ts : list JsObj) (t : JsObj) (acc : JsVal) :
  fold_left (fun timeStart task =>
               if js_gt (prop task "timeStart") timeStart
               then prop task "timeStart" else timeStart) (ts ++ [t]) acc =
  let m := fold_left (fun timeStart task =>
                        if js_gt (prop task "timeStart") timeStart
                        then prop task "timeStart" else timeStart) ts acc in
  if js_gt (prop t "timeStart") m then prop t "timeStart" else m.
Proof. by rewrite fold_left_app. Qed.

(** For tasks whose start is null or a date after the epoch, the loop of
    [finalizeStorySplit] finds the latest start, and null when there is
    none. *)
Lemma newStoryTimeStart_latest (tasks : list JsObj) :
  Forall plain_start tasks ->
  (Split.newStoryTimeStart tasks = VNull /\
   Forall (fun t => prop t "timeStart" = VNull) tasks) \/
  (exists ms, Split.newStoryTimeStart tasks = VDate ms /\ 0 < ms /\
     (exists t, t ∈ tasks /\ prop t "timeStart" = VDate ms) /\
     forall t ms', t ∈ tasks -> prop t "timeStart" = VDate ms' -> ms' <= ms).
Proof.
  induction tasks as [|t ts IH] using rev_ind; intros Hall.
  - left. by split.
  - apply Forall_app in Hall as [Hts Ht]. rewrite Forall_singleton in Ht.
    unfold plain_start in Ht.
    unfold Split.newStoryTimeStart. rewrite newStoryTimeStart_app. cbn zeta.
    fold (Split.newStoryTimeStart ts).
    destruct (IH Hts) as [[-> Hnull]|(m & -> & Hm & (t0 & Ht0 & Et0) & Hmax)].
    + destruct Ht as [Hn|(ms & Hd & Hms)]; rewrite ?Hn, ?Hd; cbn.
      * left. split; [done|]. apply Forall_app. split; [done|]. by constructor.
      * assert ((0 <? ms) = true) as -> by (by apply Z.ltb_lt).
        right. exists ms. split_and!; [done | done | |].
        -- exists t. split; [|done]. apply elem_of_app. right. by left.
        -- intros t' ms' [Hin|Hin%list_elem_of_singleton]%elem_of_app Hs.
           ++ rewrite Forall_forall in Hnull. rewrite (Hnull _ Hin) in Hs. done.
           ++ subst t'. assert (ms' = ms) by congruence. lia.
    + destruct Ht as [Hn|(ms & Hd & Hms)]; rewrite ?Hn, ?Hd; cbn.
      * assert ((m <? 0) = false) as -> by (apply Z.ltb_ge; lia).
        right. exists m. split_and!; [done | done | |].
        -- exists t0. split; [|done]. apply elem_of_app. by left.
        -- intros t' ms' [Hin|Hin%list_elem_of_singleton]%elem_of_app Hs.
           ++ by eapply Hmax.
           ++ subst t'. congruence.
      * destruct (m <? ms) eqn:E.
        -- apply Z.ltb_lt in E. right. exists ms. split_and!; [done | done | |].
           ++ exists t. split; [|done]. apply elem_of_app. right. by left.
           ++ intros t' ms' [Hin|Hin%list_elem_of_singleton]%elem_of_app Hs.
              ** specialize (Hmax _ _ Hin Hs). lia.
              ** subst t'. assert (ms' = ms) by congruence. lia.
        -- apply Z.ltb_ge in E. right. exists m. split_and!; [done | done | |].
           ++ exists t0. split; [|done]. apply elem_of_app. by left.
           ++ intros t' ms' [Hin|Hin%list_elem_of_singleton]%elem_of_app Hs.
              ** by eapply Hmax.
              ** subst t'. assert (ms' = ms) by congruence. lia.
Qed.

(** Starts at or before the epoch are never taken: [date > null] compares
    the time value with 0. *)
Lemma newStoryTimeStart_before_epoch (tasks : list JsObj) :
  Forall (fun t => exists ms, prop t "timeStart" = VDate ms /\ ms <= 0) tasks ->
  Split.newStoryTimeStart tasks = VNull.
Proof.
  induction tasks as [|t ts IH] using rev_ind; intros Hall; [done|].
  apply Forall_app in Hall as [Hts Ht]. rewrite Forall_singleton in Ht.
  destruct Ht as (ms & Hd & Hms).
  unfold Split.newStoryTimeStart. rewrite newStoryTimeStart_app. cbn zeta.
  fold (Split.newStoryTimeStart ts). rewrite (IH Hts), Hd. cbn.
  assert ((0 <? ms) = false) as -> by (apply Z.ltb_ge; lia). done.
Qed.

(** C8. The failing input: a moved task whose start is the epoch.  The loop
    of [finalizeStorySplit] compares it with [null], that is with 0, keeps
    [null], and the new story is updated with [timeStart = null] although a
    reassigned task has a start. *)
Theorem C8_epoch_start_dropped :
  let r := @Split.split plain_layer 7 4 1 Demo.wEpoch in
  (exists data t,
     res r = Ok data /\ Split.tasks data = [t] /\
     prop t "timeStart" = VDate 0 /\
     Split.newStoryTimeStart (Split.tasks data) = VNull /\
     Split.field (Split.storyNew data) "timeStart" = VNull) /\
  StoryUpdate (VNum 100)
    {[ "isDone" := VBool false; "timeStart" := VNull; "timeEnd" := VNull ]}
    ∈ calls r.
Proof.
  split.
  - eexists _, _. split_and!.
    + vm_compute. reflexivity.
    + vm_compute. reflexivity.
    + vm_compute. reflexivity.
    + vm_compute. reflexivity.
    + vm_compute. reflexivity.
  - apply (list_elem_of_lookup_2 _ 11). vm_compute. reflexivity.
Qed.

(** ** The report: totals *)

Lemma Zsum_cons (x : Z) (l : list Z) : Zsum (x :: l) = x + Zsum l.
Proof. done. Qed.

Lemma fold_left_add (l : list Z) (a : Z) : fold_left Z.add l a = a + Zsum l.
Proof.
  revert a. induction l as [|x xs IH]; intros a; [cbn; lia|].
  cbn [fold_left]. rewrite IH, Zsum_cons. lia.
Qed.

Lemma reduceSum_Zsum (l : list Z) : Tasks.reduceSum l = Zsum l.
Proof. destruct l as [|d ds]; [done|]. cbn. apply fold_left_add. Qed.

Lemma computeTotalTime_Zsum (phases : list Tasks.DurPhase) :
  Tasks.computeTotalTime phases = Zsum (Tasks.dp_duration <$> phases).
Proof. destruct phases; [done|]. apply reduceSum_Zsum. Qed.

Lemma computeTotalTimeNoFirst_Zsum (phases : list Tasks.DurPhase) :
  Tasks.computeTotalTimeNoFirst phases =
    Zsum (Tasks.dp_duration <$> List.filter (fun p => negb (Tasks.isFirst p)) phases).
Proof.
  destruct phases as [|p ps]; [done|]. unfold Tasks.computeTotalTimeNoFirst.
  destruct (Tasks.dp_duration <$> _) eqn:E; [done|]. apply reduceSum_Zsum.
Qed.

Lemma Zsum_nonneg (l : list Z) : Forall (fun d => 0 <= d) l -> 0 <= Zsum l.
Proof. induction 1; [done|]. rewrite Zsum_cons. lia. Qed.

Lemma Zsum_elem_le (l : list Z) (d : Z) :
  Forall (fun d => 0 <= d) l -> d ∈ l -> d <= Zsum l.
Proof.
  induction 1 as [|x xs Hx Hxs IH]; intros Hd.
  - by apply elem_of_nil in Hd.
  - rewrite Zsum_cons. apply elem_of_cons in Hd as [->|Hd].
    + pose proof (Zsum_nonneg xs Hxs). lia.
    + specialize (IH Hd). lia.
Qed.

(** ** The report: percentages *)

Lemma percentage_between (part total : Z) :
  0 < part -> part <= total -> between 0 100 (Tasks.percentage part total).
Proof.
  intros Hp Ht. unfold Tasks.percentage, js_div, js_mul, of_Z.
  destruct total as [|t|t]; try lia. cbn [Qnum inject_Z Z.eqb].
  unfold between. rewrite !Qred_correct.
  unfold Qle, Qdiv, Qmult, Qinv, inject_Z. cbn. lia.
Qed.

Lemma percentage_zero_total (part : Z) :
  0 < part -> Tasks.percentage part 0 = PosInf.
Proof.
  intros Hp. unfold Tasks.percentage, js_div, js_mul, of_Z. cbn.
  destruct part; try lia. reflexivity.
Qed.

(** ** The [tasks] action under the program logic *)

Lemma durationOrZero_sum (rows : list LedgerRow) :
  Tasks.durationOrZero (sum_or_null rows) = sum_durations rows.
Proof.
  destruct rows as [|r rs]; [done|]. unfold sum_or_null.
  generalize (sum_durations (r :: rs)). intros s. unfold Tasks.durationOrZero.
  destruct (s =? 0) eqn:E; cbn; [|done].
  apply Z.eqb_eq in E. by rewrite E.
Qed.

Section TasksAction.
Context `{DataLayer}.
Variables (storyId : Z) (w0 : World).

Let unchanged (w : World) : Prop := w = w0.
Let any_call (c : Call) : Prop := True.

Lemma hoare_read {A} (c : Call) (f : World -> Result A) (Q : A -> Prop) :
  (forall a, f w0 = Ok a -> Q a) ->
  hoare unchanged any_call (call c (fun w => (f w, w))) Q.
Proof.
  intros HQ. apply hoare_call; [done|]. intros w ->. cbn. by split.
Qed.

Lemma hoare_read_any {A} (c : Call) (f : World -> Result A) :
  hoare unchanged any_call (call c (fun w => (f w, w))) (fun _ => True).
Proof. by apply hoare_read. Qed.

Lemma hoare_phaseDuration (story phase : JsObj) :
  hoare unchanged any_call (Tasks.phaseDuration story phase)
    (fun p => Tasks.dp_phase p = phase /\
              Tasks.dp_duration p = ledger_duration w0 story phase).
Proof.
  unfold Tasks.phaseDuration.
  eapply hoare_bind.
  - unfold PhaseDuration_sum.
    apply (hoare_read _ _
             (fun r => Tasks.durationOrZero r = ledger_duration w0 story phase)).
    intros a [= <-]. apply durationOrZero_sum.
  - intros r Hr. by apply hoare_ret.
Qed.

Lemma hoare_tasks_action :
  hoare unchanged any_call (Tasks.tasks_action storyId) (built_from w0).
Proof.
  unfold Tasks.tasks_action.
  eapply (hoare_bind _ _ _ _ (fun _ => True)).
  { repeat (apply hoare_parallel_any; [by apply hoare_read_any|]).
    by apply hoare_read_any. }
  intros (role & story & tasks & users & types) _.
  eapply (hoare_bind _ _ _ _ (fun _ => True)); [by apply hoare_read_any|].
  intros phases _.
  eapply hoare_bind.
  { unfold Tasks.fetchPhaseDuration. apply hoare_map.
    intros phase _. apply hoare_phaseDuration. }
  intros dps Hdps. apply hoare_ret.
  exists role, story, tasks, users, types, dps. split; [done|].
  clear -Hdps. induction Hdps as [|phase p ? ? [Hp Hd]]; constructor; [|done].
  by rewrite Hp.
Qed.

End TasksAction.

Lemma tasks_action_built `{DataLayer} (storyId : Z) (w : World) (rep : Tasks.Report) :
  res (Tasks.tasks_action storyId w) = Ok rep -> built_from w rep.
Proof.
  intros Hrep.
  destruct (hoare_tasks_action storyId w w eq_refl) as (_ & _ & Hq). by apply Hq.
Qed.

(** ** The report: phases *)

Lemma view_durations (a b : Z) (phases : list Tasks.DurPhase) :
  Tasks.duration <$> (Tasks.viewPhase a b <$> phases) = Tasks.dp_duration <$> phases.
Proof. induction phases as [|p ps IH]; [done|]. cbn. by f_equal. Qed.

Lemma view_nonFirst (a b : Z) (phases : list Tasks.DurPhase) :
  List.filter nonFirst (Tasks.viewPhase a b <$> phases) =
  Tasks.viewPhase a b <$> List.filter (fun p => negb (Tasks.isFirst p)) phases.
Proof.
  induction phases as [|p ps IH]; [done|]. cbn.
  unfold nonFirst at 1. cbn. fold (Tasks.isFirst p).
  destruct (negb (Tasks.isFirst p)); cbn; by rewrite IH.
Qed.

Lemma view_phase_elem (a b : Z) (phases : list Tasks.DurPhase) (p : Tasks.PhaseView) :
  p ∈ Tasks.viewPhase a b <$> phases ->
  exists d, d ∈ phases /\ p = Tasks.viewPhase a b d.
Proof. intros (d & -> & Hd)%list_elem_of_fmap. by exists d. Qed.

(** C4. In every report whose durations stay within the integers a double
    holds exactly (their absolute values add up to at most 2^53), a phase's
    [duration] is the sum of the ledger rows selected by its phase id and
    the story id, 0 when there is no such row; [totalTime] is the sum of the
    phase durations and [totalTimeNoFirst] the sum over the phases whose
    [order] is not 0, each 0 over nothing. *)
Theorem C4_durations_and_totals `{DataLayer} (storyId : Z) (w : World)
    (rep : Tasks.Report) :
  res (Tasks.tasks_action storyId w) = Ok rep ->
  safe_durations (Tasks.duration <$> Tasks.phases rep) ->
  (forall p, p ∈ Tasks.phases rep ->
     let rows := ledger_rows (Tasks.durationWhere (Tasks.story rep) (Tasks.phase p)) w in
     Tasks.duration p = Zsum (pd_duration <$> rows) /\
     (rows = [] -> Tasks.duration p = 0)) /\
  Tasks.totalTime rep = Zsum (Tasks.duration <$> Tasks.phases rep) /\
  Tasks.totalTimeNoFirst rep =
    Zsum (Tasks.duration <$> List.filter nonFirst (Tasks.phases rep)) /\
  (Tasks.phases rep = [] -> Tasks.totalTime rep = 0) /\
  (List.filter nonFirst (Tasks.phases rep) = [] -> Tasks.totalTimeNoFirst rep = 0).
Proof.
  intros Hrep _.
  destruct (tasks_action_built storyId w rep Hrep)
    as (role & story & tasks & users & types & phases & -> & Hd).
  cbn [Tasks.makeView Tasks.phases Tasks.story Tasks.totalTime Tasks.totalTimeNoFirst].
  assert (Tasks.computeTotalTimeNoFirst phases =
          Zsum (Tasks.duration <$>
                  List.filter nonFirst
                    (Tasks.viewPhase (Tasks.computeTotalTime phases)
                       (Tasks.computeTotalTimeNoFirst phases) <$> phases))) as Hnf.
  { rewrite view_nonFirst, view_durations. apply computeTotalTimeNoFirst_Zsum. }
  assert (Tasks.computeTotalTime phases =
          Zsum (Tasks.duration <$>
                  (Tasks.viewPhase (Tasks.computeTotalTime phases)
                     (Tasks.computeTotalTimeNoFirst phases) <$> phases))) as Ht.
  { rewrite view_durations. apply computeTotalTime_Zsum. }
  split_and!.
  - intros p (d & Hin & ->)%view_phase_elem. cbn.
    rewrite Forall_forall in Hd. specialize (Hd d Hin).
    unfold ledger_duration in Hd. split; [done|].
    intros Hrows. by rewrite Hd, Hrows.
  - exact Ht.
  - exact Hnf.
  - intros E. by rewrite Ht, E.
  - intros E. by rewrite Hnf, E.
Qed.

Lemma between_zero : between 0 100 (of_Z 0).
Proof. cbn. unfold Qle. cbn. lia. Qed.

Lemma viewPhase_percentages (phases : list Tasks.DurPhase) (d : Tasks.DurPhase) :
  let p := Tasks.viewPhase (Tasks.computeTotalTime phases)
             (Tasks.computeTotalTimeNoFirst phases) d in
  (Tasks.dp_duration d <= 0 ->
     Tasks.durationPercentageTotal p = of_Z 0 /\ Tasks.durationPercentage p = of_Z 0) /\
  (Tasks.isFirst d = true -> Tasks.durationPercentage p = of_Z 0) /\
  (Forall (fun q => 0 <= Tasks.dp_duration q) phases -> d ∈ phases ->
     between 0 100 (Tasks.durationPercentageTotal p) /\
     between 0 100 (Tasks.durationPercentage p)).
Proof.
  cbn. split_and!.
  - intros Hle. assert ((0 <? Tasks.dp_duration d) = false) as -> by (apply Z.ltb_ge; lia).
    done.
  - intros ->. by rewrite andb_false_r.
  - intros Hnn Hd.
    assert (Forall (fun x => 0 <= x) (Tasks.dp_duration <$> phases)) as Hnn'.
    { apply Forall_fmap. eapply Forall_impl; [exact Hnn | done]. }
    destruct (0 <? Tasks.dp_duration d) eqn:E; cbn [andb]; [|by split; apply between_zero].
    apply Z.ltb_lt in E. split.
    + apply percentage_between; [done|].
      rewrite computeTotalTime_Zsum. apply Zsum_elem_le; [done|].
      apply list_elem_of_fmap. by exists d.
    + destruct (Tasks.isFirst d) eqn:F; cbn [negb]; [apply between_zero|].
      apply percentage_between; [done|].
      rewrite computeTotalTimeNoFirst_Zsum. apply Zsum_elem_le.
      * apply Forall_fmap. apply Forall_forall. intros q Hq%filter_elem.
        rewrite Forall_forall in Hnn. by apply Hnn.
      * apply list_elem_of_fmap. exists d. split; [done|].
        apply list_elem_of_In, filter_In. split; [by apply list_elem_of_In|].
        by rewrite F.
Qed.

(** C3, as the code has it.  In every report a phase with [duration <= 0]
    has both percentages 0 and a phase with [order] 0 has
    [durationPercentage] 0; when no phase of the report has a negative
    duration, both percentages of every phase are finite and between 0 and
    100, also when a total is 0. *)
Theorem C3_percentages `{DataLayer} (storyId : Z) (w : World) (rep : Tasks.Report) :
  res (Tasks.tasks_action storyId w) = Ok rep ->
  (forall p, p ∈ Tasks.phases rep -> Tasks.duration p <= 0 ->
     Tasks.durationPercentageTotal p = of_Z 0 /\ Tasks.durationPercentage p = of_Z 0) /\
  (forall p, p ∈ Tasks.phases rep -> nonFirst p = false ->
     Tasks.durationPercentage p = of_Z 0) /\
  (Forall (fun p => 0 <= Tasks.duration p) (Tasks.phases rep) ->
   forall p, p ∈ Tasks.phases rep ->
     between 0 100 (Tasks.durationPercentageTotal p) /\
     between 0 100 (Tasks.durationPercentage p)).
Proof.
  intros Hrep.
  destruct (tasks_action_built storyId w rep Hrep)
    as (role & story & tasks & users & types & phases & -> & _).
  cbn [Tasks.makeView Tasks.phases].
  split_and!.
  - intros p (d & Hin & ->)%view_phase_elem Hle.
    by apply (viewPhase_percentages phases d).
  - intros p (d & Hin & ->)%view_phase_elem Hf.
    apply (viewPhase_percentages phases d).
    unfold nonFirst in Hf. cbn in Hf. fold (Tasks.isFirst d) in Hf.
    by destruct (Tasks.isFirst d).
  - intros Hnn p (d & Hin & ->)%view_phase_elem.
    apply (viewPhase_percentages phases d); [|done].
    apply Forall_forall. intros q Hq. rewrite Forall_forall in Hnn.
    apply (Hnn (Tasks.viewPhase (Tasks.computeTotalTime phases)
                  (Tasks.computeTotalTimeNoFirst phases) q)).
    apply list_elem_of_fmap. by exists q.
Qed.

Lemma demo_report :
  res (@Tasks.tasks_action plain_layer 7 Demo.wExample) = Ok Demo.report.
Proof. vm_compute. reflexivity. Qed.

Lemma demo_report_safe : safe_durations (Tasks.duration <$> Tasks.phases Demo.report).
Proof. vm_compute. discriminate. Qed.

(** Beyond that range the additions of the code are no longer exact: the
    double sum of 2^53 and 1 is 2^53. *)
Example double_sum_beyond_safe :
  double_add (double_of_Z (2 ^ 53)) (double_of_Z 1) = double_of_Z (2 ^ 53) /\
  double_add (double_of_Z (2 ^ 53 - 1)) (double_of_Z 1) = double_of_Z (2 ^ 53).
Proof. split; vm_compute; reflexivity. Qed.

Lemma C4_durations_and_totals_witness :
  res (@Tasks.tasks_action plain_layer 7 Demo.wExample) = Ok Demo.report /\
  Tasks.duration <$> Tasks.phases Demo.report = [100; 50; 0] /\
  Tasks.totalTime Demo.report = 150 /\ Tasks.totalTimeNoFirst Demo.report = 50 /\
  Tasks.totalTime Demo.report = Zsum (Tasks.duration <$> Tasks.phases Demo.report) /\
  Tasks.totalTimeNoFirst Demo.report =
    Zsum (Tasks.duration <$> List.filter nonFirst (Tasks.phases Demo.report)).
Proof.
  destruct (@C4_durations_and_totals plain_layer 7 Demo.wExample Demo.report demo_report
              demo_report_safe)
    as (_ & Ht & Hn & _).
  split_and!; [exact demo_report | reflexivity | reflexivity | reflexivity
              | exact Ht | exact Hn].
Defined.

Lemma demo_report_nonneg : Forall (fun p => 0 <= Tasks.duration p) (Tasks.phases Demo.report).
Proof. repeat constructor; vm_compute; discriminate. Qed.

Lemma C3_percentages_witness :
  res (@Tasks.tasks_action plain_layer 7 Demo.wExample) = Ok Demo.report /\
  Tasks.durationPercentage <$> Tasks.phases Demo.report
    = [Finite 0; Finite 100; Finite 0] /\
  Tasks.durationPercentageTotal <$> Tasks.phases Demo.report
    = [Finite (200 # 3); Finite (100 # 3); Finite 0] /\
  forall p, p ∈ Tasks.phases Demo.report ->
    between 0 100 (Tasks.durationPercentageTotal p) /\
    between 0 100 (Tasks.durationPercentage p).
Proof.
  destruct (@C3_percentages plain_layer 7 Demo.wExample Demo.report demo_report)
    as (_ & _ & Hb).
  split_and!; [exact demo_report | reflexivity | reflexivity
              | exact (Hb demo_report_nonneg)].
Defined.

(** C3 as stated fails: with ledger sums 5 and -5 both totals are 0 and the
    phase of duration 5 gets [Infinity] for both percentages. *)
Lemma C3_counterexample :
  exists rep p,
    res (@Tasks.tasks_action plain_layer 7 Demo.wLedger) = Ok rep /\
    p ∈ Tasks.phases rep /\
    Tasks.duration p = 5 /\ Tasks.totalTime rep = 0 /\
    Tasks.totalTimeNoFirst rep = 0 /\
    Tasks.durationPercentageTotal p = PosInf /\
    Tasks.durationPercentage p = PosInf /\
    ~ is_finite (Tasks.durationPercentageTotal p) /\
    ~ between 0 100 (Tasks.durationPercentageTotal p).
Proof.
  eexists _, _. split; [vm_compute; reflexivity|].
  split; [left|].
  split; [vm_compute; reflexivity|].
  split; [vm_compute; reflexivity|].
  split; [vm_compute; reflexivity|].
  split; [vm_compute; reflexivity|].
  split; [vm_compute; reflexivity|].
  split; intros Hf; vm_compute in Hf; exact Hf.
Qed.

(** ** The report: progress *)

Lemma countDone_fold (tasks : list JsObj) (a : Z) :
  fold_left (fun memo task => if truthy (prop task "isDone") then memo + 1 else memo)
            tasks a
  = a + Z.of_nat (length (List.filter isDone tasks)).
Proof.
  revert a. induction tasks as [|t ts IH]; intros a; [cbn; lia|].
  cbn [fold_left List.filter]. rewrite IH. unfold isDone at 2.
  destruct (truthy (prop t "isDone")); cbn [length]; lia.
Qed.

Lemma countDone_filter (tasks : list JsObj) :
  Tasks.countDone tasks = Z.of_nat (length (List.filter isDone tasks)).
Proof. unfold Tasks.countDone. by rewrite countDone_fold. Qed.

Lemma filter_length_le {A} (f : A -> bool) (l : list A) :
  (length (List.filter f l) <= length l)%nat.
Proof. induction l as [|x xs IH]; [done|]. cbn. destruct (f x); cbn; lia. Qed.

(** The progress in doubles, checked for every count of done tasks out of
    at most 200. *)
Lemma progress_table_200 : progress_table 200 = true.
Proof. vm_compute. reflexivity. Qed.

Lemma upto_elem (n : nat) (z : Z) : 1 <= z <= Z.of_nat n -> In z (upto n).
Proof.
  intros Hz. unfold upto. apply list_elem_of_In, list_elem_of_fmap.
  exists (Z.to_nat (z - 1)). split; [lia|].
  apply list_elem_of_In, in_seq. lia.
Qed.

Lemma progress_table_spec (n : nat) (done total : Z) :
  progress_table n = true ->
  0 < done -> done <= total -> total <= Z.of_nat n ->
  progress_ok done total = true.
Proof.
  unfold progress_table. intros Htab Hd Hle Ht.
  rewrite forallb_forall in Htab.
  specialize (Htab total (upto_elem n total ltac:(lia))).
  rewrite forallb_forall in Htab.
  apply Htab, upto_elem. lia.
Qed.

Lemma progress_checked (done total : Z) :
  0 < done -> done <= total -> total <= 200 -> progress_ok done total = true.
Proof.
  intros Hd Hle Ht.
  exact (progress_table_spec 200 done total progress_table_200 Hd Hle Ht).
Qed.

Lemma progress_ok_spec (done total : Z) :
  progress_ok done total = true ->
  exists n, Tasks.computeProgress done total = of_Z n /\ 1 <= n <= 100 /\
    (n = exactProgress done total \/
     (n + 1 = exactProgress done total /\ exactHalf done total = true)) /\
    (done = total -> n = 100) /\
    (n = 100 -> 199 * total <= 200 * done).
Proof.
  unfold progress_ok.
  destruct (Tasks.computeProgress done total) as [[n [| |]]| | |]; try done.
  rewrite !andb_true_iff, orb_true_iff, andb_true_iff.
  intros ((((H1 & H2) & H3) & H4) & H5). exists n.
  split; [done|]. split; [lia|]. split_and!.
  - destruct H3 as [H3|[H3 H3']]; [left | right]; [lia | split; [lia | done]].
  - intros ->. rewrite Z.eqb_refl in H4. cbn in H4. lia.
  - intros ->. cbn in H5. lia.
Qed.

Lemma countDone_range (tasks : list JsObj) :
  0 <= Tasks.countDone tasks <= Z.of_nat (length tasks).
Proof.
  rewrite countDone_filter. pose proof (filter_length_le isDone tasks). lia.
Qed.

(** C6, as the code has it.  For every task list, [cntTaskTotal] is the
    number of tasks and [cntTaskDone] the number of tasks whose [isDone] is
    true; [progressTask] is 0 whenever [cntTaskDone = 0], the empty list
    included, and otherwise [Math.round] of the double
    [cntTaskDone / cntTaskTotal * 100].  For up to 200 tasks that is an
    integer from 1 to 100: the exact percentage rounded to the nearest
    integer, halves going up, or one below it where the exact percentage is
    a half. *)
Theorem C6_progress (role : JsVal) (story : JsObj) (tasks users types : list JsObj)
    (phases : list Tasks.DurPhase) :
  let rep := Tasks.makeView role story tasks users types phases in
  let total := Tasks.cntTaskTotal rep in
  let done := Tasks.cntTaskDone rep in
  total = Z.of_nat (length tasks) /\
  done = Z.of_nat (length (List.filter isDone tasks)) /\
  (done = 0 -> Tasks.progressTask rep = of_Z 0) /\
  (0 < done ->
     Tasks.progressTask rep =
       js_round (number_of_double
                   (double_mul (double_div (double_of_Z done) (double_of_Z total))
                               (double_of_Z 100)))) /\
  (0 < done -> total <= 200 ->
     exists n, Tasks.progressTask rep = of_Z n /\ 1 <= n <= 100 /\
       (n = exactProgress done total \/
        (n + 1 = exactProgress done total /\ exactHalf done total = true))).
Proof.
  cbn zeta. cbn [Tasks.makeView Tasks.cntTaskTotal Tasks.cntTaskDone Tasks.progressTask].
  split_and!.
  - done.
  - apply countDone_filter.
  - intros E. unfold Tasks.computeProgress. by rewrite E.
  - intros Hpos. unfold Tasks.computeProgress.
    by assert ((0 <? Tasks.countDone tasks) = true) as -> by (by apply Z.ltb_lt).
  - intros Hpos Hle. pose proof (countDone_range tasks) as [_ Hhi].
    destruct (progress_ok_spec _ _ (progress_checked _ _ Hpos Hhi Hle))
      as (n & Hn & Hr & He & _).
    by exists n.
Qed.

Lemma C6_progress_witness :
  let rep := Tasks.makeView VNull ∅ tasks1of3 [] [] [] in
  Tasks.cntTaskTotal rep = 3 /\ Tasks.cntTaskDone rep = 1 /\
  Tasks.progressTask rep = of_Z 33 /\
  exists n, Tasks.progressTask rep = of_Z n /\ 1 <= n <= 100 /\
    (n = exactProgress 1 3 \/ (n + 1 = exactProgress 1 3 /\ exactHalf 1 3 = true)).
Proof.
  destruct (C6_progress VNull ∅ tasks1of3 [] [] []) as (Ht & Hd & _ & _ & Hb).
  split; [exact Ht|]. split; [exact Hd|]. split; [vm_compute; reflexivity|].
  apply Hb; [reflexivity | vm_compute; discriminate].
Defined.

(** C6 as stated fails: with 23 of 40 tasks done the exact percentage is
    57.5 and rounds to 58, but the double [23 / 40 * 100] is just below
    57.5 and [progressTask] is 57. *)
Lemma C6_counterexample :
  let rep := Tasks.makeView VNull ∅ tasks23of40 [] [] [] in
  Tasks.cntTaskDone rep = 23 /\ Tasks.cntTaskTotal rep = 40 /\
  Tasks.progressTask rep = of_Z 57 /\
  js_round (Tasks.percentage 23 40) = of_Z 58 /\
  exactProgress 23 40 = 58 /\
  number_of_double (double_mul (double_div (double_of_Z 23) (double_of_Z 40))
                               (double_of_Z 100))
    = Finite (8092405580431359 # 140737488355328).
Proof. split_and!; vm_compute; reflexivity. Qed.

(** ** The task query of the report *)

(** C5. The criteria the [tasks] action passes to [DataService.getTasks]
    names the field [storyid]; it has no constraint on [storyId], the field
    the split's task query constrains and [moveTasks] assigns. *)
Theorem C5_task_filter_key (storyId : Z) (phases : list JsObj) :
  w_eq (Tasks.tasksWhere storyId) !! "storyid" = Some (VNum storyId) /\
  w_eq (Tasks.tasksWhere storyId) !! "storyId" = None /\
  w_or (Tasks.tasksWhere storyId) = None /\
  w_eq (Split.tasksWhere storyId phases) !! "storyId" = Some (VNum storyId).
Proof. by split_and!. Qed.

(** Under criteria that go by the exact field name, the report of story 7
    has no task although two stored tasks belong to it. *)
Example tasks_action_selects_nothing :
  length (List.filter (fun t => strict_eq (prop t "storyId") (VNum 7))
            (stored_tasks Demo.w0)) = 2%nat /\
  exists rep,
    res (@Tasks.tasks_action plain_layer 7 Demo.w0) = Ok rep /\
    Tasks.tasks rep = [] /\ Tasks.cntTaskTotal rep = 0.
Proof.
  split; [vm_compute; reflexivity|].
  eexists. split_and!; vm_compute; reflexivity.
Qed.

(** ** Examples of the specification *)

Example progress_examples :
  Tasks.computeProgress 2 4 = of_Z 50 /\
  Tasks.computeProgress 0 0 = of_Z 0 /\
  Tasks.computeProgress 0 3 = of_Z 0 /\
  Tasks.computeProgress 1 3 = of_Z 33 /\
  Tasks.computeProgress 1 200 = of_Z 1.
Proof. split_and!; vm_compute; reflexivity. Qed.

(** The residue of a failed first stage: when the phase query fails after
    the new story was created, the action answers with that failure while the
    story is stored and announced. *)
Lemma stageA_residue `{DataLayer} (storyId sprintId projectId : Z) (w : World)
    (story : JsObj) :
  db_stories w !! storyId = Some story ->
  fault (GetStory storyId) = false ->
  fault (StoryCreate (Split.cloneStory story sprintId storyId)) = false ->
  fault (GetPhases (Split.phasesWhere projectId)) = true ->
  let r := Split.split storyId sprintId projectId w in
  let new := createdStory storyId sprintId w story in
  res r = Err (IoError (GetPhases (Split.phasesWhere projectId))) /\
  StoryPublishCreate new ∈ calls r /\
  db_stories (world r) !! next_id w = Some new.
Proof.
  intros Hs F1 F2 F3 r new. subst r.
  rewrite split_run, F1, Hs. cbn zeta. rewrite F2, F3. cbn [res world calls].
  split_and!; [done | |].
  - apply (list_elem_of_lookup_2 _ 2%nat). done.
  - unfold createdWorld. cbn. by rewrite lookup_insert_eq.
Qed.

(** ** A split in which no call fails *)

Lemma stored_ids_NoDup (w : World) :
  tasks_wf w -> NoDup ((fun t => prop t "id") <$> stored_tasks w).
Proof.
  intros Hwf. unfold stored_tasks. rewrite <- list_fmap_compose.
  rewrite (list_fmap_ext _ (VNum ∘ fst) (map_to_list (db_tasks w))).
  - rewrite list_fmap_compose.
    assert (Inj (=) (=) VNum) by (by intros x y [= ->]).
    apply (NoDup_fmap_2 VNum), NoDup_fst_map_to_list.
  - intros i [k t] Hi. cbn. apply Hwf.
    apply elem_of_map_to_list. by eapply list_elem_of_lookup_2.
Qed.

Lemma filter_ids_NoDup {A B} (f : A -> B) (p : A -> bool) (l : list A) :
  NoDup (f <$> l) -> NoDup (f <$> List.filter p l).
Proof.
  induction l as [|x xs IH]; [done|]. cbn. intros [Hx Hxs]%NoDup_cons.
  destruct (p x); [|by apply IH]. cbn. apply NoDup_cons. split; [|by apply IH].
  intros (y & Hy & Hin%filter_elem)%list_elem_of_fmap.
  apply Hx. apply list_elem_of_fmap. by exists y.
Qed.

Section NoFault.
Context `{DataLayer}.
Hypothesis no_fault : forall c, fault c = false.
Variables (storyNew : option JsObj) (first : JsObj).

Lemma moveTask_run (t : JsObj) (k : Z) (w : World) :
  prop t "id" = VNum k -> db_tasks w !! k = Some t ->
  let mt := movedTask storyNew first t in
  Split.moveTask storyNew first t w =
    mkRun (Ok mt) (set_tasks <[k := mt]> w)
          [GetTask (VNum k); TaskSave mt; TaskPublishDestroy (VNum k);
           TaskPublishCreate mt].
Proof.
  intros Hid Hk mt.
  assert (prop mt "id" = VNum k) as Hmid.
  { unfold mt, movedTask. cbn zeta. by rewrite !prop_assign_ne. }
  unfold Split.moveTask, getTask, Task_save, notify, call, mbind, M_bind.
  rewrite Hid, !no_fault. cbn. rewrite Hk. cbn.
  fold (movedTask storyNew first t). fold mt. rewrite no_fault. cbn.
  by rewrite Hmid.
Qed.

Lemma moveTasks_run (ts : list JsObj) (w : World) :
  (forall t, t ∈ ts -> exists k, prop t "id" = VNum k /\ db_tasks w !! k = Some t) ->
  NoDup ((fun t => prop t "id") <$> ts) ->
  let r := Split.moveTasks storyNew first ts w in
  res r = Ok (movedTask storyNew first <$> ts) /\
  (forall t, t ∈ ts -> TaskSave (movedTask storyNew first t) ∈ calls r) /\
  db_stories (world r) = db_stories w /\ clock (world r) = clock w.
Proof.
  revert w. induction ts as [|t ts IH]; intros w Hst Hnd; cbn zeta.
  - split_and!; [done | | done | done]. intros t Ht. by apply elem_of_nil in Ht.
  - destruct (Hst t) as (k & Hid & Hk); [left|].
    apply NoDup_cons in Hnd as [Hnot Hnd].
    unfold Split.moveTasks. cbn [async_map]. fold (Split.moveTasks storyNew first ts).
    unfold mbind, M_bind, async_parallel.
    rewrite (moveTask_run t k w Hid Hk). cbn zeta. cbn [res world calls].
    set (w' := set_tasks _ w).
    destruct (IH w') as (Hres & Hcalls & Hstories & Hclock); [|done|].
    { intros t' Ht'. destruct (Hst t') as (k' & Hid' & Hk'); [by right|].
      exists k'. split; [done|]. unfold w'. cbn.
      rewrite lookup_insert_ne; [done|]. intros ->. apply Hnot.
      rewrite Hid, <- Hid'. apply list_elem_of_fmap. by exists t'. }
    rewrite Hres. cbn. split_and!; [done | | done | done].
    intros t' [->|Ht']%elem_of_cons.
    + right. left.
    + do 4 right. apply elem_of_app. left. by apply Hcalls.
Qed.

End NoFault.

(** When no call fails, a split of a stored story answers: every fetched
    task is saved in its moved form, and the moved tasks are the task list
    of the answer. *)
Lemma split_moves_all `{DataLayer} (storyId sprintId projectId : Z) (w : World)
    (story : JsObj) :
  (forall c, fault c = false) ->
  db_stories w !! storyId = Some story ->
  db_stories w !! next_id w = None ->
  tasks_wf w ->
  let r := Split.split storyId sprintId projectId w in
  let storyNew := Some (createdStory storyId sprintId w story) in
  let first := match openPhases projectId w with
               | phase0 :: _ => Split.firstPhase phase0 (openPhases projectId w)
               | [] => ∅
               end in
  let fetched := fetchedTasks storyId projectId w in
  exists data,
    res r = Ok data /\
    Split.tasks data = movedTask storyNew first <$> fetched /\
    Split.taskCnt data = Z.of_nat (length fetched) /\
    forall t, t ∈ fetched -> TaskSave (movedTask storyNew first t) ∈ calls r.
Proof.
  intros Hnf Hs Hfresh Hwf r storyNew first fetched. subst r.
  assert (next_id w <> storyId) as Hne by congruence.
  rewrite split_run, !Hnf, Hs. cbn zeta. rewrite !Hnf. cbn [res calls].
  set (w1 := createdWorld storyId sprintId w story).
  assert (db_stories w1 !! storyId = Some story) as Hs1.
  { unfold w1, createdWorld. cbn. by rewrite lookup_insert_ne. }
  assert (db_stories w1 !! next_id w = Some (createdStory storyId sprintId w story)) as Hn1.
  { unfold w1, createdWorld. cbn. by rewrite lookup_insert_eq. }
  unfold afterStageA. unfold fetched, fetchedTasks, first.
  destruct (openPhases projectId w) as [|phase0 rest] eqn:Eo.
  - destruct (finalize_success storyId (next_id w)
                (Split.mkData None storyNew [] 0) w1 story
                (createdStory storyId sprintId w story)) as [Hres _];
      [apply Hnf | apply Hnf | apply created_id | done | done | done |].
    eexists. split; [exact Hres|]. split_and!; [done | done |].
    intros t Ht. by apply elem_of_nil in Ht.
  - set (first' := Split.firstPhase phase0 (phase0 :: rest)).
    set (ts := List.filter _ (stored_tasks w)).
    unfold Split.changeTasks, getTasks, call, mbind, M_bind.
    rewrite Hnf. cbn [res world calls fst snd]. fold first'.
    change (stored_tasks w1) with (stored_tasks w). fold ts.
    destruct (moveTasks_run Hnf storyNew first' ts w1) as (Hres & Hcalls & Hst & Hck).
    { intros t Ht%filter_elem. apply stored_tasks_elem in Ht as [k Hk].
      exists k. split; [by apply Hwf | done]. }
    { apply filter_ids_NoDup, stored_ids_NoDup, Hwf. }
    cbn [Split.storyNew]. fold storyNew. rewrite Hres. cbn [res world calls].
    set (w2 := world (Split.moveTasks storyNew first' ts w1)) in *.
    destruct (finalize_success storyId (next_id w)
                (Split.mkData None storyNew (movedTask storyNew first' <$> ts)
                   (Z.of_nat (length (movedTask storyNew first' <$> ts))))
                w2 story (createdStory storyId sprintId w story)) as [Hfin _];
      [apply Hnf | apply Hnf | apply created_id | done
      | by rewrite Hst | by rewrite Hst |].
    cbn [Split.storyOld Split.storyNew Split.tasks Split.taskCnt].
    rewrite Hfin. eexists. split; [done|].
    split_and!; [done | cbn; by rewrite length_fmap |].
    intros t Ht. apply elem_of_app. right. apply elem_of_app. right.
    apply elem_of_app. left. by apply Hcalls.
Qed.

(** * Further properties *)

(** ** Failures of the first stage of the split *)

(** When the story cannot be fetched the split makes that one call, answers
    with its failure and leaves the store as it is. *)
Theorem split_story_not_fetched `{DataLayer} (storyId sprintId projectId : Z)
    (w : World) :
  fault (GetStory storyId) = true \/ db_stories w !! storyId = None ->
  let r := Split.split storyId sprintId projectId w in
  res r = Err (IoError (GetStory storyId)) /\
  calls r = [GetStory storyId] /\ world r = w.
Proof.
  intros Hf r. subst r. rewrite split_run.
  destruct (fault (GetStory storyId)) eqn:F; [done|].
  destruct Hf as [Hf|Hf]; [done|]. by rewrite Hf.
Qed.

Lemma split_story_not_fetched_witness :
  let r := @Split.split plain_layer 8 4 1 Demo.w0 in
  res r = Err (IoError (GetStory 8)) /\ calls r = [GetStory 8] /\ world r = Demo.w0.
Proof.
  apply (@split_story_not_fetched plain_layer 8 4 1 Demo.w0).
  right. vm_compute. reflexivity.
Defined.

(** When [Story.create] fails the split answers with an error, stores
    nothing, and makes no call on tasks and no update of a story. *)
Theorem split_create_fails `{DataLayer} (storyId sprintId projectId : Z)
    (w : World) (story : JsObj) :
  db_stories w !! storyId = Some story ->
  fault (GetStory storyId) = false ->
  fault (StoryCreate (Split.cloneStory story sprintId storyId)) = true ->
  let r := Split.split storyId sprintId projectId w in
  (exists e, res r = Err e) /\ world r = w /\
  Forall (fun c => ~ task_call c /\ ~ story_call c /\ ~ announcement c) (calls r).
Proof.
  intros Hs F1 F2 r. subst r. rewrite split_run, F1, Hs. cbn zeta. rewrite F2.
  cbn. split_and!; [by eexists | done |].
  repeat constructor; cbn; tauto.
Qed.

(** When the phase query fails after the new story was created, the split
    answers with that failure; the new story stays stored and announced, the
    source story is not updated and no task is touched. *)
Theorem split_phase_query_fails `{DataLayer} (storyId sprintId projectId : Z)
    (w : World) (story : JsObj) :
  db_stories w !! storyId = Some story ->
  db_stories w !! next_id w = None ->
  fault (GetStory storyId) = false ->
  fault (StoryCreate (Split.cloneStory story sprintId storyId)) = false ->
  fault (GetPhases (Split.phasesWhere projectId)) = true ->
  let r := Split.split storyId sprintId projectId w in
  let new := createdStory storyId sprintId w story in
  res r = Err (IoError (GetPhases (Split.phasesWhere projectId))) /\
  calls r = stageACalls storyId sprintId projectId w story /\
  db_stories (world r) !! next_id w = Some new /\
  db_stories (world r) !! storyId = Some story /\
  db_tasks (world r) = db_tasks w.
Proof.
  intros Hs Hfresh F1 F2 F3 r new. subst r.
  assert (next_id w <> storyId) as Hne by congruence.
  rewrite split_run, F1, Hs. cbn zeta. rewrite F2, F3. cbn [res world calls].
  split_and!; [done | done | | | done].
  - unfold createdWorld. cbn. by rewrite lookup_insert_eq.
  - unfold createdWorld. cbn. by rewrite lookup_insert_ne.
Qed.

Lemma split_phase_query_fails_witness :
  let r := @Split.split (faulty_layer phases_fail) 7 4 1 Demo.w0 in
  res r = Err (IoError (GetPhases (Split.phasesWhere 1))) /\
  db_stories (world r) !! 100 = Some (createdStory 7 4 Demo.w0 Demo.story7) /\
  db_stories (world r) !! 7 = Some Demo.story7.
Proof.
  destruct (@split_phase_query_fails (faulty_layer phases_fail) 7 4 1 Demo.w0
              Demo.story7 demo_story demo_fresh eq_refl eq_refl eq_refl)
    as (Hr & _ & Hn & Ho & _).
  split_and!; [exact Hr | exact Hn | exact Ho].
Defined.

Lemma demo_no_fault : forall c, @fault plain_layer c = false.
Proof. reflexivity. Qed.

Lemma split_moves_all_witness :
  exists data,
    res (@Split.split plain_layer 7 4 1 Demo.w0) = Ok data /\
    length (Split.tasks data) = 2%nat /\ Split.taskCnt data = 2.
Proof.
  destruct (@split_moves_all plain_layer 7 4 1 Demo.w0 Demo.story7
              demo_no_fault demo_story demo_fresh demo_tasks_wf)
    as (data & Hr & Ht & Hc & _).
  exists data. split_and!; [exact Hr | |].
  - rewrite Ht. vm_compute. reflexivity.
  - rewrite Hc. vm_compute. reflexivity.
Defined.

(** ** The order of writes and announcements *)

Section Emits.
Context (S : list Call -> Prop).
Hypothesis S_nil : S [].
Hypothesis S_app : forall l1 l2, S l1 -> S l2 -> S (l1 ++ l2).

Lemma emits_ret {A} (a : A) : emits S (mret a).
Proof. intros w. exact S_nil. Qed.

Lemma emits_throw {A} (e : Error) : emits S (@throw A e).
Proof. intros w. exact S_nil. Qed.

Lemma emits_bind {A B} (m : M A) (f : A -> M B) :
  emits S m -> (forall a, emits S (f a)) -> emits S (m ≫= f).
Proof.
  intros Hm Hf w. unfold mbind, M_bind.
  destruct (res (m w)) as [a|e]; cbn; [|apply Hm].
  apply S_app; [apply Hm | apply Hf].
Qed.

Lemma emits_parallel {A B} (j1 : M A) (j2 : M B) :
  emits S j1 -> emits S j2 -> emits S (async_parallel j1 j2).
Proof.
  intros H1 H2 w. unfold async_parallel.
  destruct (res (j1 w)) as [a|[c|]]; cbn; [| |apply H1];
    (apply S_app; [apply H1 | apply H2]).
Qed.

Lemma emits_map {A B} (f : A -> M B) (l : list A) :
  (forall x, emits S (f x)) -> emits S (async_map f l).
Proof.
  intros Hf. induction l as [|x xs IH]; cbn [async_map]; [apply emits_ret|].
  apply emits_bind; [by apply emits_parallel|]. intros [y ys]. apply emits_ret.
Qed.

End Emits.

Lemma announced_app (l1 l2 : list Call) :
  announced l1 -> announced l2 -> announced (l1 ++ l2).
Proof.
  intros H1 H2. induction H1; cbn; [done | | | |].
  - by apply announced_other.
  - by apply announced_task.
  - by apply announced_create.
  - by apply announced_update.
Qed.

Lemma announced_one (c : Call) : ~ announcement c -> announced [c].
Proof. intros Hc. apply announced_other; [done | constructor]. Qed.

(** What [announced] says of a task announcement at a given place. *)
Lemma announced_task_create (l : list Call) (i : nat) (t : JsObj) :
  announced l -> l !! i = Some (TaskPublishCreate t) ->
  exists j, i = Datatypes.S (Datatypes.S j) /\
            l !! j = Some (TaskSave t) /\
            l !! Datatypes.S j = Some (TaskPublishDestroy (prop t "id")).
Proof.
  intros Hl. revert i. induction Hl as [|c l Hc Hl IH|t' l Hl IH|v s l Hl IH|? ? ? ? l ? Hl IH];
    intros i Hi.
  - done.
  - destruct i as [|i]; cbn in Hi.
    + injection Hi as ->. by destruct Hc.
    + destruct (IH i Hi) as (j & -> & Hj1 & Hj2). by exists (Datatypes.S j).
  - destruct i as [|[|[|i]]]; cbn in Hi; try done.
    + injection Hi as ->. by exists 0%nat.
    + destruct (IH i Hi) as (j & -> & Hj1 & Hj2).
      by exists (Datatypes.S (Datatypes.S (Datatypes.S j))).
  - destruct i as [|[|i]]; cbn in Hi; try done.
    destruct (IH i Hi) as (j & -> & Hj1 & Hj2).
    by exists (Datatypes.S (Datatypes.S j)).
  - destruct i as [|[|i]]; cbn in Hi; try done.
    destruct (IH i Hi) as (j & -> & Hj1 & Hj2).
    by exists (Datatypes.S (Datatypes.S j)).
Qed.

Section Announced.
Context `{DataLayer}.

Lemma emits_call {A} (c : Call) (k : World -> Result A * World) :
  ~ announcement c -> emits announced (call c k).
Proof. intros Hc w. unfold call. destruct (fault c); cbn; by apply announced_one. Qed.

Lemma emits_save (task : JsObj) :
  emits announced
    (Task_save task;;
     notify (TaskPublishDestroy (prop task "id"));;
     notify (TaskPublishCreate task);;
     mret task).
Proof.
  intros w. unfold Task_save, notify, call, mbind, M_bind.
  destruct (fault (TaskSave task)); cbn.
  - apply announced_one. tauto.
  - destruct (prop task "id") eqn:E; cbn;
      try (apply announced_one; cbn; tauto).
    rewrite <- E. apply announced_task. constructor.
Qed.

Lemma emits_moveTask (storyNew : option JsObj) (first task : JsObj) :
  emits announced (Split.moveTask storyNew first task).
Proof.
  unfold Split.moveTask.
  apply (emits_bind announced announced_app).
  - apply emits_call. cbn. tauto.
  - intros fetched. apply emits_save.
Qed.

Lemma emits_updateOldStory (storyId : Z) :
  emits announced (Split.updateOldStory storyId).
Proof.
  intros w. rewrite updateOldStory_run. cbn zeta.
  destruct (fault _); cbn; [apply announced_one; cbn; tauto|].
  destruct (db_stories w !! storyId); cbn; [|apply announced_one; cbn; tauto].
  apply announced_update; [apply map_union_subseteq_l | constructor].
Qed.

Lemma emits_updateNewStory (data : Split.Data) :
  emits announced (Split.updateNewStory data).
Proof.
  intros w. rewrite updateNewStory_run. cbn zeta.
  destruct (fault _); cbn; [apply announced_one; cbn; tauto|].
  destruct (Split.field (Split.storyNew data) "id"); cbn;
    try (apply announced_one; cbn; tauto).
  destruct (db_stories w !! n); cbn; [|apply announced_one; cbn; tauto].
  apply announced_update; [apply map_union_subseteq_l | constructor].
Qed.

Lemma emits_finalize (storyId : Z) (data : Split.Data) :
  emits announced (Split.finalizeStorySplit storyId data).
Proof.
  unfold Split.finalizeStorySplit.
  apply (emits_bind announced announced_app).
  - apply (emits_parallel announced announced_app);
      [apply emits_updateOldStory | apply emits_updateNewStory].
  - intros [old new]. apply (emits_ret announced announced_nil).
Qed.

Lemma emits_createNewStory (storyId sprintId : Z) (story : JsObj) :
  emits announced (Split.createNewStory storyId sprintId story).
Proof.
  intros w. unfold Split.createNewStory, Story_create, notify, call, mbind, M_bind.
  destruct (fault _); cbn; [apply announced_one; cbn; tauto|].
  apply announced_create. constructor.
Qed.

(** In every run of the split, whatever fails, each announcement directly
    follows the write it announces and no announcement stands alone: a
    created story is announced right after [Story.create], an updated story
    right after its [Story.update] with the fields of the patch, and a task
    right after its [save], first as destroyed under its id, then as
    created. *)
Theorem split_announces_after_writes (storyId sprintId projectId : Z) (w : World) :
  let l := calls (Split.split storyId sprintId projectId w) in
  announced l /\
  forall i t, l !! i = Some (TaskPublishCreate t) ->
    exists j, i = Datatypes.S (Datatypes.S j) /\
              l !! j = Some (TaskSave t) /\
              l !! Datatypes.S j = Some (TaskPublishDestroy (prop t "id")).
Proof.
  cbn zeta.
  assert (announced (calls (Split.split storyId sprintId projectId w))) as Ha;
    [|split; [exact Ha | intros i t; by apply announced_task_create]].
  revert w. change (emits announced (Split.split storyId sprintId projectId)).
  unfold Split.split.
  apply (emits_bind announced announced_app); [apply emits_call; cbn; tauto|].
  intros story. unfold Split.splitStory.
  apply (emits_bind announced announced_app).
  - apply (emits_parallel announced announced_app);
      [apply emits_createNewStory | apply emits_call; cbn; tauto].
  - intros [newStory phases]. destruct phases as [|phase0 rest].
    + apply emits_finalize.
    + unfold Split.changeTasks.
      apply (emits_bind announced announced_app); [apply emits_call; cbn; tauto|].
      intros fetched.
      apply (emits_bind announced announced_app).
      * unfold Split.moveTasks.
        apply (emits_map announced announced_nil announced_app).
        intros t. apply emits_moveTask.
      * intros moved. apply emits_finalize.
Qed.

End Announced.

(** ** What a split leaves alone *)

Section WritesAt.
Context `{DataLayer}.
Context (I : World -> Prop) (K : Z -> Prop).
Hypothesis I_tasks : forall f w, I w -> I (set_tasks f w).
Hypothesis I_at : forall k v w, K k -> I w -> I (set_stories <[k := v]> w).

Let any (c : Call) : Prop := True.

Lemma hoare_Story_update_at (id : JsVal) (patch : JsObj) :
  (forall k, id = VNum k -> K k) ->
  hoare I any (Story_update id patch) (fun _ => True).
Proof.
  intros Hk. apply hoare_call; [done|].
  intros w Hw. destruct id; cbn; try done.
  destruct (db_stories w !! n); cbn; [|done]. split; [|done].
  apply I_at; [by apply Hk | done].
Qed.

Lemma hoare_finalize_at (storyId : Z) (data : Split.Data) :
  K storyId ->
  (forall k, Split.field (Split.storyNew data) "id" = VNum k -> K k) ->
  hoare I any (Split.finalizeStorySplit storyId data) (fun _ => True).
Proof.
  intros Ks Kn. unfold Split.finalizeStorySplit.
  eapply hoare_bind.
  - apply hoare_parallel_any.
    + unfold Split.updateOldStory.
      eapply hoare_bind; [by apply (hoare_now I any (fun _ => True))|]. intros date _.
      eapply hoare_bind.
      { apply hoare_Story_update_at. by intros k [= <-]. }
      intros [|story ?] _; [apply hoare_throw|].
      eapply hoare_bind; [by apply hoare_notify|]. intros _ _. by apply hoare_ret.
    + unfold Split.updateNewStory.
      eapply hoare_bind; [by apply hoare_Story_update_at|].
      intros [|story ?] _; [apply hoare_throw|].
      eapply hoare_bind; [by apply hoare_notify|]. intros _ _. by apply hoare_ret.
  - intros [old new] _. by apply hoare_ret.
Qed.

Lemma hoare_moveTask_at (storyNew : option JsObj) (first task : JsObj) :
  hoare I any (Split.moveTask storyNew first task) (fun _ => True).
Proof.
  unfold Split.moveTask.
  eapply hoare_bind.
  { apply (hoare_call _ _ _ _ (fun _ => True)); [done | done]. }
  intros fetched _.
  eapply hoare_bind.
  { apply (hoare_call _ _ _ _ (fun _ => True)); [done|].
    intros w Hw. destruct (prop _ "id"); cbn; try done.
    split; [by apply I_tasks | done]. }
  intros _ _.
  eapply hoare_bind; [by apply hoare_notify|]. intros _ _.
  eapply hoare_bind; [by apply hoare_notify|]. intros _ _.
  by apply hoare_ret.
Qed.

Lemma hoare_afterStageA_at (storyId sprintId projectId : Z) (w : World)
    (story : JsObj) :
  K storyId -> K (next_id w) ->
  hoare I any (afterStageA storyId sprintId projectId w story) (fun _ => True).
Proof.
  intros Ks Kn. unfold afterStageA.
  assert (forall tasks n k,
            Split.field (Split.storyNew
              (Split.mkData None (Some (createdStory storyId sprintId w story)) tasks n))
              "id" = VNum k -> K k) as Hid.
  { intros tasks n k. cbn [Split.storyNew]. rewrite created_id. by intros [= <-]. }
  destruct (openPhases projectId w) as [|phase0 rest].
  - apply hoare_finalize_at; [done | apply Hid].
  - unfold Split.changeTasks.
    eapply hoare_bind.
    { apply (hoare_call _ _ _ _ (fun _ => True)); [done | done]. }
    intros fetched _.
    eapply hoare_bind.
    { unfold Split.moveTasks. apply hoare_map with (R := fun _ _ => True).
      intros t _. apply hoare_moveTask_at. }
    intros moved _. apply hoare_finalize_at; [done | apply Hid].
Qed.

End WritesAt.

Lemma split_frame_refl (storyId : Z) (w : World) : split_frame storyId w w.
Proof. unfold split_frame, tables_kept. split_and!; try done; lia. Qed.

(** Whatever fails, a split leaves the phases, users, types, ledger, roles
    and clock of the store as they are and writes no story but the source
    story and the new one; it takes at most one new identity. *)
Theorem split_keeps_rest `{DataLayer} (storyId sprintId projectId : Z) (w : World) :
  split_frame storyId w (world (Split.split storyId sprintId projectId w)).
Proof.
  rewrite split_run.
  destruct (fault (GetStory storyId)); [apply split_frame_refl|].
  destruct (db_stories w !! storyId) as [story|]; [|apply split_frame_refl].
  cbn zeta.
  destruct (fault (StoryCreate _)); [apply split_frame_refl|].
  assert (split_frame storyId w (createdWorld storyId sprintId w story)) as Hc.
  { unfold split_frame, tables_kept, createdWorld. cbn. split_and!; try done; try lia.
    intros k _ Hk. by rewrite lookup_insert_ne. }
  destruct (fault (GetPhases _)); [exact Hc|]. cbn [world].
  assert (forall k v w', k = storyId \/ k = next_id w ->
            split_frame storyId w w' ->
            split_frame storyId w (set_stories <[k := v]> w')) as Hat.
  { intros k v w' Hk (Ht & Hs & Hn). split_and!; [exact Ht | | apply Hn | apply Hn].
    intros k' H1 H2. cbn. rewrite lookup_insert_ne; [by apply Hs|].
    destruct Hk; congruence. }
  destruct (hoare_afterStageA_at (split_frame storyId w)
              (fun k => k = storyId \/ k = next_id w)
              (fun f w' Hw' => Hw') Hat storyId sprintId projectId w story
              (or_introl eq_refl) (or_intror eq_refl)
              (createdWorld storyId sprintId w story) Hc) as (_ & Hi & _).
  exact Hi.
Qed.

(** ** What a move changes of a task *)

Lemma same_except_move_assign (t o : JsObj) (a b c : JsVal) :
  same_except_move t o ->
  same_except_move t
    (assign "timeStart" a (assign "phaseId" b (assign "storyId" c o))).
Proof.
  intros Ho f H1 H2 H3. rewrite !prop_assign_ne by done. by apply Ho.
Qed.

Section MoveFrame.
Context `{DataLayer}.
Variable tasks0 : gmap Z JsObj.
Hypothesis wf0 : forall k t, tasks0 !! k = Some t -> prop t "id" = VNum k.

Lemma task_inv_lookup (w : World) (k : Z) (o : JsObj) :
  task_inv tasks0 w -> db_tasks w !! k = Some o ->
  exists t, tasks0 !! k = Some t /\ same_except_move t o /\ prop o "id" = VNum k.
Proof.
  intros Hw Ho. specialize (Hw k). rewrite Ho in Hw.
  destruct (tasks0 !! k) as [t|] eqn:Et; [|done].
  exists t. split_and!; [done | done |].
  rewrite Hw by done. by apply wf0.
Qed.

Lemma hoare_moveTask_within (storyNew : option JsObj) (first task : JsObj) :
  (exists k, prop task "id" = VNum k /\ is_Some (tasks0 !! k)) ->
  hoare (task_inv tasks0) (saves (moved_within tasks0))
    (Split.moveTask storyNew first task) (moved_within tasks0).
Proof.
  intros (k & Hid & [t Ht]). unfold Split.moveTask. rewrite Hid.
  eapply (hoare_bind _ _ _ _
            (fun o => same_except_move t o /\ prop o "id" = VNum k)).
  { apply hoare_call; [done|]. intros w Hw. cbn. split; [done|].
    destruct (db_tasks w !! k) as [o|] eqn:Eo; [|done].
    intros a [= <-].
    destruct (task_inv_lookup w k o Hw Eo) as (t' & Ht' & Hs & Ho).
    assert (t' = t) as -> by congruence. done. }
  intros o [Hso Hoid]. cbn zeta.
  set (saved := assign "timeStart" _ (assign "phaseId" _ (assign "storyId" _ o))).
  assert (same_except_move t saved) as Hsaved by (by apply same_except_move_assign).
  assert (prop saved "id" = VNum k) as Hsid.
  { unfold saved. by rewrite !prop_assign_ne. }
  assert (moved_within tasks0 saved) as Hm by (by exists k, t).
  eapply hoare_bind.
  { apply (hoare_call _ _ _ _ (fun _ => True)); [done|].
    intros w Hw. rewrite Hsid. cbn. split; [|done].
    intros k'. cbn. destruct (decide (k = k')) as [<-|Hne].
    - by rewrite lookup_insert_eq, Ht.
    - rewrite lookup_insert_ne by done. apply Hw. }
  intros _ _.
  eapply hoare_bind; [by apply hoare_notify|]. intros _ _.
  eapply hoare_bind; [by apply hoare_notify|]. intros _ _.
  by apply hoare_ret.
Qed.

End MoveFrame.

Lemma task_inv_refl (w : World) : task_inv (db_tasks w) w.
Proof. intros k. by destruct (db_tasks w !! k). Qed.

(** Whatever the destination and whatever fails, a split saves only tasks
    of the store, each under its own identity and changed at most in
    [storyId], [phaseId] and [timeStart]; it adds no task and removes none,
    and the stored tasks still carry their own identity. *)
Theorem split_moves_within `{DataLayer} (storyId sprintId projectId : Z) (w : World) :
  tasks_wf w ->
  let r := Split.split storyId sprintId projectId w in
  (forall o, TaskSave o ∈ calls r -> moved_within (db_tasks w) o) /\
  (forall k, db_tasks (world r) !! k = None <-> db_tasks w !! k = None) /\
  (forall k o, db_tasks (world r) !! k = Some o ->
     exists t, db_tasks w !! k = Some t /\ same_except_move t o) /\
  tasks_wf (world r).
Proof.
  intros Hwf r.
  assert (Forall (saves (moved_within (db_tasks w))) (calls r) /\
          task_inv (db_tasks w) (world r)) as [Hc Hi].
  { subst r. rewrite split_run. pose proof (task_inv_refl w) as Hw.
    destruct (fault (GetStory storyId)); [split; [by repeat constructor | done]|].
    destruct (db_stories w !! storyId) as [story|];
      [|split; [by repeat constructor | done]].
    cbn zeta.
    destruct (fault (StoryCreate _)); [split; [by repeat constructor | done]|].
    destruct (fault (GetPhases _)); [split; [by repeat constructor | done]|].
    cbn [calls world].
    assert (hoare (task_inv (db_tasks w)) (saves (moved_within (db_tasks w)))
              (afterStageA storyId sprintId projectId w story) (fun _ => True)) as Hrest.
    { unfold afterStageA. destruct (openPhases projectId w) as [|phase0 rest].
      - eapply hoare_conseq.
        + apply hoare_finalize; [by intros f w' Hw' | apply story_call_saves].
        + done.
      - eapply hoare_conseq.
        + apply (hoare_changeTasks storyId _ _
                   (fun f w' (Hw' : task_inv (db_tasks w) w') => Hw')
                   (story_call_saves _) _ phase0 (phase0 :: rest)
                   (Forall (fun t => exists k, prop t "id" = VNum k /\
                                               is_Some (db_tasks w !! k)))
                   (fun _ o => moved_within (db_tasks w) o)); [done | |].
          * intros w' Hw'. apply Forall_forall. intros t Ht%filter_elem.
            apply stored_tasks_elem in Ht as [k Hk].
            destruct (task_inv_lookup (db_tasks w) Hwf w' k t Hw' Hk)
              as (t0 & Ht0 & _ & Hid).
            exists k. split; [done | by exists t0].
          * intros fetched t Hf Ht. rewrite Forall_forall in Hf.
            by apply hoare_moveTask_within, Hf.
        + done. }
    destruct (Hrest (createdWorld storyId sprintId w story) Hw) as (Hc & Hi & _).
    split; [|done]. apply Forall_app. split; [by repeat constructor | done]. }
  split_and!.
  - intros o Ho. rewrite Forall_forall in Hc. apply (Hc _ Ho).
  - intros k. specialize (Hi k).
    destruct (db_tasks (world r) !! k), (db_tasks w !! k); done.
  - intros k o Ho. specialize (Hi k). rewrite Ho in Hi.
    destruct (db_tasks w !! k) as [t|]; [|done]. by exists t.
  - intros k o Ho.
    destruct (task_inv_lookup (db_tasks w) Hwf (world r) k o Hi Ho) as (_ & _ & _ & Hid).
    done.
Qed.

Lemma split_moves_within_witness :
  let r := @Split.split plain_layer 7 0 1 Demo.w0 in
  (exists o, TaskSave o ∈ calls r /\ moved_within (db_tasks Demo.w0) o) /\
  tasks_wf (world r).
Proof.
  destruct (@split_moves_within plain_layer 7 0 1 Demo.w0 demo_tasks_wf)
    as (Hc & _ & _ & Hwf).
  split; [|exact Hwf].
  exists (assign "timeStart" VNull
            (assign "phaseId" (VNum 11) (assign "storyId" (VNum 100) Demo.task1))).
  assert (TaskSave
            (assign "timeStart" VNull
               (assign "phaseId" (VNum 11) (assign "storyId" (VNum 100) Demo.task1)))
          ∈ calls (@Split.split plain_layer 7 0 1 Demo.w0)) as Hin.
  { apply (list_elem_of_lookup_2 _ 10). vm_compute. reflexivity. }
  split; [exact Hin | exact (Hc _ Hin)].
Defined.

(** ** The [tasks] action only reads *)

Section ReadOnly.
Context `{DataLayer}.
Variables (storyId : Z) (w0 : World).

Let unchanged (w : World) : Prop := w = w0.

Lemma hoare_query {A} (c : Call) (f : World -> Result A) (Q : A -> Prop) :
  query_call c ->
  (forall a, f w0 = Ok a -> Q a) ->
  hoare unchanged query_call (call c (fun w => (f w, w))) Q.
Proof.
  intros Hc HQ. apply hoare_call; [done|]. intros w ->. cbn. by split.
Qed.

Lemma view_tasks (types users : list JsObj) (phases : list Tasks.PhaseView)
    (tasks : list JsObj) :
  Tasks.task <$> (Tasks.viewTask types users phases <$> tasks) = tasks.
Proof. induction tasks as [|t ts IH]; [done|]. cbn. by f_equal. Qed.

Lemma view_phases (a b : Z) (phases : list Tasks.DurPhase) :
  Tasks.phase <$> (Tasks.viewPhase a b <$> phases) = Tasks.dp_phase <$> phases.
Proof. induction phases as [|p ps IH]; [done|]. cbn. by f_equal. Qed.

Lemma hoare_tasks_action_reads :
  hoare unchanged query_call (Tasks.tasks_action storyId) (fetched_for storyId w0).
Proof.
  unfold Tasks.tasks_action.
  eapply (hoare_bind _ _ _ _
            (fun '(role, (story, (tasks, (users, types)))) =>
               db_roles w0 !! storyId = Some role /\
               db_stories w0 !! storyId = Some story /\
               tasks = List.filter (matches (Tasks.tasksWhere storyId)) (stored_tasks w0) /\
               users = List.filter (matches Tasks.noWhere) (db_users w0) /\
               types = List.filter (matches Tasks.noWhere) (db_types w0))).
  { eapply hoare_conseq.
    - apply hoare_parallel.
      + apply (hoare_query _ _ (fun role => db_roles w0 !! storyId = Some role)); [done|].
        intros a. by destruct (db_roles w0 !! storyId); intros [= <-].
      + apply hoare_parallel.
        * apply (hoare_query _ _ (fun s => db_stories w0 !! storyId = Some s)); [done|].
          intros a. by destruct (db_stories w0 !! storyId); intros [= <-].
        * apply hoare_parallel.
          -- apply (hoare_query _ _ (fun l => l = List.filter (matches (Tasks.tasksWhere storyId)) (stored_tasks w0))); [done|].
             by intros a [= <-].
          -- apply hoare_parallel.
             ++ apply (hoare_query _ _ (fun l => l = List.filter (matches Tasks.noWhere) (db_users w0))); [done|].
                by intros a [= <-].
             ++ apply (hoare_query _ _ (fun l => l = List.filter (matches Tasks.noWhere) (db_types w0))); [done|].
                by intros a [= <-].
    - intros (role & story & tasks & users & types). cbn. tauto. }
  intros (role & story & tasks & users & types) (Hrole & Hstory & Htasks & Husers & Htypes).
  eapply (hoare_bind _ _ _ _
            (fun l => l = List.filter (matches (Tasks.phasesWhere story)) (db_phases w0))).
  { apply hoare_query; [done|]. by intros a [= <-]. }
  intros phases Hphases.
  eapply hoare_bind.
  { unfold Tasks.fetchPhaseDuration.
    apply hoare_map with (R := fun phase p => Tasks.dp_phase p = phase).
    intros phase _. unfold Tasks.phaseDuration.
    eapply hoare_bind.
    - unfold PhaseDuration_sum. by apply (hoare_query _ _ (fun _ => True)).
    - intros r _. by apply hoare_ret. }
  intros dps Hdps. apply hoare_ret. unfold fetched_for. cbn.
  rewrite view_tasks, view_phases. split_and!; try done.
  rewrite <- Hphases. clear -Hdps. induction Hdps as [|? ? ? ? Hp]; [done|].
  cbn. by f_equal.
Qed.

End ReadOnly.

(** Whatever fails, the [tasks] action only queries: it makes no call that
    writes or announces, and it leaves the store as it is. *)
Theorem tasks_action_reads_only `{DataLayer} (storyId : Z) (w : World) :
  let r := Tasks.tasks_action storyId w in
  world r = w /\ Forall query_call (calls r).
Proof.
  destruct (hoare_tasks_action_reads storyId w w eq_refl) as (Hc & Hw & _).
  by split.
Qed.

(** A report shows what the store holds: the role and the story of the
    given id, the tasks, users and types the criteria select, and one phase
    per phase of the story's project, in the order of the query. *)
Theorem tasks_action_shows_store `{DataLayer} (storyId : Z) (w : World)
    (rep : Tasks.Report) :
  res (Tasks.tasks_action storyId w) = Ok rep ->
  db_roles w !! storyId = Some (Tasks.role rep) /\
  db_stories w !! storyId = Some (Tasks.story rep) /\
  Tasks.task <$> Tasks.tasks rep
    = List.filter (matches (Tasks.tasksWhere storyId)) (stored_tasks w) /\
  Tasks.users rep = List.filter (matches Tasks.noWhere) (db_users w) /\
  Tasks.types rep = List.filter (matches Tasks.noWhere) (db_types w) /\
  Tasks.phase <$> Tasks.phases rep
    = List.filter (matches (Tasks.phasesWhere (Tasks.story rep))) (db_phases w).
Proof.
  intros Hrep.
  destruct (hoare_tasks_action_reads storyId w w eq_refl) as (_ & _ & Hq).
  exact (Hq rep Hrep).
Qed.

Lemma tasks_action_shows_store_witness :
  db_stories Demo.wExample !! 7 = Some (Tasks.story Demo.report) /\
  Tasks.phase <$> Tasks.phases Demo.report = [Demo.phase0; Demo.phaseB; Demo.phaseA].
Proof.
  destruct (@tasks_action_shows_store plain_layer 7 Demo.wExample Demo.report demo_report)
    as (_ & Hs & _ & _ & _ & Hp).
  split; [exact Hs|]. rewrite Hp. vm_compute. reflexivity.
Defined.

(** ** The first phase among phases of equal order *)

Lemma earliest_step (pre : list JsObj) (a p : JsObj) :
  numeric_order p ->
  earliest_min_order a pre ->
  earliest_min_order
    (if js_lt (prop p "order") (prop a "order") then p else a) (pre ++ [p]).
Proof.
  intros [n Hn] (i & m & Hi & Hm & Hall & Hbefore).
  rewrite Hn, Hm. cbn [js_lt ToNumber].
  assert (i < length pre)%nat as Hlen by (by eapply lookup_lt_Some).
  destruct (n <? m) eqn:E.
  - apply Z.ltb_lt in E. exists (length pre), n. split_and!.
    + rewrite lookup_app_r by lia. by rewrite Nat.sub_diag.
    + done.
    + intros j q k Hj Hk. apply lookup_app_Some in Hj as [Hj|[_ Hj]].
      * specialize (Hall j q k Hj Hk). lia.
      * apply list_lookup_singleton_Some in Hj as [_ <-].
        rewrite Hn in Hk. injection Hk as <-. lia.
    + intros j q k Hlt Hj Hk. apply lookup_app_Some in Hj as [Hj|[Hge _]]; [|lia].
      specialize (Hall j q k Hj Hk). lia.
  - apply Z.ltb_ge in E. exists i, m. split_and!.
    + by apply lookup_app_l_Some.
    + done.
    + intros j q k Hj Hk. apply lookup_app_Some in Hj as [Hj|[_ Hj]].
      * by apply (Hall j q k).
      * apply list_lookup_singleton_Some in Hj as [_ <-].
        rewrite Hn in Hk. injection Hk as <-. lia.
    + intros j q k Hlt Hj Hk. apply lookup_app_Some in Hj as [Hj|[Hge _]]; [|lia].
      by apply (Hbefore j q k).
Qed.

Lemma earliest_fold (l pre : list JsObj) (a : JsObj) :
  Forall numeric_order l ->
  earliest_min_order a pre ->
  earliest_min_order (Split.firstPhase a l) (pre ++ l).
Proof.
  intros Hnum. revert pre a.
  induction Hnum as [|p ps Hp _ IH]; intros pre a Ha.
  - by rewrite app_nil_r.
  - unfold Split.firstPhase in *. cbn [fold_left].
    rewrite (cons_middle p pre ps), app_assoc.
    apply IH. by apply earliest_step.
Qed.

Lemma firstPhase_earliest (phase0 : JsObj) (rest : list JsObj) :
  Forall numeric_order (phase0 :: rest) ->
  earliest_min_order (Split.firstPhase phase0 (phase0 :: rest)) (phase0 :: rest).
Proof.
  intros Hnum. inversion Hnum as [|? ? [m0 H0] Hrest]; subst.
  assert (Split.firstPhase phase0 (phase0 :: rest) = Split.firstPhase phase0 rest) as ->.
  { unfold Split.firstPhase. cbn [fold_left]. rewrite H0. cbn [js_lt ToNumber].
    by rewrite Z.ltb_irrefl. }
  apply (earliest_fold rest [phase0] phase0 Hrest).
  exists 0%nat, m0. split_and!; [done | done | |].
  - intros j p n Hj Hn. apply list_lookup_singleton_Some in Hj as [_ <-].
    rewrite H0 in Hn. injection Hn as <-. lia.
  - intros j p n Hlt. lia.
Qed.

Lemma earliest_unique (a b : JsObj) (phases : list JsObj) :
  earliest_min_order a phases -> earliest_min_order b phases -> a = b.
Proof.
  intros (i & m & Hi & Hm & Hall & Hbefore) (j & n & Hj & Hn & Hall' & Hbefore').
  destruct (Nat.lt_trichotomy i j) as [Hlt|[->|Hlt]].
  - specialize (Hbefore' i a m Hlt Hi Hm). specialize (Hall j b n Hj Hn). lia.
  - rewrite Hi in Hj. by injection Hj.
  - specialize (Hbefore j b n Hlt Hj Hn). specialize (Hall' i a m Hi Hm). lia.
Qed.

Lemma hoare_afterStageA_first `{DataLayer} (storyId projectId : Z) (w : World)
    (story : JsObj) :
  let open := openPhases projectId w in
  let Q := fun task => exists first, earliest_min_order first open /\ backlog_task first task in
  Forall numeric_order open ->
  hoare (fun _ => True) (saves Q) (afterStageA storyId 0 projectId w story)
    (fun d => Forall Q (Split.tasks d)).
Proof.
  intros open Q Hnum. unfold afterStageA. fold open.
  destruct open as [|phase0 rest] eqn:Eo.
  - eapply hoare_conseq.
    + apply hoare_finalize; [done | apply story_call_saves].
    + cbn. intros d [-> _]. constructor.
  - pose proof (firstPhase_earliest phase0 rest Hnum) as Hmin.
    set (first := Split.firstPhase phase0 (phase0 :: rest)) in *.
    assert (forall t, backlog_task first t -> Q t) as HQ by (intros t Ht; by exists first).
    eapply hoare_conseq.
    + apply (hoare_changeTasks storyId (fun _ => True) (saves Q)
               (fun _ _ _ => Logic.I) (story_call_saves Q)
               _ phase0 (phase0 :: rest) (fun _ => True) (fun _ t => Q t));
        [done | done |].
      intros fetched t _ _. cbn [Split.storyNew]. fold first.
      intros w' Hw'.
      assert (loose_eq_num
                (Split.field (Some (createdStory storyId 0 w story)) "sprintId") 0 = true)
        as Hb by (by rewrite created_sprintId).
      destruct (hoare_moveTask_backlog _ first t Hb w' Hw') as (Hc & _ & Hr).
      split_and!; [|done|].
      * eapply Forall_impl; [apply Hc|]. intros [] Hs; try done. by apply HQ.
      * intros a Ha. by apply HQ, Hr.
    + cbn. intros d (fetched & _ & HF & _).
      clear -HF. induction HF; by constructor.
Qed.

(** On a split into the backlog all moved tasks land in one phase, the
    earliest of the fetched open phases of minimum [order]: of several open
    phases with the same smallest order the one that comes first in the
    fetched list is taken, since the search replaces its candidate only by a
    phase of strictly smaller order. *)
Theorem backlog_first_phase `{DataLayer} (storyId projectId : Z) (w : World) :
  let r := Split.split storyId 0 projectId w in
  let open := openPhases projectId w in
  Forall numeric_order open ->
  (forall task, TaskSave task ∈ calls r ->
     exists first, earliest_min_order first open /\ backlog_task first task) /\
  (forall t1 t2, TaskSave t1 ∈ calls r -> TaskSave t2 ∈ calls r ->
     prop t1 "phaseId" = prop t2 "phaseId").
Proof.
  intros r open Hnum.
  set (Q := fun task => exists first, earliest_min_order first open /\ backlog_task first task).
  assert (Forall (saves Q) (calls r)) as Hc.
  { subst r. rewrite split_run.
    destruct (fault (GetStory storyId)); [by repeat constructor|].
    destruct (db_stories w !! storyId) as [story|]; [|by repeat constructor].
    cbn zeta.
    destruct (fault (StoryCreate _)); [by repeat constructor|].
    destruct (fault (GetPhases _)); [by repeat constructor|].
    cbn [calls].
    destruct (hoare_afterStageA_first storyId projectId w story Hnum
                (createdWorld storyId 0 w story) Logic.I) as (Hc & _ & _).
    apply Forall_app. split; [by repeat constructor | done]. }
  rewrite Forall_forall in Hc.
  assert (forall task, TaskSave task ∈ calls r -> Q task) as HQ.
  { intros task Ht. apply (Hc _ Ht). }
  split; [exact HQ|].
  intros t1 t2 (f1 & Hf1 & _ & Hp1)%HQ (f2 & Hf2 & _ & Hp2)%HQ.
  by rewrite Hp1, Hp2, (earliest_unique f1 f2 open Hf1 Hf2).
Qed.

Lemma backlog_first_phase_witness :
  exists task,
    TaskSave task ∈ calls (@Split.split plain_layer 7 0 1 Demo.w0) /\
    exists first,
      earliest_min_order first (@openPhases plain_layer 1 Demo.w0) /\
      backlog_task first task.
Proof.
  destruct (@backlog_first_phase plain_layer 7 1 Demo.w0 demo_numeric_orders) as [Hc _].
  exists (assign "timeStart" VNull
            (assign "phaseId" (VNum 11) (assign "storyId" (VNum 100) Demo.task1))).
  assert (TaskSave
            (assign "timeStart" VNull
               (assign "phaseId" (VNum 11) (assign "storyId" (VNum 100) Demo.task1)))
          ∈ calls (@Split.split plain_layer 7 0 1 Demo.w0)) as Hin.
  { apply (list_elem_of_lookup_2 _ 10). vm_compute. reflexivity. }
  split; [exact Hin | exact (Hc _ Hin)].
Defined.

(** ** A failure while tasks are reassigned *)

Section TaskFailure.
Context `{DataLayer}.

Lemma finalize_error (storyId : Z) (data : Split.Data) (w : World) (e : Error) :
  res (Split.finalizeStorySplit storyId data w) = Err e ->
  e = TypeError \/ exists c, e = IoError c /\ story_call c.
Proof.
  unfold Split.finalizeStorySplit, mbind, M_bind, async_parallel.
  rewrite updateOldStory_run. cbn zeta.
  destruct (fault (StoryUpdate (VNum storyId) (oldStoryPatch w))); cbn [res world calls].
  - destruct (res (Split.updateNewStory data w)); cbn; intros [= <-]; right; by eexists.
  - destruct (db_stories w !! storyId); cbn [res world calls]; [|intros [= <-]; by left].
    rewrite updateNewStory_run. cbn zeta.
    destruct (fault (StoryUpdate _ _)); cbn; [intros [= <-]; right; by eexists|].
    destruct (Split.field (Split.storyNew data) "id"); cbn;
      try (intros [= <-]; by left).
    destruct (_ !! _); cbn; [done | intros [= <-]; by left].
Qed.

Lemma hoare_moveTask_stories (S : gmap Z JsObj) (storyNew : option JsObj)
    (first task : JsObj) :
  hoare (fun w => db_stories w = S) task_call
    (Split.moveTask storyNew first task) (fun _ => True).
Proof.
  unfold Split.moveTask.
  eapply hoare_bind.
  { apply (hoare_call _ _ _ _ (fun _ => True)); [done | done]. }
  intros fetched _.
  eapply hoare_bind.
  { apply (hoare_call _ _ _ _ (fun _ => True)); [done|].
    intros w Hw. by destruct (prop _ "id"). }
  intros _ _.
  eapply hoare_bind; [by apply hoare_notify|]. intros _ _.
  eapply hoare_bind; [by apply hoare_notify|]. intros _ _.
  by apply hoare_ret.
Qed.

Lemma changeTasks_task_failure (storyId : Z) (data : Split.Data) (phase0 : JsObj)
    (phases : list JsObj) (w : World) (c : Call) :
  res (Split.changeTasks storyId data phase0 phases w) = Err (IoError c) ->
  task_call c ->
  Forall task_call (calls (Split.changeTasks storyId data phase0 phases w)) /\
  db_stories (world (Split.changeTasks storyId data phase0 phases w)) = db_stories w.
Proof.
  unfold Split.changeTasks, getTasks, mbind, M_bind, call.
  destruct (fault (GetTasks _)); cbn [res world calls fst snd].
  { intros _ _. split; [by apply Forall_singleton | done]. }
  set (first := Split.firstPhase phase0 phases).
  set (fetched := List.filter _ (stored_tasks w)).
  assert (hoare (fun w' => db_stories w' = db_stories w) task_call
            (Split.moveTasks (Split.storyNew data) first fetched) (fun _ => True)) as Hm.
  { unfold Split.moveTasks. eapply hoare_conseq.
    - apply hoare_map with (R := fun _ _ => True).
      intros t _. apply hoare_moveTask_stories.
    - done. }
  destruct (Hm w eq_refl) as (Hc & Hw & _).
  destruct (res (Split.moveTasks _ _ _ w)) as [moved|e] eqn:E; cbn [res world calls].
  - intros He%finalize_error Ht. exfalso.
    destruct He as [He|(c' & [= <-] & Hs)]; [done|].
    by apply (story_call_not_task c).
  - intros _ _. split; [|done]. apply Forall_cons. by split.
Qed.

End TaskFailure.

(** When a call on tasks fails the split answers with that failure before
    the finalize stage: no story is updated, so the source story stays as
    it was, not closed, while the new story has already been created and is
    left behind; the calls after the first stage are calls on tasks only
    (tasks moved before the failure stay moved). *)
Theorem split_task_failure `{DataLayer} (storyId sprintId projectId : Z)
    (w : World) (c : Call) :
  db_stories w !! next_id w = None ->
  task_call c ->
  let r := Split.split storyId sprintId projectId w in
  res r = Err (IoError c) ->
  exists story,
    db_stories w !! storyId = Some story /\
    db_stories (world r) !! storyId = Some story /\
    db_stories (world r) !! next_id w = Some (createdStory storyId sprintId w story) /\
    Forall (fun c' => ~ story_call c') (calls r).
Proof.
  intros Hfresh Hc r. subst r. rewrite split_run.
  destruct (fault (GetStory storyId)); [by intros [= <-]|].
  destruct (db_stories w !! storyId) as [story|] eqn:Es; [|by intros [= <-]].
  cbn zeta.
  destruct (fault (StoryCreate _)); [by intros [= <-]|].
  destruct (fault (GetPhases _)); [by intros [= <-]|].
  cbn [res world calls]. unfold afterStageA.
  assert (next_id w <> storyId) as Hne by congruence.
  set (w1 := createdWorld storyId sprintId w story).
  assert (db_stories w1 !! storyId = Some story) as Hs1.
  { unfold w1, createdWorld. cbn. by rewrite lookup_insert_ne. }
  assert (db_stories w1 !! next_id w = Some (createdStory storyId sprintId w story)) as Hn1.
  { unfold w1, createdWorld. cbn. by rewrite lookup_insert_eq. }
  destruct (openPhases projectId w) as [|phase0 rest].
  - intros He%finalize_error. exfalso.
    destruct He as [He|(c' & [= <-] & Hs)]; [done|].
    by apply (story_call_not_task c).
  - intros He. destruct (changeTasks_task_failure _ _ _ _ _ _ He Hc) as [Hcalls Hw].
    exists story. rewrite Hw. split_and!; [done | done | done |].
    apply Forall_app. split; [repeat constructor; cbn; tauto|].
    eapply Forall_impl; [exact Hcalls|]. intros c' Ht Hs.
    by apply (story_call_not_task c').
Qed.

Lemma split_task_failure_witness :
  let r := @Split.split (faulty_layer task1_fails) 7 4 1 Demo.w0 in
  res r = Err (IoError (GetTask (VNum 1))) /\
  exists story,
    db_stories Demo.w0 !! 7 = Some story /\
    db_stories (world r) !! 7 = Some story /\
    db_stories (world r) !! 100 = Some (createdStory 7 4 Demo.w0 story) /\
    Forall (fun c' => ~ story_call c') (calls r).
Proof.
  assert (res (@Split.split (faulty_layer task1_fails) 7 4 1 Demo.w0)
          = Err (IoError (GetTask (VNum 1)))) as Hr by (vm_compute; reflexivity).
  split; [exact Hr|].
  exact (@split_task_failure (faulty_layer task1_fails) 7 4 1 Demo.w0
           (GetTask (VNum 1)) demo_fresh Logic.I Hr).
Defined.

Lemma split_create_fails_witness :
  let r := @Split.split (faulty_layer create_fails) 7 4 1 Demo.w0 in
  (exists e, res r = Err e) /\ world r = Demo.w0 /\
  Forall (fun c => ~ task_call c /\ ~ story_call c /\ ~ announcement c) (calls r).
Proof.
  exact (@split_create_fails (faulty_layer create_fails) 7 4 1 Demo.w0 Demo.story7
           demo_story eq_refl eq_refl).
Defined.

(** ** The answer of a split in which no call fails *)

Lemma newStoryPatch_fields (tasks : list JsObj) (n : JsObj) :
  prop (newStoryPatch tasks ∪ n) "isDone" = VBool false /\
  prop (newStoryPatch tasks ∪ n) "timeStart" = Split.newStoryTimeStart tasks /\
  prop (newStoryPatch tasks ∪ n) "timeEnd" = VNull /\
  forall f, f <> "isDone" -> f <> "timeStart" -> f <> "timeEnd" ->
            prop (newStoryPatch tasks ∪ n) f = prop n f.
Proof.
  unfold prop, newStoryPatch. split_and!.
  - rewrite (lookup_union_Some_l _ _ _ (VBool false)); [done|].
    apply lookup_insert_eq.
  - rewrite (lookup_union_Some_l _ _ _ (Split.newStoryTimeStart tasks)); [done|].
    rewrite lookup_insert_ne by done. apply lookup_insert_eq.
  - rewrite (lookup_union_Some_l _ _ _ VNull); [done|].
    rewrite !lookup_insert_ne by done. apply lookup_singleton_eq.
  - intros f H1 H2 H3. rewrite lookup_union_r; [done|].
    rewrite !lookup_insert_ne by done. by rewrite lookup_singleton_ne.
Qed.

Lemma created_parentId (storyId sprintId : Z) (w : World) (story : JsObj) :
  prop (createdStory storyId sprintId w story) "parentId" = VNum storyId.
Proof.
  unfold createdStory, prop. rewrite lookup_insert_ne by done.
  by rewrite cloneStory_lookup.
Qed.

Lemma movedTask_storyId (storyNew : option JsObj) (first t : JsObj) :
  prop (movedTask storyNew first t) "storyId" = Split.field storyNew "id".
Proof.
  unfold movedTask. cbn zeta. rewrite !prop_assign_ne by done. apply prop_assign_eq.
Qed.

Lemma split_success_run `{DataLayer} (storyId sprintId projectId : Z) (w : World)
    (story : JsObj) :
  (forall c, fault c = false) ->
  db_stories w !! storyId = Some story ->
  db_stories w !! next_id w = None ->
  tasks_wf w ->
  let r := Split.split storyId sprintId projectId w in
  let created := createdStory storyId sprintId w story in
  let first := match openPhases projectId w with
               | phase0 :: _ => Split.firstPhase phase0 (openPhases projectId w)
               | [] => ∅
               end in
  let tasks := movedTask (Some created) first <$> fetchedTasks storyId projectId w in
  res r = Ok (Split.mkData (Some (oldStoryPatch w ∪ story))
                (Some (newStoryPatch tasks ∪ created))
                tasks (Z.of_nat (length tasks))) /\
  db_stories (world r) !! storyId = Some (oldStoryPatch w ∪ story) /\
  db_stories (world r) !! next_id w = Some (newStoryPatch tasks ∪ created).
Proof.
  intros Hnf Hs Hfresh Hwf r created first tasks. subst r.
  assert (next_id w <> storyId) as Hne by congruence.
  rewrite split_run, !Hnf, Hs. cbn zeta. rewrite !Hnf. cbn [res world calls].
  set (w1 := createdWorld storyId sprintId w story).
  set (storyNew := Some created) in *.
  assert (db_stories w1 !! storyId = Some story) as Hs1.
  { unfold w1, createdWorld. cbn. by rewrite lookup_insert_ne. }
  assert (db_stories w1 !! next_id w = Some created) as Hn1.
  { unfold w1, createdWorld. cbn. by rewrite lookup_insert_eq. }
  assert (Split.field storyNew "id" = VNum (next_id w)) as Hid by apply created_id.
  assert (Split.field storyNew "id" <> VNum storyId) as Hid' by (rewrite Hid; congruence).
  unfold afterStageA. fold created. fold storyNew.
  unfold tasks, first, fetchedTasks. clear tasks first.
  destruct (openPhases projectId w) as [|phase0 rest] eqn:Eo.
  - cbn [fmap list_fmap length].
    destruct (finalize_success storyId (next_id w)
                (Split.mkData None storyNew [] 0) w1 story created) as [Hres Hnew];
      [apply Hnf | apply Hnf | done | done | done | done |].
    destruct (finalize_old_story storyId (Split.mkData None storyNew [] 0) w1 story)
      as [Hold _]; [apply Hnf | done | done |].
    by split_and!.
  - set (first := Split.firstPhase phase0 (phase0 :: rest)).
    set (ts := List.filter _ (stored_tasks w)).
    unfold Split.changeTasks, getTasks, call, mbind, M_bind.
    rewrite Hnf. cbn [res world calls fst snd]. fold first.
    change (stored_tasks w1) with (stored_tasks w). fold ts.
    destruct (moveTasks_run Hnf storyNew first ts w1) as (Hres & _ & Hst & Hck).
    { intros t Ht%filter_elem. apply stored_tasks_elem in Ht as [k Hk].
      exists k. split; [by apply Hwf | done]. }
    { apply filter_ids_NoDup, stored_ids_NoDup, Hwf. }
    cbn [Split.storyNew]. rewrite Hres. cbn [res world calls].
    set (w2 := world (Split.moveTasks storyNew first ts w1)) in *.
    set (moved := movedTask storyNew first <$> ts).
    destruct (finalize_success storyId (next_id w)
                (Split.mkData None storyNew moved (Z.of_nat (length moved)))
                w2 story created) as [Hfin Hnew];
      [apply Hnf | apply Hnf | done | done
      | by rewrite Hst | by rewrite Hst |].
    destruct (finalize_old_story storyId
                (Split.mkData None storyNew moved (Z.of_nat (length moved)))
                w2 story) as [Hold _]; [apply Hnf | by rewrite Hst | done |].
    cbn [Split.storyOld Split.storyNew Split.tasks Split.taskCnt] in *.
    assert (oldStoryPatch w2 = oldStoryPatch w) as Hp.
    { unfold oldStoryPatch. by rewrite Hck. }
    rewrite Hp in Hfin, Hold.
    by split_and!.
Qed.

(** When no call fails, the answer of a split reports what the store then
    holds: [storyOld] is the stored source story, the fetched story closed
    ([isDone] true, [timeEnd] the current time, every other field as
    fetched); [storyNew] is the stored new story, which has the new
    identity, [parentId] the source story, [sprintId] the destination,
    [isDone] false and [timeEnd] null; every task of the answer belongs to
    the new story and [taskCnt] is their number. *)
Theorem split_answer `{DataLayer} (storyId sprintId projectId : Z) (w : World)
    (story : JsObj) :
  (forall c, fault c = false) ->
  db_stories w !! storyId = Some story ->
  db_stories w !! next_id w = None ->
  tasks_wf w ->
  let r := Split.split storyId sprintId projectId w in
  exists data old new,
    res r = Ok data /\
    Split.storyOld data = Some old /\ Split.storyNew data = Some new /\
    db_stories (world r) !! storyId = Some old /\
    db_stories (world r) !! next_id w = Some new /\
    (prop old "isDone" = VBool true /\ prop old "timeEnd" = VDate (clock w) /\
     forall f, f <> "isDone" -> f <> "timeEnd" -> prop old f = prop story f) /\
    (prop new "id" = VNum (next_id w) /\ prop new "parentId" = VNum storyId /\
     prop new "sprintId" = VNum sprintId /\ prop new "isDone" = VBool false /\
     prop new "timeEnd" = VNull /\
     prop new "timeStart" = Split.newStoryTimeStart (Split.tasks data)) /\
    Forall (fun t => prop t "storyId" = VNum (next_id w)) (Split.tasks data) /\
    Split.taskCnt data = Z.of_nat (length (Split.tasks data)).
Proof.
  intros Hnf Hs Hfresh Hwf r.
  destruct (split_success_run storyId sprintId projectId w story Hnf Hs Hfresh Hwf)
    as (Hres & Hold & Hnew).
  set (created := createdStory storyId sprintId w story) in *.
  set (first := match openPhases projectId w with
                | phase0 :: _ => Split.firstPhase phase0 (openPhases projectId w)
                | [] => ∅
                end) in *.
  set (tasks := movedTask (Some created) first <$> fetchedTasks storyId projectId w) in *.
  assert (Forall (fun t => prop t "storyId" = VNum (next_id w)) tasks) as Htasks.
  { apply Forall_fmap, Forall_forall. intros t _. cbn.
    rewrite movedTask_storyId. apply created_id. }
  destruct (newStoryPatch_fields tasks created) as (Hd & Hts & Hte & Hrest).
  eexists _, _, _. split; [exact Hres|].
  cbn [Split.storyOld Split.storyNew Split.tasks Split.taskCnt].
  split_and!.
  - reflexivity.
  - reflexivity.
  - exact Hold.
  - exact Hnew.
  - apply oldStoryPatch_fields.
  - apply oldStoryPatch_fields.
  - apply oldStoryPatch_fields.
  - rewrite Hrest by done. apply (created_id storyId sprintId w story).
  - rewrite Hrest by done. apply created_parentId.
  - rewrite Hrest by done. apply (created_sprintId storyId sprintId w story).
  - exact Hd.
  - exact Hte.
  - exact Hts.
  - exact Htasks.
  - reflexivity.
Qed.

Lemma split_answer_witness :
  exists data new,
    res (@Split.split plain_layer 7 4 1 Demo.w0) = Ok data /\
    Split.storyNew data = Some new /\
    db_stories (world (@Split.split plain_layer 7 4 1 Demo.w0)) !! 100 = Some new /\
    prop new "parentId" = VNum 7 /\ prop new "sprintId" = VNum 4.
Proof.
  destruct (@split_answer plain_layer 7 4 1 Demo.w0 Demo.story7
              demo_no_fault demo_story demo_fresh demo_tasks_wf)
    as (data & old & new & Hr & _ & Hn & _ & Hw & _ & (_ & Hp & Hsp & _) & _).
  exists data, new. split_and!; [exact Hr | exact Hn | exact Hw | exact Hp | exact Hsp].
Defined.

Lemma movedTask_plain_start (storyNew : option JsObj) (first t : JsObj) :
  plain_start t -> plain_start (movedTask storyNew first t).
Proof.
  intros Ht. unfold plain_start, movedTask. cbn zeta. rewrite prop_assign_eq.
  destruct (loose_eq_num _ 0); [by left | exact Ht].
Qed.

Lemma fetchedTasks_stored `{DataLayer} (storyId projectId : Z) (w : World) (t : JsObj) :
  t ∈ fetchedTasks storyId projectId w -> exists k, db_tasks w !! k = Some t.
Proof.
  unfold fetchedTasks. destruct (openPhases projectId w).
  - by intros ?%elem_of_nil.
  - intros Ht%filter_elem. by apply stored_tasks_elem.
Qed.

(** When no call fails and every stored task has a start that is null or a
    date after the epoch, the new story is stored and answered with the
    latest start of the tasks moved to it as its [timeStart], and with null
    when none of them has a start (as on every move into the backlog, which
    clears the starts). *)
Theorem split_new_story_start `{DataLayer} (storyId sprintId projectId : Z)
    (w : World) (story : JsObj) :
  (forall c, fault c = false) ->
  db_stories w !! storyId = Some story ->
  db_stories w !! next_id w = None ->
  tasks_wf w ->
  (forall k t, db_tasks w !! k = Some t -> plain_start t) ->
  let r := Split.split storyId sprintId projectId w in
  exists data new,
    res r = Ok data /\ Split.storyNew data = Some new /\
    db_stories (world r) !! next_id w = Some new /\
    ((prop new "timeStart" = VNull /\
      Forall (fun t => prop t "timeStart" = VNull) (Split.tasks data)) \/
     (exists ms, prop new "timeStart" = VDate ms /\ 0 < ms /\
        (exists t, t ∈ Split.tasks data /\ prop t "timeStart" = VDate ms) /\
        forall t ms', t ∈ Split.tasks data -> prop t "timeStart" = VDate ms' ->
                      ms' <= ms)).
Proof.
  intros Hnf Hs Hfresh Hwf Hplain r.
  destruct (split_success_run storyId sprintId projectId w story Hnf Hs Hfresh Hwf)
    as (Hres & _ & Hnew).
  set (created := createdStory storyId sprintId w story) in *.
  set (first := match openPhases projectId w with
                | phase0 :: _ => Split.firstPhase phase0 (openPhases projectId w)
                | [] => ∅
                end) in *.
  set (tasks := movedTask (Some created) first <$> fetchedTasks storyId projectId w) in *.
  assert (Forall plain_start tasks) as Hp.
  { apply Forall_fmap, Forall_forall. intros t [k Hk]%fetchedTasks_stored. cbn.
    apply movedTask_plain_start. by apply (Hplain k). }
  destruct (newStoryPatch_fields tasks created) as (_ & Hts & _).
  eexists _, _. split; [exact Hres|].
  cbn [Split.storyNew Split.tasks]. split; [done|]. split; [exact Hnew|].
  rewrite Hts. by apply newStoryTimeStart_latest.
Qed.

Lemma demo_plain_starts : forall k t, db_tasks Demo.w0 !! k = Some t -> plain_start t.
Proof.
  intros k t. unfold Demo.w0. cbn.
  intros [[<- <-]|[_ [<- <-]%lookup_singleton_Some]]%lookup_insert_Some.
  - right. exists 5000. split; [vm_compute; reflexivity | lia].
  - left. vm_compute. reflexivity.
Qed.

Lemma split_new_story_start_witness :
  exists data new,
    res (@Split.split plain_layer 7 4 1 Demo.w0) = Ok data /\
    Split.storyNew data = Some new /\
    ((prop new "timeStart" = VNull /\
      Forall (fun t => prop t "timeStart" = VNull) (Split.tasks data)) \/
     (exists ms, prop new "timeStart" = VDate ms /\ 0 < ms /\
        (exists t, t ∈ Split.tasks data /\ prop t "timeStart" = VDate ms) /\
        forall t ms', t ∈ Split.tasks data -> prop t "timeStart" = VDate ms' ->
                      ms' <= ms)).
Proof.
  destruct (@split_new_story_start plain_layer 7 4 1 Demo.w0 Demo.story7
              demo_no_fault demo_story demo_fresh demo_tasks_wf demo_plain_starts)
    as (data & new & Hr & Hn & _ & Hs).
  exists data, new. split_and!; [exact Hr | exact Hn | exact Hs].
Defined.

(** ** A report of finished tasks *)

Lemma of_Z_inj (a b : Z) : of_Z a = of_Z b -> a = b.
Proof. unfold of_Z, inject_Z. by intros [= ->]. Qed.

Lemma demo_lower_run :
  res (@Tasks.tasks_action plain_layer 7 wLower) = Ok reportLower.
Proof. vm_compute. reflexivity. Qed.

(** In every report of at most 200 tasks the number of done tasks is at
    most the number of tasks; when all tasks (at least one) are done the
    progress is 100, and a progress of 100 means that at least 199 of every
    200 tasks are done: for fewer than 200 tasks, that all of them are. *)
Theorem progress_complete `{DataLayer} (storyId : Z) (w : World) (rep : Tasks.Report) :
  res (Tasks.tasks_action storyId w) = Ok rep ->
  Tasks.cntTaskTotal rep <= 200 ->
  let total := Tasks.cntTaskTotal rep in
  let done := Tasks.cntTaskDone rep in
  0 <= done <= total /\
  (0 < total -> done = total -> Tasks.progressTask rep = of_Z 100) /\
  (Tasks.progressTask rep = of_Z 100 ->
     0 < done /\ 199 * total <= 200 * done /\ (total < 200 -> done = total)).
Proof.
  intros Hrep.
  destruct (tasks_action_built storyId w rep Hrep)
    as (role & story & tasks & users & types & phases & -> & _).
  destruct (countDone_range tasks) as [Hlo Hhi].
  cbn [Tasks.makeView Tasks.cntTaskTotal Tasks.cntTaskDone Tasks.progressTask].
  set (total := Z.of_nat (length tasks)) in *.
  set (done := Tasks.countDone tasks) in *.
  intros Hle. split; [done|]. split.
  - intros Ht E.
    destruct (progress_ok_spec done total) as (n & Hn & _ & _ & Hall & _);
      [apply progress_checked; lia|].
    rewrite Hn. f_equal. by apply Hall.
  - intros E. destruct (decide (0 < done)) as [Hd|Hd].
    + destruct (progress_ok_spec done total) as (n & Hn & _ & _ & _ & H100);
        [apply progress_checked; lia|].
      rewrite Hn in E. apply of_Z_inj in E. specialize (H100 E).
      split_and!; [done | done | lia].
    + unfold Tasks.computeProgress in E.
      assert ((0 <? done) = false) as Hf by (apply Z.ltb_ge; lia).
      rewrite Hf in E. by apply of_Z_inj in E.
Qed.

Lemma progress_complete_witness :
  Tasks.cntTaskTotal reportLower = 1 /\ Tasks.cntTaskDone reportLower = 1 /\
  Tasks.progressTask reportLower = of_Z 100.
Proof.
  assert (Tasks.cntTaskTotal reportLower <= 200) as Hle by (vm_compute; discriminate).
  destruct (@progress_complete plain_layer 7 wLower reportLower demo_lower_run Hle)
    as (_ & H100 & _).
  split; [reflexivity|]. split; [reflexivity|].
  apply H100; [reflexivity | reflexivity].
Defined.

(** ** The relations of the tasks of a report *)

Lemma find_found_in {A} (f : A -> bool) (l : list A) : found_in f l (List.find f l).
Proof.
  induction l as [|x xs IH]; cbn.
  - intros y Hy. by apply elem_of_nil in Hy.
  - destruct (f x) eqn:E.
    + exists 0%nat. split_and!; [done | done |]. intros j y Hj. lia.
    + destruct (List.find f xs) as [z|]; cbn in *.
      * destruct IH as (i & Hi & Hz & Hbefore). exists (Datatypes.S i).
        split_and!; [done | done |].
        intros [|j] y Hj Hy; cbn in Hy; [by injection Hy as <-|].
        apply (Hbefore j); [lia | done].
      * intros y [->|Hy]%elem_of_cons; [done | by apply IH].
Qed.

(** In every report each task carries the relations [_.find] resolves over
    the lists of the same report: its type is the first of the report's
    types whose id is the task's [typeId], its user the first user whose id
    is its [userId], and its phase the first of the report's phases, with
    duration and percentages, whose id is its [phaseId]; a relation is
    missing exactly when no element of the list has that id. *)
Theorem report_relations `{DataLayer} (storyId : Z) (w : World) (rep : Tasks.Report) :
  res (Tasks.tasks_action storyId w) = Ok rep ->
  forall tv, tv ∈ Tasks.tasks rep ->
    found_in (fun type => strict_eq (prop type "id") (prop (Tasks.task tv) "typeId"))
             (Tasks.types rep) (Tasks.taskType tv) /\
    found_in (fun user => strict_eq (prop user "id") (prop (Tasks.task tv) "userId"))
             (Tasks.users rep) (Tasks.taskUser tv) /\
    found_in (fun p => strict_eq (prop (Tasks.phase p) "id")
                                 (prop (Tasks.task tv) "phaseId"))
             (Tasks.phases rep) (Tasks.taskPhase tv).
Proof.
  intros Hrep.
  destruct (tasks_action_built storyId w rep Hrep)
    as (role & story & tasks & users & types & phases & -> & _).
  cbn [Tasks.makeView Tasks.tasks Tasks.types Tasks.users Tasks.phases].
  intros tv (t & -> & _)%list_elem_of_fmap.
  cbn [Tasks.viewTask Tasks.task Tasks.taskType Tasks.taskUser Tasks.taskPhase].
  split_and!; apply find_found_in.
Qed.

(** ** When the [tasks] action answers *)

Section ReportRun.
Context `{DataLayer}.
Hypothesis no_fault : forall c, fault c = false.

Lemma call_ok {A} (c : Call) (k : World -> Result A * World) (w : World) :
  call c k w = mkRun (k w).1 (k w).2 [c].
Proof. unfold call. by rewrite no_fault. Qed.

Lemma parallel_ok {A B} (j1 : M A) (j2 : M B) (w w1 w2 : World) (a : A) (b : B)
    (c1 c2 : list Call) :
  j1 w = mkRun (Ok a) w1 c1 -> j2 w1 = mkRun (Ok b) w2 c2 ->
  async_parallel j1 j2 w = mkRun (Ok (a, b)) w2 (c1 ++ c2).
Proof. intros E1 E2. unfold async_parallel. rewrite E1. cbn. by rewrite E2. Qed.

Lemma bind_run {A B} (m : M A) (f : A -> M B) (w w1 w2 : World) (a : A)
    (r : Result B) (c1 c2 : list Call) :
  m w = mkRun (Ok a) w1 c1 -> f a w1 = mkRun r w2 c2 ->
  (m ≫= f) w = mkRun r w2 (c1 ++ c2).
Proof. intros E1 E2. unfold mbind, M_bind. rewrite E1. cbn. by rewrite E2. Qed.

Lemma bind_ret {A B} (m : M A) (g : A -> B) (w w1 : World) (a : A) (c1 : list Call) :
  m w = mkRun (Ok a) w1 c1 ->
  (m ≫= fun x => mret (g x)) w = mkRun (Ok (g a)) w1 c1.
Proof. intros E1. unfold mbind, M_bind. rewrite E1. cbn. by rewrite app_nil_r. Qed.

Lemma reportFetches_run (storyId : Z) (w : World) (role : JsVal) (story : JsObj) :
  db_roles w !! storyId = Some role ->
  db_stories w !! storyId = Some story ->
  async_parallel (hasStoryAccess storyId)
    (async_parallel (getStory storyId)
      (async_parallel (getTasks (Tasks.tasksWhere storyId))
        (async_parallel (getUsers Tasks.noWhere) (getTypes Tasks.noWhere)))) w =
  mkRun (Ok (role, (story,
              (List.filter (matches (Tasks.tasksWhere storyId)) (stored_tasks w),
               (List.filter (matches Tasks.noWhere) (db_users w),
                List.filter (matches Tasks.noWhere) (db_types w))))))
        w (reportFetches storyId).
Proof.
  intros Hrole Hstory. unfold reportFetches.
  apply (parallel_ok _ _ w w w _ _ [_] [_; _; _; _]).
  { unfold hasStoryAccess. rewrite call_ok. cbn. by rewrite Hrole. }
  apply (parallel_ok _ _ w w w _ _ [_] [_; _; _]).
  { unfold getStory. rewrite call_ok. cbn. by rewrite Hstory. }
  apply (parallel_ok _ _ w w w _ _ [_] [_; _]).
  { unfold getTasks. by rewrite call_ok. }
  apply (parallel_ok _ _ w w w _ _ [_] [_]).
  { unfold getUsers. by rewrite call_ok. }
  unfold getTypes. by rewrite call_ok.
Qed.

Lemma phaseDuration_run (story phase : JsObj) (w : World) :
  Tasks.phaseDuration story phase w =
    mkRun (Ok (Tasks.mkDurPhase phase (ledger_duration w story phase))) w
          [PhaseDurationSum (Tasks.durationWhere story phase)].
Proof.
  unfold Tasks.phaseDuration, PhaseDuration_sum, mbind, M_bind.
  rewrite call_ok. cbn [res world calls fst snd]. by rewrite durationOrZero_sum.
Qed.

Lemma fetchPhaseDuration_run (story : JsObj) (phases : list JsObj) (w : World) :
  Tasks.fetchPhaseDuration story phases w =
    mkRun (Ok ((fun phase => Tasks.mkDurPhase phase (ledger_duration w story phase))
                 <$> phases))
          w ((fun phase => PhaseDurationSum (Tasks.durationWhere story phase)) <$> phases).
Proof.
  unfold Tasks.fetchPhaseDuration.
  induction phases as [|p ps IH]; [done|].
  cbn [async_map]. unfold mbind, M_bind.
  rewrite (parallel_ok _ _ w w w _ _ _ _ (phaseDuration_run story p w) IH).
  cbn [res world calls]. by rewrite app_nil_r.
Qed.

End ReportRun.

(** When no call fails and the store has a role and a story for the id, the
    [tasks] action answers with the report [makeView] builds from the role,
    the story, the selected tasks, the users, the types and the phases of
    the story's project with their ledger sums; it makes the five fetches,
    then the phase query, then one ledger query per phase, in the order of
    the phases. *)
Theorem tasks_action_answers `{DataLayer} (storyId : Z) (w : World)
    (role : JsVal) (story : JsObj) :
  (forall c, fault c = false) ->
  db_roles w !! storyId = Some role ->
  db_stories w !! storyId = Some story ->
  let r := Tasks.tasks_action storyId w in
  let phases := List.filter (matches (Tasks.phasesWhere story)) (db_phases w) in
  res r = Ok (Tasks.makeView role story
                (List.filter (matches (Tasks.tasksWhere storyId)) (stored_tasks w))
                (List.filter (matches Tasks.noWhere) (db_users w))
                (List.filter (matches Tasks.noWhere) (db_types w))
                (ledgerPhases w story)) /\
  calls r = reportFetches storyId ++ GetPhases (Tasks.phasesWhere story)
              :: ((fun phase => PhaseDurationSum (Tasks.durationWhere story phase))
                    <$> phases).
Proof.
  intros Hnf Hrole Hstory r phases. subst r.
  assert (Tasks.tasks_action storyId w =
          mkRun (Ok (Tasks.makeView role story
                       (List.filter (matches (Tasks.tasksWhere storyId)) (stored_tasks w))
                       (List.filter (matches Tasks.noWhere) (db_users w))
                       (List.filter (matches Tasks.noWhere) (db_types w))
                       (ledgerPhases w story)))
                w
                (reportFetches storyId ++ GetPhases (Tasks.phasesWhere story)
                   :: ((fun phase => PhaseDurationSum (Tasks.durationWhere story phase))
                         <$> phases))) as ->; [|done].
  unfold Tasks.tasks_action.
  apply (bind_run _ _ w w w _ _ _ _
           (reportFetches_run Hnf storyId w role story Hrole Hstory)).
  cbn beta iota.
  apply (bind_run _ _ w w w phases _ [_] _).
  { unfold getPhases. by rewrite (call_ok Hnf). }
  apply bind_ret. apply (fetchPhaseDuration_run Hnf).
Qed.

Lemma demo_lower_role : db_roles wLower !! 7 = Some (VStr "admin").
Proof. apply lookup_singleton_eq. Qed.

Lemma demo_lower_story : db_stories wLower !! 7 = Some Demo.story7.
Proof. apply lookup_singleton_eq. Qed.

Lemma tasks_action_answers_witness :
  exists rep,
    res (@Tasks.tasks_action plain_layer 7 wLower) = Ok rep /\
    Tasks.task <$> Tasks.tasks rep = [taskLower] /\
    Tasks.duration <$> Tasks.phases rep = [0; 30] /\
    Tasks.progressTask rep = of_Z 100.
Proof.
  destruct (@tasks_action_answers plain_layer 7 wLower (VStr "admin") Demo.story7
              demo_no_fault demo_lower_role demo_lower_story) as [Hr _].
  eexists. split; [exact Hr|].
  split_and!; vm_compute; reflexivity.
Defined.

Lemma demo_lower_report :
  exists rep tv, res (@Tasks.tasks_action plain_layer 7 wLower) = Ok rep /\
                 Tasks.tasks rep = [tv].
Proof. eexists _, _. split; vm_compute; reflexivity. Qed.

Lemma report_relations_witness :
  exists rep tv,
    res (@Tasks.tasks_action plain_layer 7 wLower) = Ok rep /\
    tv ∈ Tasks.tasks rep /\
    found_in (fun p => strict_eq (prop (Tasks.phase p) "id")
                                 (prop (Tasks.task tv) "phaseId"))
             (Tasks.phases rep) (Tasks.taskPhase tv).
Proof.
  destruct demo_lower_report as (rep & tv & Hr & Ht).
  assert (tv ∈ Tasks.tasks rep) as Hin by (rewrite Ht; left).
  exists rep, tv. split_and!; [exact Hr | exact Hin |].
  exact (proj2 (proj2 (@report_relations plain_layer 7 wLower rep Hr tv Hin))).
Defined.

(** ** A failed fetch of the [tasks] action *)

Section Reads.
Context `{DataLayer}.

Lemma reads_call {A} (c : Call) (f : World -> Result A) (w : World) (P : A -> Prop) :
  (forall a, f w = Ok a -> P a) ->
  (forall e, f w = Err e -> e = IoError c) ->
  reads [c] (call c (fun w => (f w, w))) w P.
Proof.
  intros HP He. unfold reads, call. destruct (fault c); cbn.
  - split_and!; [done | done | left].
  - split_and!; [done | done |]. destruct (f w) as [a|e] eqn:E; [by apply HP|].
    rewrite (He e eq_refl). left.
Qed.

Lemma reads_parallel {A B} (j1 : M A) (j2 : M B) (l1 l2 : list Call) (w : World)
    (P1 : A -> Prop) (P2 : B -> Prop) :
  reads l1 j1 w P1 -> reads l2 j2 w P2 ->
  reads (l1 ++ l2) (async_parallel j1 j2) w (fun ab => P1 ab.1 /\ P2 ab.2).
Proof.
  intros (Hw1 & Hc1 & Hr1) (Hw2 & Hc2 & Hr2). unfold reads, async_parallel.
  destruct (res (j1 w)) as [a|[c|]] eqn:E1; [| |done]; rewrite Hw1, Hw2, Hc1, Hc2; cbn.
  - split_and!; [done | done |].
    destruct (res (j2 w)) as [b|[c|]] eqn:E2; [done | | done].
    apply elem_of_app. by right.
  - split_and!; [done | done |]. apply elem_of_app. by left.
Qed.

Lemma bind_err {A B} (m : M A) (f : A -> M B) (w : World) (e : Error) :
  res (m w) = Err e -> (m ≫= f) w = mkRun (Err e) (world (m w)) (calls (m w)).
Proof. intros E. unfold mbind, M_bind. by rewrite E. Qed.

Lemma reads_reportFetches (storyId : Z) (w : World) :
  reads (reportFetches storyId)
    (async_parallel (hasStoryAccess storyId)
      (async_parallel (getStory storyId)
        (async_parallel (getTasks (Tasks.tasksWhere storyId))
          (async_parallel (getUsers Tasks.noWhere) (getTypes Tasks.noWhere))))) w
    (fun x => db_roles w !! storyId = Some x.1 /\
              db_stories w !! storyId = Some x.2.1).
Proof.
  assert (forall (A : Type) (m : M A) l P Q,
            reads l m w P -> (forall a, P a -> Q a) -> reads l m w Q) as Hweak.
  { intros A m l P Q (Hw & Hc & Hr) HPQ. split_and!; [done | done |].
    destruct (res (m w)) as [a|[c|]]; [by apply HPQ | done | done]. }
  eapply Hweak.
  - apply (reads_parallel _ _ [_] [_; _; _; _]).
    + unfold hasStoryAccess.
      apply (reads_call _ _ _ (fun role => db_roles w !! storyId = Some role)).
      * intros a. by destruct (db_roles w !! storyId); intros [= <-].
      * intros e. by destruct (db_roles w !! storyId); intros [= <-].
    + apply (reads_parallel _ _ [_] [_; _; _]).
      * unfold getStory.
        apply (reads_call _ _ _ (fun s => db_stories w !! storyId = Some s)).
        -- intros a. by destruct (db_stories w !! storyId); intros [= <-].
        -- intros e. by destruct (db_stories w !! storyId); intros [= <-].
      * apply (reads_parallel _ _ [_] [_; _]).
        -- unfold getTasks. by apply (reads_call _ _ _ (fun _ => True)).
        -- apply (reads_parallel _ _ [_] [_]).
           ++ unfold getUsers. by apply (reads_call _ _ _ (fun _ => True)).
           ++ unfold getTypes. by apply (reads_call _ _ _ (fun _ => True)).
  - intros (role & story & rest). cbn. tauto.
Qed.

End Reads.

(** When the store has no role or no story for the id, the [tasks] action
    answers with the failure of one of its five fetches, all of which are
    issued; it goes on to no phase query and no ledger query, whichever
    calls fail. *)
Theorem tasks_action_fetch_fails `{DataLayer} (storyId : Z) (w : World) :
  db_roles w !! storyId = None \/ db_stories w !! storyId = None ->
  let r := Tasks.tasks_action storyId w in
  (exists c, res r = Err (IoError c) /\ c ∈ reportFetches storyId) /\
  calls r = reportFetches storyId /\ world r = w.
Proof.
  intros Hno r. subst r.
  destruct (reads_reportFetches storyId w) as (Hw & Hc & Hr).
  unfold Tasks.tasks_action.
  destruct (res (async_parallel _ _ w)) as [x|[c|]] eqn:E.
  - exfalso. destruct Hr as [Hrole Hstory]. destruct Hno; congruence.
  - rewrite (bind_err _ _ _ _ E). cbn [res world calls].
    split_and!; [by exists c | exact Hc | exact Hw].
  - done.
Qed.

Lemma tasks_action_fetch_fails_witness :
  calls (@Tasks.tasks_action plain_layer 8 Demo.w0) = reportFetches 8.
Proof.
  apply (@tasks_action_fetch_fails plain_layer 8 Demo.w0).
  left. vm_compute. reflexivity.
Defined.
